(** * ts-ply: the PLY reader, writer and accessors of [PlyData]

    A shallow embedding of [plyData.ts] and the properties of its header
    parser, its three body decoders, its ASCII writer and its accessors.

    Conventions of the embedding.
    - Text is a [string] of 8-bit characters and a [Buffer] is a [list byte];
      [Buffer.toString()] is the bytewise conversion, which is what UTF-8
      decoding does on ASCII input.
    - A JavaScript [number] that the code obtains from [parseInt], from an
      array length or from an integer read of a [Buffer] is a mathematical
      integer or [NaN] ([jsint]); this is exact below 2^53.  The value of a
      [float]/[double] field is kept as its source: the IEEE-754 bit pattern
      read from the buffer, or the token handed to [parseFloat].  The
      statements that write floating values or compare them take the decimal
      rendering of a value and the relation "denote the same double" as
      parameters.
    - An array is a [list], which has no greatest length, where an array of
      the source holds at most 2^32 - 1 elements and a [push] beyond that
      throws.  The statements that depend on what is written for an integer,
      or on a decoder returning, take models whose integers are safe
      integers and whose arrays are within that limit ([safeInteger],
      [arraysWithinLimit], [representable]).
    - An exception is a value of [exn]; a function that can throw returns an
      [outcome], together with the objects it has mutated before throwing.
    - The arrays of a property are owned by that property and are never
      moved, so a reference to one of them is the path to its owner. *)

From Stdlib Require Import ZArith String Ascii List DecimalString DecimalPos Lia.
From Stdlib.Strings Require Import Byte.
From stdpp Require Import base list strings.

Open Scope string_scope.
Open Scope list_scope.
Open Scope Z_scope.

(** ** JavaScript values *)

Inductive exn :=
| Error (message : string)
| RangeError
| TypeError.

Inductive outcome (A : Type) :=
| Returns (a : A)
| Throws (e : exn).
Arguments Returns {A} a.
Arguments Throws {A} e.

(** Integer-valued numbers and [NaN]: the range of [parseInt], of array
    lengths and of the integer reads. *)
Inductive jsint :=
| Int (z : Z)
| NaN.

(** The source of a floating value. *)
Inductive ieee :=
| Binary32 (bits : Z)
| Binary64 (bits : Z)
| Literal (token : string).

Inductive number :=
| Num (n : jsint)
| Flt (f : ieee).

#[global] Instance exn_eq_dec : EqDecision exn.
Proof. solve_decision. Defined.
#[global] Instance jsint_eq_dec : EqDecision jsint.
Proof. solve_decision. Defined.
#[global] Instance ieee_eq_dec : EqDecision ieee.
Proof. solve_decision. Defined.
#[global] Instance number_eq_dec : EqDecision number.
Proof. solve_decision. Defined.

(** [a + b] on integer-valued numbers. *)
Definition jsint_add (a b : jsint) : jsint :=
  match a, b with
  | Int x, Int y => Int (x + y)
  | _, _ => NaN
  end.

(** [end - start] where either operand may be [undefined]. *)
Definition jsint_sub (a b : option jsint) : jsint :=
  match a, b with
  | Some (Int x), Some (Int y) => Int (x - y)
  | _, _ => NaN
  end.

(** The number of times the body of [for (let i = 0; i < count; i++)] runs:
    [i < NaN] is false. *)
Definition iterations (count : jsint) : nat :=
  match count with
  | Int z => Z.to_nat z
  | NaN => 0%nat
  end.

(** ** Text *)

Module Text.

(** [DELIMITER = /[ \t]/gm]. *)
Definition DELIMITER (c : ascii) : bool :=
  bool_decide (c = " "%char) || bool_decide (c = "009"%char).

Definition newline (c : ascii) : bool := bool_decide (c = "010"%char).

(** The white space of [String.prototype.trim] and of [parseInt] among the
    8-bit characters: TAB, LF, VT, FF, CR and SP. *)
Definition isWhiteSpace (c : ascii) : bool :=
  let n := nat_of_ascii c in
  ((9 <=? n)%nat && (n <=? 13)%nat) || (n =? 32)%nat.

(** [s.split(sep)] for a separator that matches one character. *)
Fixpoint split (sep : ascii -> bool) (s : string) : list string :=
  match s with
  | EmptyString => [EmptyString]
  | String c r =>
      if sep c then EmptyString :: split sep r
      else match split sep r with
           | t :: ts => String c t :: ts
           | [] => [String c EmptyString]
           end
  end.

Fixpoint trimStart (s : string) : string :=
  match s with
  | EmptyString => EmptyString
  | String c r => if isWhiteSpace c then trimStart r else s
  end.

Fixpoint trimEnd (s : string) : string :=
  match s with
  | EmptyString => EmptyString
  | String c r =>
      match trimEnd r with
      | EmptyString => if isWhiteSpace c then EmptyString else String c EmptyString
      | r' => String c r'
      end
  end.

Definition trim (s : string) : string := trimEnd (trimStart s).

Definition startsWith (s p : string) : bool := String.prefix p s.

(** [s.substring(n)]. *)
Fixpoint substring (n : nat) (s : string) : string :=
  match n, s with
  | O, _ => s
  | S n', String _ r => substring n' r
  | S _, EmptyString => EmptyString
  end.

(** [ToString] of a possibly [undefined] array element. *)
Definition ofToken (t : option string) : string :=
  match t with
  | Some s => s
  | None => "undefined"
  end.

Definition digit (c : ascii) : option Z :=
  let n := nat_of_ascii c in
  if ((48 <=? n)%nat && (n <=? 57)%nat)%bool then Some (Z.of_nat n - 48) else None.

Definition hexDigit (c : ascii) : option Z :=
  let n := nat_of_ascii c in
  if ((48 <=? n)%nat && (n <=? 57)%nat)%bool then Some (Z.of_nat n - 48)
  else if ((97 <=? n)%nat && (n <=? 102)%nat)%bool then Some (Z.of_nat n - 87)
  else if ((65 <=? n)%nat && (n <=? 70)%nat)%bool then Some (Z.of_nat n - 55)
  else None.

(** The longest prefix of digits of [s] in radix [R], read with [acc] as the
    value of the digits already seen; [None] when there is no digit. *)
Fixpoint digits (dig : ascii -> option Z) (R : Z) (acc : option Z) (s : string) : option Z :=
  match s with
  | EmptyString => acc
  | String c r =>
      match dig c with
      | Some d => digits dig R (Some (R * default 0 acc + d)) r
      | None => acc
      end
  end.

(** [parseInt(s)] with no radix: leading white space, a sign, an optional
    [0x]/[0X] that selects radix 16, then the longest prefix of digits.  The
    value is the integer that the digits denote, which is the number that
    the source gets when that integer is below 2^53 in absolute value; above,
    the source rounds it to a double. *)
Definition parseInt (s : string) : jsint :=
  let s := trimStart s in
  let '(sign, s) :=
    match s with
    | String "-" r => (-1, r)
    | String "+" r => (1, r)
    | _ => (1, s)
    end in
  let magnitude :=
    match s with
    | String "0" (String "x" r) | String "0" (String "X" r) =>
        digits hexDigit 16 None r
    | _ => digits digit 10 None s
    end in
  match magnitude with
  | Some m => Int (sign * m)
  | None => NaN
  end.

(** [parseFloat(s)]: the double that the literal denotes. *)
Definition parseFloat (s : string) : number := Flt (Literal s).

(** [`${n}`] for an integer-valued number that is written in plain decimal:
    a safe integer, or [NaN].  From 10^21 on the source writes the exponent
    notation, [1e+21], which is not modelled: the statements about the text
    that is written take safe integers. *)
Definition ofInt (n : jsint) : string :=
  match n with
  | Int z => NilZero.string_of_int (Z.to_int z)
  | NaN => "NaN"
  end.

End Text.

(** ** Type registry *)

Module PropertyType.

Inductive t := char | uchar | short | ushort | int | uint | float | double.

#[global] Instance eq_dec : EqDecision t.
Proof. solve_decision. Defined.

(** The string that is the run-time value of each member. *)
Definition toString (ty : t) : string :=
  match ty with
  | char => "char" | uchar => "uchar"
  | short => "short" | ushort => "ushort"
  | int => "int" | uint => "uint"
  | float => "float" | double => "double"
  end.

End PropertyType.

(** ** Buffer reads

    Every read throws a [RangeError] unless all its bytes lie inside the
    buffer. *)

Module Buffer.

Definition t := list byte.

Definition toString (b : t) : string := string_of_list_byte b.

(** The [w] bytes at [offset], if they all exist. *)
Definition bytesAt (b : t) (offset w : nat) : option (list byte) :=
  let bs := take w (drop offset b) in
  if (length bs =? w)%nat then Some bs else None.

(** The unsigned value of bytes given least significant first. *)
Fixpoint unsignedLE (bs : list byte) : Z :=
  match bs with
  | [] => 0
  | x :: r => Z.of_N (Byte.to_N x) + 256 * unsignedLE r
  end.

Definition unsigned (littleEndian : bool) (bs : list byte) : Z :=
  unsignedLE (if littleEndian then bs else rev bs).

(** Two's complement on [8 * w] bits. *)
Definition signed (w : nat) (u : Z) : Z :=
  if u <? 2 ^ (8 * Z.of_nat w - 1) then u else u - 2 ^ (8 * Z.of_nat w).

Definition readUint (w : nat) (littleEndian : bool) (b : t) (offset : nat) : outcome Z :=
  match bytesAt b offset w with
  | Some bs => Returns (unsigned littleEndian bs)
  | None => Throws RangeError
  end.

Definition readInt (w : nat) (littleEndian : bool) (b : t) (offset : nat) : outcome Z :=
  match readUint w littleEndian b offset with
  | Returns u => Returns (signed w u)
  | Throws e => Throws e
  end.

Definition readUint8 := readUint 1 true.
Definition readInt8 := readInt 1 true.
Definition readUint16LE := readUint 2 true.
Definition readUint16BE := readUint 2 false.
Definition readInt16LE := readInt 2 true.
Definition readInt16BE := readInt 2 false.
Definition readUint32LE := readUint 4 true.
Definition readUint32BE := readUint 4 false.
Definition readInt32LE := readInt 4 true.
Definition readInt32BE := readInt 4 false.

Definition readFloat (littleEndian : bool) (b : t) (offset : nat) : outcome ieee :=
  match readUint 4 littleEndian b offset with
  | Returns u => Returns (Binary32 u)
  | Throws e => Throws e
  end.

Definition readDouble (littleEndian : bool) (b : t) (offset : nat) : outcome ieee :=
  match readUint 8 littleEndian b offset with
  | Returns u => Returns (Binary64 u)
  | Throws e => Throws e
  end.

(** [data.slice(start)]: a negative [start] counts from the end, and
    [start = 0] is the whole buffer. *)
Definition slice (data : t) (start : Z) : t :=
  let len := Z.of_nat (length data) in
  if start =? 0 then data
  else if start <? 0 then drop (Z.to_nat (Z.max (start + len) 0)) data
  else drop (Z.to_nat (Z.min start len)) data.

End Buffer.

(** ** Property model *)

Inductive Property :=
| TypedProperty (name : string) (type : PropertyType.t) (values : list number)
| TypedListProperty (name : string) (type : PropertyType.t) (listCountBytes : Z)
    (flattenedData : list number) (flattenedIndexStart : list jsint).

Module Property.

Import PropertyType.

Definition name (p : Property) : string :=
  match p with
  | TypedProperty n _ _ => n
  | TypedListProperty n _ _ _ _ => n
  end.

Definition type (p : Property) : PropertyType.t :=
  match p with
  | TypedProperty _ ty _ => ty
  | TypedListProperty _ ty _ _ _ => ty
  end.

(** [Property.parseValue]; the token may be [undefined].  The [default]
    branch of the source is unreachable for a [PropertyType]. *)
Definition parseValue (token : option string) (ty : PropertyType.t) : number :=
  match ty with
  | char | uchar | short | ushort | int | uint =>
      Num (Text.parseInt (Text.ofToken token))
  | float | double =>
      Text.parseFloat (Text.ofToken token)
  end.

Definition integral (r : outcome Z) : outcome number :=
  match r with
  | Returns z => Returns (Num (Int z))
  | Throws e => Throws e
  end.

Definition floating (r : outcome ieee) : outcome number :=
  match r with
  | Returns f => Returns (Flt f)
  | Throws e => Throws e
  end.

(** [Property.readValue]. *)
Definition readValue (buffer : Buffer.t) (ty : PropertyType.t) (offset : nat)
    (littleEndian : bool) : outcome number :=
  match ty with
  | char => integral (Buffer.readInt8 buffer offset)
  | uchar => integral (Buffer.readUint8 buffer offset)
  | short =>
      integral (if littleEndian then Buffer.readInt16LE buffer offset
                else Buffer.readInt16BE buffer offset)
  | ushort =>
      integral (if littleEndian then Buffer.readUint16LE buffer offset
                else Buffer.readUint16BE buffer offset)
  | int =>
      integral (if littleEndian then Buffer.readInt32LE buffer offset
                else Buffer.readInt32BE buffer offset)
  | uint =>
      integral (if littleEndian then Buffer.readUint32LE buffer offset
                else Buffer.readUint32BE buffer offset)
  | float =>
      floating (if littleEndian then Buffer.readFloat true buffer offset
                else Buffer.readFloat false buffer offset)
  | double =>
      floating (if littleEndian then Buffer.readDouble true buffer offset
                else Buffer.readDouble false buffer offset)
  end.

(** [Property.getNumByte]. *)
Definition getNumByte (ty : PropertyType.t) : nat :=
  match ty with
  | char | uchar => 1
  | short | ushort => 2
  | int | uint | float => 4
  | double => 8
  end.

(** The loop of [TypedListProperty.parseNext]:
    [for (i = 0; i < count; i++) flattenedData.push(parseValue(tokens[tokenIndex++], type))],
    as long as the array stays within the greatest length of an array; the
    [push] that would exceed it throws in the source. *)
Fixpoint parseItems (n : nat) (tokens : list string) (tokenIndex : nat)
    (ty : PropertyType.t) (data : list number) : list number * nat :=
  match n with
  | O => (data, tokenIndex)
  | S n' =>
      parseItems n' tokens (S tokenIndex) ty
        (data ++ [parseValue (tokens !! tokenIndex) ty])
  end.

(** [parseNext] of both classes: the property after the call and the token
    index it returns. *)
Definition parseNext (p : Property) (tokens : list string) (tokenIndex : nat)
    : Property * nat :=
  match p with
  | TypedProperty n ty values =>
      (TypedProperty n ty (values ++ [parseValue (tokens !! tokenIndex) ty]),
       S tokenIndex)
  | TypedListProperty n ty lcb data starts =>
      let count := Text.parseInt (Text.ofToken (tokens !! tokenIndex)) in
      let tokenIndex := S tokenIndex in
      let afterSize := jsint_add (Int (Z.of_nat (length data))) count in
      let '(data', tokenIndex) := parseItems (iterations count) tokens tokenIndex ty data in
      (TypedListProperty n ty lcb data' (starts ++ [afterSize]), tokenIndex)
  end.

(** The loop of [TypedListProperty.readNext]/[readNextBigEndian]; a read that
    throws leaves the values pushed so far. *)
Fixpoint readItems (n : nat) (buffer : Buffer.t) (offset : nat)
    (ty : PropertyType.t) (littleEndian : bool) (data : list number)
    : list number * outcome nat :=
  match n with
  | O => (data, Returns offset)
  | S n' =>
      match readValue buffer ty offset littleEndian with
      | Returns v =>
          readItems n' buffer (offset + getNumByte ty) ty littleEndian (data ++ [v])
      | Throws e => (data, Throws e)
      end
  end.

(** The [switch (this.listCountBytes)] of the list readers. *)
Definition readCount (listCountBytes : Z) (littleEndian : bool)
    (buffer : Buffer.t) (offset : nat) : outcome Z :=
  if listCountBytes =? 1 then Buffer.readUint8 buffer offset
  else if listCountBytes =? 2 then
    if littleEndian then Buffer.readUint16LE buffer offset
    else Buffer.readUint16BE buffer offset
  else if listCountBytes =? 4 then
    if littleEndian then Buffer.readUint32LE buffer offset
    else Buffer.readUint32BE buffer offset
  else Throws (Error "invalid listCountBytes").

(** [readNext] ([littleEndian = true]) and [readNextBigEndian]
    ([littleEndian = false]) of both classes, which differ in that flag
    only: the property after the call and the offset it returns. *)
Definition read (littleEndian : bool) (p : Property) (buffer : Buffer.t)
    (offset : nat) : Property * outcome nat :=
  match p with
  | TypedProperty n ty values =>
      match readValue buffer ty offset littleEndian with
      | Returns v => (TypedProperty n ty (values ++ [v]), Returns (offset + getNumByte ty)%nat)
      | Throws e => (p, Throws e)
      end
  | TypedListProperty n ty lcb data starts =>
      match readCount lcb littleEndian buffer offset with
      | Throws e => (p, Throws e)
      | Returns count =>
          let offset := (offset + Z.to_nat lcb)%nat in
          let afterSize := jsint_add (Int (Z.of_nat (length data))) (Int count) in
          match readItems (iterations (Int count)) buffer offset ty littleEndian data with
          | (data', Returns offset) =>
              (TypedListProperty n ty lcb data' (starts ++ [afterSize]), Returns offset)
          | (data', Throws e) =>
              (TypedListProperty n ty lcb data' starts, Throws e)
          end
      end
  end.

Definition readNext := read true.
Definition readNextBigEndian := read false.

End Property.

(** [createPropertyWithType]; [None] is [undefined]. *)
Definition createPropertyWithType (name typeStr : string) (isList : bool)
    (listCountTypeStr : string) : option Property :=
  let listCountBytes : option Z :=
    if isList then
      if bool_decide (listCountTypeStr ∈ ["uchar"; "uint8"; "char"; "int8"]) then Some 1
      else if bool_decide (listCountTypeStr ∈ ["ushort"; "uint16"; "short"; "int16"]) then Some 2
      else if bool_decide (listCountTypeStr ∈ ["uint"; "uint32"; "int"; "int32"]) then Some 4
      else None
    else Some (-1) in
  match listCountBytes with
  | None => None
  | Some listCountBytes =>
      let make (ty : PropertyType.t) : option Property :=
        Some (if isList
              then TypedListProperty name ty listCountBytes [] [Int 0]
              else TypedProperty name ty []) in
      if bool_decide (typeStr ∈ ["uchar"; "uint8"]) then make PropertyType.uchar
      else if bool_decide (typeStr ∈ ["ushort"; "uint16"]) then make PropertyType.ushort
      else if bool_decide (typeStr ∈ ["uint"; "uint32"]) then make PropertyType.uint
      else if bool_decide (typeStr ∈ ["char"; "int8"]) then make PropertyType.char
      else if bool_decide (typeStr ∈ ["short"; "int16"]) then make PropertyType.short
      else if bool_decide (typeStr ∈ ["int"; "int32"]) then make PropertyType.int
      else if bool_decide (typeStr ∈ ["float"; "float32"]) then make PropertyType.float
      else if bool_decide (typeStr ∈ ["double"; "float64"]) then make PropertyType.double
      else None
  end.

(** ** The model *)

Record Element := {
  name : string;
  count : jsint;
  properties : list Property;
}.

Record Header := {
  type : string;
  version : string;
  comments : list string;
  objInfoComments : list string;
}.

Record PlyData := {
  header : Header;
  elements : list Element;
}.

(** [new PlyData()]. *)
Definition new_PlyData : PlyData :=
  {| header := {| type := ""; version := ""; comments := []; objInfoComments := [] |};
     elements := [] |}.


Definition pushComment (st : PlyData) (c : string) : PlyData :=
  let h := header st in
  {| header := {| type := type h; version := version h;
                  comments := comments h ++ [c];
                  objInfoComments := objInfoComments h |};
     elements := elements st |}.

Definition pushObjInfoComment (st : PlyData) (c : string) : PlyData :=
  let h := header st in
  {| header := {| type := type h; version := version h;
                  comments := comments h;
                  objInfoComments := objInfoComments h ++ [c] |};
     elements := elements st |}.

Definition pushElement (st : PlyData) (e : Element) : PlyData :=
  {| header := header st; elements := elements st ++ [e] |}.

Definition pushProperty (e : Element) (p : Property) : Element :=
  {| name := name e; count := count e; properties := properties e ++ [p] |}.

(** [this.elements[this.elements.length - 1].properties.push(property)], called
    with at least one element. *)
Definition pushPropertyToLast (st : PlyData) (p : Property) : PlyData :=
  {| header := header st;
     elements := alter (fun e => pushProperty e p) (length (elements st) - 1)%nat (elements st) |}.

Definition setFormat (st : PlyData) (ty ver : string) : PlyData :=
  let h := header st in
  {| header := {| type := ty; version := ver;
                  comments := comments h; objInfoComments := objInfoComments h |};
     elements := elements st |}.

Definition withProperties (e : Element) (ps : list Property) : Element :=
  {| name := name e; count := count e; properties := ps |}.

Definition withElements (st : PlyData) (es : list Element) : PlyData :=
  {| header := header st; elements := es |}.

(** ** Loops over mutable objects

    [forEach f xs s] is [for (const x of xs) s = f(x, s)] and
    [times n f x s] is [for (let i = 0; i < n; i++) s = f(x, s)] where [f]
    mutates [x] and may throw; an exception leaves the loop with the
    mutations made so far. *)

Fixpoint forEach {A T : Type} (f : A -> T -> A * outcome T) (xs : list A) (s : T)
    : list A * outcome T :=
  match xs with
  | [] => ([], Returns s)
  | x :: xs' =>
      match f x s with
      | (x', Returns s') =>
          let '(xs'', r) := forEach f xs' s' in (x' :: xs'', r)
      | (x', Throws e) => (x' :: xs', Throws e)
      end
  end.

Fixpoint times {A T : Type} (n : nat) (f : A -> T -> A * outcome T) (x : A) (s : T)
    : A * outcome T :=
  match n with
  | O => (x, Returns s)
  | S n' =>
      match f x s with
      | (x', Returns s') => times n' f x' s'
      | (x', Throws e) => (x', Throws e)
      end
  end.

(** ** Header parser *)

(** What one pass through the body of the line loop of [_parseHeader] does. *)
Inductive lineResult :=
| Next (st : PlyData)     (* fall through to the next line, or [continue] *)
| Break                   (* [break] *)
| ReturnFalse.            (* [return false] *)

Definition headerLine (st : PlyData) (line : string) : lineResult :=
  if bool_decide (line = "") then Next st
  else if Text.startsWith line "comment" then
    Next (pushComment st (Text.substring 8 line))
  else if Text.startsWith line "obj_info" then
    Next (pushObjInfoComment st (Text.substring 9 line))
  else if Text.startsWith line "element" then
    match Text.split Text.DELIMITER line with
    | [_; t1; t2] =>
        Next (pushElement st {| name := t1; count := Text.parseInt t2; properties := [] |})
    | _ => ReturnFalse
    end
  else if Text.startsWith line "property list" then
    match Text.split Text.DELIMITER line with
    | [_; _; t2; t3; t4] =>
        if (length (elements st) =? 0)%nat then ReturnFalse
        else match createPropertyWithType t4 t3 true t2 with
             | None => ReturnFalse
             | Some property => Next (pushPropertyToLast st property)
             end
    | _ => ReturnFalse
    end
  else if Text.startsWith line "property" then
    match Text.split Text.DELIMITER line with
    | [_; t1; t2] =>
        if (length (elements st) =? 0)%nat then ReturnFalse
        else match createPropertyWithType t2 t1 false "" with
             | None => ReturnFalse
             | Some property => Next (pushPropertyToLast st property)
             end
    | _ => ReturnFalse
    end
  else if Text.startsWith line "end_header" then Break
  else ReturnFalse.

(** [for (let i = lineCount; i < lines.length; ++i)] over the lines from
    [lineCount] on. *)
Fixpoint headerLines (st : PlyData) (lines : list string) : bool * PlyData :=
  match lines with
  | [] => (true, st)
  | line :: rest =>
      match headerLine st line with
      | Next st' => headerLines st' rest
      | Break => (true, st)
      | ReturnFalse => (false, st)
      end
  end.

(** [_parseHeader]: the result and the model after the call.  Reading
    [lines[0]] or [lines[1]] past the end gives [undefined], on which
    [.trim()] and [.split()] throw a [TypeError] that the [catch] turns into
    [false]. *)
Definition _parseHeader (st : PlyData) (lines : list string) : bool * PlyData :=
  match lines !! 0%nat with
  | None => (false, st)
  | Some line0 =>
      if bool_decide (Text.trim line0 ≠ "ply") then (false, st)
      else
        match lines !! 1%nat with
        | None => (false, st)
        | Some line1 =>
            match Text.split Text.DELIMITER line1 with
            | [formatStr; t1; t2] =>
                let st := setFormat st t1 t2 in
                if bool_decide (formatStr ≠ "format") then (false, st)
                else if bool_decide (version (header st) ≠ "1.0") then (false, st)
                else headerLines st (drop 2 lines)
            | _ => (false, st)
            end
        end
  end.

(** ** Body decoders *)

(** [for (const property of element.properties) iTok = property.parseNext(tokens, iTok)]. *)
Definition parseProperties (tokens : list string) (ps : list Property) (iTok : nat)
    : list Property * outcome nat :=
  forEach (fun p i => let '(p', i') := Property.parseNext p tokens i in (p', Returns i'))
    ps iTok.

(** [while (line == "") line = lines[lineCount++]], entered with [line == ""];
    [unread] are the lines from [lineCount] on.  [undefined == ""] is false. *)
Fixpoint skipBlank (unread : list string) (lineCount : nat) : option string * nat :=
  match unread with
  | [] => (None, S lineCount)
  | l :: unread' =>
      if bool_decide (l = "") then skipBlank unread' (S lineCount)
      else (Some l, S lineCount)
  end.

(** The body of the instance loop of [_parseAscii]; [line.split] throws a
    [TypeError] on [undefined]. *)
Definition parseAsciiInstance (lines : list string) (ps : list Property) (lineCount : nat)
    : list Property * outcome nat :=
  let line := lines !! lineCount in
  let lineCount := S lineCount in
  let '(line, lineCount) :=
    if (length ps =? 0)%nat then
      match line with
      | Some EmptyString => skipBlank (drop lineCount lines) lineCount
      | _ => (line, lineCount)
      end
    else (line, lineCount) in
  match line with
  | None => (ps, Throws TypeError)
  | Some l =>
      let '(ps', _) := parseProperties (Text.split Text.DELIMITER l) ps 0%nat in
      (ps', Returns lineCount)
  end.

Definition parseAsciiElement (lines : list string) (e : Element) (lineCount : nat)
    : Element * outcome nat :=
  let '(ps, r) := times (iterations (count e)) (parseAsciiInstance lines) (properties e) lineCount in
  (withProperties e ps, r).

Definition _parseAscii (st : PlyData) (lines : list string) : PlyData * outcome nat :=
  let '(es, r) := forEach (parseAsciiElement lines) (elements st) 0%nat in
  (withElements st es, r).

(** [for (const property of element.properties) offset = property.readNext(buffer, offset)],
    with [readNextBigEndian] when [littleEndian] is false. *)
Definition readProperties (littleEndian : bool) (buffer : Buffer.t)
    (ps : list Property) (offset : nat) : list Property * outcome nat :=
  forEach (fun p off => Property.read littleEndian p buffer off) ps offset.

Definition parseBinaryElement (buffer : Buffer.t) (e : Element) (offset : nat)
    : Element * outcome nat :=
  let '(ps, r) := times (iterations (count e)) (readProperties true buffer) (properties e) offset in
  (withProperties e ps, r).

Definition _parseBinary (st : PlyData) (buffer : Buffer.t) : PlyData * outcome nat :=
  let '(es, r) := forEach (parseBinaryElement buffer) (elements st) 0%nat in
  (withElements st es, r).

(** The big-endian decoder has no loop over the instances. *)
Definition parseBinaryBigEndianElement (buffer : Buffer.t) (e : Element) (offset : nat)
    : Element * outcome nat :=
  let '(ps, r) := readProperties false buffer (properties e) offset in
  (withProperties e ps, r).

Definition _parseBinaryBigEndian (st : PlyData) (buffer : Buffer.t) : PlyData * outcome nat :=
  let '(es, r) := forEach (parseBinaryBigEndianElement buffer) (elements st) 0%nat in
  (withElements st es, r).

(** ** load *)

Definition target : list byte := list_byte_of_string "end_header
".

(** The inner loop of [splitByEndHeader]: all of [targetCode] is found at the
    head of [data]. *)
Fixpoint matchesAt (targetCode data : list byte) : bool :=
  match targetCode, data with
  | [], _ => true
  | _ :: _, [] => false
  | t :: targetCode', d :: data' =>
      if Byte.eqb d t then matchesAt targetCode' data' else false
  end.

(** The outer loop: the first [i] at which the target matches; [data] are the
    bytes from [i] on. *)
Fixpoint findTarget (data : list byte) (i : nat) : option nat :=
  match data with
  | [] => None
  | _ :: data' =>
      if matchesAt target data then Some i else findTarget data' (S i)
  end.

(** [splitByEndHeader]; [None] is the empty array. *)
Definition splitByEndHeader (data : Buffer.t) : option (Buffer.t * Buffer.t) :=
  match findTarget data 0 with
  | Some i =>
      let headerLength := (i + length target)%nat in
      Some (take headerLength data,
            Buffer.slice data (Z.of_nat headerLength - Z.of_nat (length data)))
  | None => None
  end.

Definition asLines (b : Buffer.t) : list string :=
  Text.split Text.newline (Buffer.toString b).

Definition returned {A : Type} (r : outcome A) : bool :=
  match r with
  | Returns _ => true
  | Throws _ => false
  end.

(** [load], given the bytes that [fs.readFileSync] returns: the result and the
    model after the call. *)
Definition load (st : PlyData) (buf : Buffer.t) : bool * PlyData :=
  match splitByEndHeader buf with
  | None => (false, st)
  | Some (head, body) =>
      match _parseHeader st (asLines head) with
      | (false, st) => (false, st)
      | (true, st) =>
          if bool_decide (type (header st) = "ascii") then
            let '(st', r) := _parseAscii st (asLines body) in (returned r, st')
          else if bool_decide (type (header st) = "binary_little_endian") then
            let '(st', r) := _parseBinary st body in (returned r, st')
          else if bool_decide (type (header st) = "binary_big_endian") then
            let '(st', r) := _parseBinaryBigEndian st body in (returned r, st')
          else (false, st)
      end
  end.

(** ** Writer

    [ws.write] appends to the text of the stream.  The writer is parametric in
    [fmt], the decimal rendering of a floating value. *)

Section Writer.

Variable fmt : ieee -> string.

(** [`${v}`] for an array element that may be [undefined]. *)
Definition ofNumber (v : option number) : string :=
  match v with
  | None => "undefined"
  | Some (Num n) => Text.ofInt n
  | Some (Flt f) => fmt f
  end.

(** [array[i]] for an integer [i]. *)
Definition at_ {A : Type} (l : list A) (i : Z) : option A :=
  if i <? 0 then None else l !! Z.to_nat i.

(** The values of [i] in [for (let i = start; i < end; i++)]; a comparison
    with [undefined] or [NaN] is false. *)
Definition range (start stop : option jsint) : list Z :=
  match start, stop with
  | Some (Int s), Some (Int e) => seqZ s (e - s)
  | _, _ => []
  end.

Definition writeHeaderOfProperty (property : Property) : string :=
  let propertyPrefix :=
    match property with
    | TypedProperty _ _ _ => "property"
    | TypedListProperty _ _ _ _ _ => "property list uchar"
    end in
  propertyPrefix +:+ " " +:+ PropertyType.toString (Property.type property)
    +:+ " " +:+ Property.name property +:+ "
".

Definition writeHeaderOfElement (element : Element) : string :=
  "element " +:+ name element +:+ " " +:+ Text.ofInt (count element) +:+ "
" +:+ String.concat "" (map writeHeaderOfProperty (properties element)).

Definition _writeHeader (st : PlyData) : string :=
  "ply
" +:+ "format ascii " +:+ version (header st) +:+ "
" +:+ String.concat "" (map (fun c => "comment " +:+ c +:+ "
") (comments (header st)))
  +:+ String.concat "" (map (fun c => "obj_info " +:+ c +:+ "
") (objInfoComments (header st)))
  +:+ String.concat "" (map writeHeaderOfElement (elements st))
  +:+ "end_header
".

Definition writeProperty (property : Property) (index : nat) : string :=
  match property with
  | TypedProperty _ _ values => ofNumber (values !! index) +:+ " "
  | TypedListProperty _ _ _ data starts =>
      let start := starts !! index in
      let stop := starts !! S index in
      Text.ofInt (jsint_sub stop start)
      +:+ String.concat "" (map (fun i => " " +:+ ofNumber (at_ data i)) (range start stop))
      +:+ " "
  end.

Definition writeInstance (element : Element) (index : nat) : string :=
  String.concat "" (map (fun p => writeProperty p index) (properties element)) +:+ "
".

Definition writeElement (element : Element) : string :=
  String.concat "" (map (writeInstance element) (seq 0 (iterations (count element)))).

(** [save]: the result and the text written to the stream. *)
Definition save (st : PlyData) : bool * string :=
  (true, _writeHeader st +:+ String.concat "" (map writeElement (elements st))).

End Writer.

(** [load(tmpFile)] into a new model after [save(tmpFile)]. *)
Definition reload (fmt : ieee -> string) (st : PlyData) : bool * PlyData :=
  load new_PlyData (list_byte_of_string (save fmt st).2).

(** ** Accessors *)

Definition findElement (st : PlyData) (n : string) : option (nat * Element) :=
  list_find (fun e => name e = n) (elements st).

Definition findProperty (e : option (nat * Element)) (n : string) : option (nat * Property) :=
  match e with
  | Some (_, e) => list_find (fun p => Property.name p = n) (properties e)
  | None => None
  end.

(** [getValues] of [_getVertexValues]. *)
Definition getValues (property : Property) : list number :=
  match property with
  | TypedProperty _ _ values => values
  | TypedListProperty _ _ _ _ _ => []
  end.

(** The final loop of [_getVertexValues], over [values1]; an index past the end
    of another array reads [undefined], which cannot happen behind the length
    check and is rendered by [NaN] here. *)
Fixpoint interleave (values1 values2 values3 : list number) : list number :=
  match values1 with
  | [] => []
  | v1 :: r1 =>
      v1 :: default (Num NaN) (head values2) :: default (Num NaN) (head values3)
        :: interleave r1 (tail values2) (tail values3)
  end.

Definition _getVertexValues (st : PlyData)
    (vertexElementName componentName1 componentName2 componentName3 : string)
    : outcome (list number) :=
  let vertex := findElement st vertexElementName in
  match findProperty vertex componentName1,
        findProperty vertex componentName2,
        findProperty vertex componentName3 with
  | Some (_, property1), Some (_, property2), Some (_, property3) =>
      let values1 := getValues property1 in
      let values2 := getValues property2 in
      let values3 := getValues property3 in
      if bool_decide (length values1 ≠ length values2)
         || bool_decide (length values1 ≠ length values3)
      then Throws (Error "invalid vertex properties")
      else Returns (interleave values1 values2 values3)
  | _, _, _ => Throws (Error "vertex element or properties not found")
  end.

Definition getVertexPositions (st : PlyData) (vertexElementName : string) :=
  _getVertexValues st vertexElementName "x" "y" "z".

Definition getVertexColors (st : PlyData) (vertexElementName : string) :=
  _getVertexValues st vertexElementName "red" "green" "blue".

(** A reference to an array of the model: the [flattenedData] or the
    [flattenedIndexStart] of property [p] of element [e]. *)
Inductive ArrayRef :=
| flattenedDataOf (e p : nat)
| flattenedIndexStartOf (e p : nat).

Record Faces := {
  indices : ArrayRef;
  strides : ArrayRef;
}.

(** The array that a reference denotes in a model. *)
Definition deref (st : PlyData) (r : ArrayRef) : option (list number) :=
  let property e p := elements st !! e ≫= fun el => properties el !! p in
  match r with
  | flattenedDataOf e p =>
      match property e p with
      | Some (TypedListProperty _ _ _ data _) => Some data
      | _ => None
      end
  | flattenedIndexStartOf e p =>
      match property e p with
      | Some (TypedListProperty _ _ _ _ starts) => Some (map Num starts)
      | _ => None
      end
  end.

(** [getIndices] of [getFaces], for a property found in element [e]. *)
Definition getIndices (e : nat) (property : option (nat * Property)) : option Faces :=
  match property with
  | None => None
  | Some (p, TypedListProperty _ _ _ _ _) =>
      Some {| indices := flattenedDataOf e p; strides := flattenedIndexStartOf e p |}
  | Some (_, TypedProperty _ _ _) => None
  end.

Definition getFaces (st : PlyData) : outcome Faces :=
  let face := findElement st "face" in
  let e := match face with Some (e, _) => e | None => 0%nat end in
  let vertexIndices := findProperty face "vertex_indices" in
  let vertexIndex := findProperty face "vertex_index" in
  match getIndices e vertexIndices with
  | Some ret => Returns ret
  | None =>
      match getIndices e vertexIndex with
      | Some ret => Returns ret
      | None => Throws (Error "vertex indices property not found")
      end
  end.

(** The contents of the two arrays that [getFaces] returns. *)
Definition facesContents (st : PlyData) : outcome (option (list number) * option (list number)) :=
  match getFaces st with
  | Returns f => Returns (deref st (indices f), deref st (strides f))
  | Throws e => Throws e
  end.

(** ** Predicates used in the statements *)

(** [a <= b] on integer-valued numbers; a comparison with [NaN] is false. *)
Definition jsint_le (a b : jsint) : Prop :=
  match a, b with
  | Int x, Int y => x <= y
  | _, _ => False
  end.

Definition nondecreasing (l : list jsint) : Prop :=
  forall i a b, l !! i = Some a -> l !! S i = Some b -> jsint_le a b.

(** A property as its constructor leaves it. *)
Definition fresh (p : Property) : Prop :=
  match p with
  | TypedProperty _ _ values => values = []
  | TypedListProperty _ _ _ data starts => data = [] /\ starts = [Int 0]
  end.

(** A property after [k] instances: a scalar property holds [k] values; the
    index of a list property starts at 0 and has one more entry per instance. *)
Definition indexed (k : nat) (p : Property) : Prop :=
  match p with
  | TypedProperty _ _ values => length values = k
  | TypedListProperty _ _ _ _ starts =>
      starts !! 0%nat = Some (Int 0) /\ length starts = S k
  end.

(** Moreover the index is non-decreasing and ends at the length of the data. *)
Definition sliced (p : Property) : Prop :=
  match p with
  | TypedProperty _ _ _ => True
  | TypedListProperty _ _ _ data starts =>
      nondecreasing starts /\ last starts = Some (Int (Z.of_nat (length data)))
  end.

(** What [k] instances leave of a list property when the index is kept in
    order. *)
Definition decoded (k : nat) (p : Property) : Prop := indexed k p /\ sliced p.

(** Every property of the model is as its constructor leaves it. *)
Definition all_fresh (st : PlyData) : Prop :=
  Forall (fun e => Forall fresh (properties e)) (elements st).

(** A looked-up property of which [getIndices] makes nothing: it is absent or
    is a scalar. *)
Definition notAList (property : option (nat * Property)) : Prop :=
  match property with
  | Some (_, TypedListProperty _ _ _ _ _) => False
  | _ => True
  end.

(** A count for which [i < count] is false at [i = 0]. *)
Definition notPositive (count : jsint) : Prop :=
  match count with
  | Int z => z <= 0
  | NaN => True
  end.

(** [l'] keeps the members of [l], each related by [R], in place and in order,
    and may have more after them. *)
Definition grows {A : Type} (R : A -> A -> Prop) (l l' : list A) : Prop :=
  exists k new, l' = k ++ new /\ Forall2 R l k.

(** A property that has only had values pushed. *)
Definition Property_extends (p p' : Property) : Prop :=
  match p, p' with
  | TypedProperty n ty vs, TypedProperty n' ty' vs' =>
      n = n' /\ ty = ty' /\ vs `prefix_of` vs'
  | TypedListProperty n ty lcb d s, TypedListProperty n' ty' lcb' d' s' =>
      n = n' /\ ty = ty' /\ lcb = lcb' /\ d `prefix_of` d' /\ s `prefix_of` s'
  | _, _ => False
  end.

Definition Element_extends (e e' : Element) : Prop :=
  name e = name e' /\ count e = count e'
  /\ grows Property_extends (properties e) (properties e').

(** A model that has only had comments, elements, properties and values
    pushed. *)
Definition PlyData_extends (st st' : PlyData) : Prop :=
  comments (header st) `prefix_of` comments (header st')
  /\ objInfoComments (header st) `prefix_of` objInfoComments (header st')
  /\ grows Element_extends (elements st) (elements st').

(** A line at which the line loop of [_parseHeader] stops: it is not empty,
    starts with none of [comment], [obj_info], [element], [property] and
    starts with [end_header]. *)
Definition breaks (line : string) : bool :=
  negb (bool_decide (line = ""))
  && negb (Text.startsWith line "comment")
  && negb (Text.startsWith line "obj_info")
  && negb (Text.startsWith line "element")
  && negb (Text.startsWith line "property")
  && Text.startsWith line "end_header".

(** The lines that the line loop of [_parseHeader] goes through before it
    stops at a line that starts with [end_header]. *)
Fixpoint beforeEnd (lines : list string) : list string :=
  match lines with
  | [] => []
  | line :: rest =>
      if Text.startsWith line "end_header" then [] else line :: beforeEnd rest
  end.

(** The element that an [element] line declares: the second token is its
    name and [parseInt] of the third its count. *)
Definition declares (line : string) (e : Element) : Prop :=
  exists t0 t2,
    Text.split Text.DELIMITER line = [t0; name e; t2] /\ count e = Text.parseInt t2.

(** A line that leaves the elements alone: empty, a comment or an obj_info. *)
Definition remark (line : string) : bool :=
  bool_decide (line = "")
  || Text.startsWith line "comment"
  || Text.startsWith line "obj_info".

(** The names of the property types. *)
Definition typeNames : list string :=
  ["uchar"; "uint8"; "ushort"; "uint16"; "uint"; "uint32"; "char"; "int8";
   "short"; "int16"; "int"; "int32"; "float"; "float32"; "double"; "float64"].

(** ** The text that [save] writes, as lines and tokens

    [writeHeader_lines] and [save_lines] show that the text of [save] is the
    text of these lines. *)

(** No character of [s] matches [sep]. *)
Fixpoint free (sep : ascii -> bool) (s : string) : bool :=
  match s with
  | EmptyString => true
  | String c r => negb (sep c) && free sep r
  end.

Definition isLine (s : string) : bool := free Text.newline s.

Definition isToken (s : string) : bool := free Text.DELIMITER s && free Text.newline s.

(** The text of lines, each with its line feed. *)
Definition unlines (ls : list string) : string :=
  String.concat "" (map (fun l => l +:+ "
") ls).

(** The text of tokens, each followed by a space. *)
Definition untokens (ts : list string) : string :=
  String.concat "" (map (fun t => t +:+ " ") ts).

(** The lines of [_writeHeader]. *)
Definition propertyLine (p : Property) : string :=
  match p with
  | TypedProperty _ _ _ => "property"
  | TypedListProperty _ _ _ _ _ => "property list uchar"
  end +:+ " " +:+ PropertyType.toString (Property.type p) +:+ " " +:+ Property.name p.

Definition elementLines (e : Element) : list string :=
  ("element " +:+ name e +:+ " " +:+ Text.ofInt (count e)) :: map propertyLine (properties e).

Definition headerTextLines (st : PlyData) : list string :=
  ["ply"; "format ascii " +:+ version (header st)]
  ++ map (fun c => "comment " +:+ c) (comments (header st))
  ++ map (fun c => "obj_info " +:+ c) (objInfoComments (header st))
  ++ concat (map elementLines (elements st))
  ++ ["end_header"].

(** The tokens that [writeProperty] emits for record [index] of a property,
    the line of a record and the lines of the body. *)
Definition propertyTokens (fmt : ieee -> string) (p : Property) (index : nat) : list string :=
  match p with
  | TypedProperty _ _ values => [ofNumber fmt (values !! index)]
  | TypedListProperty _ _ _ data starts =>
      let start := starts !! index in
      let stop := starts !! S index in
      Text.ofInt (jsint_sub stop start)
        :: map (fun i => ofNumber fmt (at_ data i)) (range start stop)
  end.

Definition instanceLine (fmt : ieee -> string) (e : Element) (index : nat) : string :=
  untokens (concat (map (fun p => propertyTokens fmt p index) (properties e))).

Definition elementBodyLines (fmt : ieee -> string) (e : Element) : list string :=
  map (instanceLine fmt e) (seq 0 (iterations (count e))).

Definition bodyLines (fmt : ieee -> string) (st : PlyData) : list string :=
  concat (map (elementBodyLines fmt) (elements st)).

(** ** What the written header declares *)

(** What the written header declares of a property, an element and a model:
    the names, types and counts, with the arrays as the constructors leave them
    and a one-byte list count. *)
Definition declareProperty (p : Property) : Property :=
  match p with
  | TypedProperty n ty _ => TypedProperty n ty []
  | TypedListProperty n ty _ _ _ => TypedListProperty n ty 1 [] [Int 0]
  end.

Definition declareElement (e : Element) : Element :=
  withProperties e (map declareProperty (properties e)).

Definition declared (st : PlyData) : PlyData :=
  {| header := {| type := "ascii"; version := version (header st);
                  comments := comments (header st);
                  objInfoComments := objInfoComments (header st) |};
     elements := map declareElement (elements st) |}.

(** The model with the given format, comments and elements. *)
Definition PlyData_of (ty ver : string) (cs os : list string) (es : list Element) : PlyData :=
  {| header := {| type := ty; version := ver; comments := cs; objInfoComments := os |};
     elements := es |}.

(** ** Predicates of the round trip *)

(** The names of the model are tokens and its comments are lines. *)
Definition named (st : PlyData) : Prop :=
  Forall (fun c => isLine c = true) (comments (header st))
  /\ Forall (fun c => isLine c = true) (objInfoComments (header st))
  /\ Forall (fun e => isToken (name e) = true
                      /\ Forall (fun p => isToken (Property.name p) = true) (properties e))
       (elements st).

(** A value of the kind that [parseValue] and [readValue] give for the type. *)
Definition typedValue (ty : PropertyType.t) (v : number) : Prop :=
  match ty, v with
  | (PropertyType.float | PropertyType.double), Flt _ => True
  | (PropertyType.float | PropertyType.double), Num _ => False
  | _, Num _ => True
  | _, Flt _ => False
  end.

Definition typed (p : Property) : Prop :=
  match p with
  | TypedProperty _ ty values => Forall (typedValue ty) values
  | TypedListProperty _ ty _ data _ => Forall (typedValue ty) data
  end.

(** Two numbers that are the same, given when two sources of a floating value
    denote the same double. *)
Definition same_number (same_double : ieee -> ieee -> Prop) (a b : number) : Prop :=
  match a, b with
  | Num x, Num y => x = y
  | Flt f, Flt g => same_double f g
  | _, _ => False
  end.

(** Two properties, elements and models that agree but for the width of the
    list counts. *)
Definition same_property (same_double : ieee -> ieee -> Prop) (q p : Property) : Prop :=
  match q, p with
  | TypedProperty n' ty' vs', TypedProperty n ty vs =>
      n' = n /\ ty' = ty /\ Forall2 (same_number same_double) vs' vs
  | TypedListProperty n' ty' _ d' s', TypedListProperty n ty _ d s =>
      n' = n /\ ty' = ty /\ Forall2 (same_number same_double) d' d /\ s' = s
  | _, _ => False
  end.

Definition same_element (same_double : ieee -> ieee -> Prop) (e' e : Element) : Prop :=
  name e' = name e /\ count e' = count e
  /\ Forall2 (same_property same_double) (properties e') (properties e).

(** The first [k] records of a property. *)
Definition firstInstances (k : nat) (p : Property) : Property :=
  match p with
  | TypedProperty n ty vs => TypedProperty n ty (take k vs)
  | TypedListProperty n ty lcb d s =>
      TypedListProperty n ty lcb
        (take (iterations (default NaN (s !! k))) d) (take (S k) s)
  end.

(** An element whose records the writer and the ASCII decoder lay out alike:
    it has a property unless it has no record, and each property holds values
    of its type for as many records as the count says, with the index of a
    list property in order. *)
Definition recorded (e : Element) : Prop :=
  (properties e = [] -> iterations (count e) = 0%nat)
  /\ Forall (fun p => typed p /\ decoded (iterations (count e)) p) (properties e).

(** The [end_header] line that ends the written header is the first in it. *)
Definition marked (st : PlyData) : Prop :=
  let head := list_byte_of_string (_writeHeader st) in
  exists rest, splitByEndHeader head = Some (head, rest).

Definition same_model (same_double : ieee -> ieee -> Prop) (st' st : PlyData) : Prop :=
  version (header st') = version (header st)
  /\ comments (header st') = comments (header st)
  /\ objInfoComments (header st') = objInfoComments (header st)
  /\ Forall2 (same_element same_double) (elements st') (elements st).

(** Two outcomes that are alike: the same exception, or results related by
    [R]. *)
Definition same_outcome {A : Type} (R : A -> A -> Prop) (r' r : outcome A) : Prop :=
  match r', r with
  | Returns a', Returns a => R a' a
  | Throws e', Throws e => e' = e
  | _, _ => False
  end.

(** [s.endsWith(p)]. *)
Fixpoint endsWith (s p : string) : bool :=
  String.eqb s p
  || match s with
     | EmptyString => false
     | String _ r => endsWith r p
     end.

(** No comment, obj_info text or property name of the model ends with
    [end_header]. *)
Definition unmarked (st : PlyData) : Prop :=
  Forall (fun c => endsWith c "end_header" = false) (comments (header st))
  /\ Forall (fun c => endsWith c "end_header" = false) (objInfoComments (header st))
  /\ Forall (fun e => Forall (fun p => endsWith (Property.name p) "end_header" = false)
                        (properties e)) (elements st).

(** ** Decimal digits *)

(** The value of the digits of [d] read after digits of value [acc]. *)
Fixpoint uintValue (d : Decimal.uint) (acc : Z) : Z :=
  match d with
  | Decimal.Nil => acc
  | Decimal.D0 d => uintValue d (10 * acc)
  | Decimal.D1 d => uintValue d (10 * acc + 1)
  | Decimal.D2 d => uintValue d (10 * acc + 2)
  | Decimal.D3 d => uintValue d (10 * acc + 3)
  | Decimal.D4 d => uintValue d (10 * acc + 4)
  | Decimal.D5 d => uintValue d (10 * acc + 5)
  | Decimal.D6 d => uintValue d (10 * acc + 6)
  | Decimal.D7 d => uintValue d (10 * acc + 7)
  | Decimal.D8 d => uintValue d (10 * acc + 8)
  | Decimal.D9 d => uintValue d (10 * acc + 9)
  end.

(** Evaluates the character tests of [parseInt] on literal characters. *)
Ltac eval_digit :=
  repeat match goal with
  | |- context [Text.digit ?c] =>
      let v := eval vm_compute in (Text.digit c) in change (Text.digit c) with v
  | |- context [Text.isWhiteSpace ?c] =>
      let v := eval vm_compute in (Text.isWhiteSpace c) in change (Text.isWhiteSpace c) with v
  end.

(** ** The range of the embedding *)

(** A safe integer, one for which [Number.isSafeInteger] holds, or [NaN]:
    the integer-valued numbers that the source holds exactly, writes in plain
    decimal and reads back as they were. *)
Definition safeInteger (n : jsint) : Prop :=
  match n with
  | Int z => - 2 ^ 53 < z < 2 ^ 53
  | NaN => True
  end.

Definition safeNumber (v : number) : Prop :=
  match v with
  | Num n => safeInteger n
  | Flt _ => True
  end.

(** The greatest length of an array of the source. *)
Definition arrayLimit : Z := 2 ^ 32 - 1.

Definition withinLimit {A : Type} (l : list A) : Prop := Z.of_nat (length l) <= arrayLimit.

(** The arrays of values and the indices of the model are arrays of the
    source. *)
Definition arraysWithinLimit (st : PlyData) : Prop :=
  Forall (fun e =>
            Forall (fun p =>
                      match p with
                      | TypedProperty _ _ values => withinLimit values
                      | TypedListProperty _ _ _ data starts =>
                          withinLimit data /\ withinLimit starts
                      end) (properties e)) (elements st).

(** A model on which the embedding is exact: its arrays are within the
    limit, and its counts, its integer values and the entries of its indices
    are safe integers. *)
Definition representable (st : PlyData) : Prop :=
  arraysWithinLimit st
  /\ Forall (fun e =>
               safeInteger (count e)
               /\ Forall (fun p =>
                            match p with
                            | TypedProperty _ _ values => Forall safeNumber values
                            | TypedListProperty _ _ _ data starts =>
                                Forall safeNumber data /\ Forall safeInteger starts
                            end) (properties e)) (elements st).

(** The range conditions of a model that is given in full. *)
Ltac in_range :=
  repeat constructor;
  repeat match goal with
         | |- withinLimit _ => unfold withinLimit, arrayLimit; cbn [length]; lia
         | |- _ /\ _ => split
         | |- Forall _ _ => repeat constructor
         | |- _ => done
         end.

(** ** Measures and predicates of the further properties *)

(** The number of records of an element that the body decoder of a format
    reads: the big-endian decoder reads one, the others as many as the
    instance loop runs. *)
Definition recordsRead (format : string) (e : Element) : nat :=
  if bool_decide (format = "binary_big_endian") then 1%nat else iterations (count e).

(** The number of records that the header declares: the runs of the instance
    loop over all elements. *)
Definition records (st : PlyData) : nat :=
  sum_list (map (fun e => iterations (count e)) (elements st)).

(** The names of the types of a list count. *)
Definition countTypeNames : list string :=
  ["uchar"; "uint8"; "char"; "int8"; "ushort"; "uint16"; "short"; "int16";
   "uint"; "uint32"; "int"; "int32"].

(** [property instanceof TypedListProperty]. *)
Definition isListProperty (p : Property) : bool :=
  match p with
  | TypedProperty _ _ _ => false
  | TypedListProperty _ _ _ _ _ => true
  end.

(** A value in the range of a type: an integer of its width and sign, or a
    bit pattern of its width. *)
Definition inRange (ty : PropertyType.t) (v : number) : Prop :=
  match ty, v with
  | PropertyType.char, Num (Int z) => -128 <= z <= 127
  | PropertyType.uchar, Num (Int z) => 0 <= z <= 255
  | PropertyType.short, Num (Int z) => -32768 <= z <= 32767
  | PropertyType.ushort, Num (Int z) => 0 <= z <= 65535
  | PropertyType.int, Num (Int z) => -2147483648 <= z <= 2147483647
  | PropertyType.uint, Num (Int z) => 0 <= z <= 4294967295
  | PropertyType.float, Flt (Binary32 bits) => 0 <= bits < 2 ^ 32
  | PropertyType.double, Flt (Binary64 bits) => 0 <= bits < 2 ^ 64
  | _, _ => False
  end.

Definition valuesInRange (p : Property) : Prop :=
  match p with
  | TypedProperty _ ty values => Forall (inRange ty) values
  | TypedListProperty _ ty _ data _ => Forall (inRange ty) data
  end.



(** A model that [save] writes so that [load] reads it back: the version is
    [1.0], the names are tokens that do not end the header, and the records
    are laid out as the ASCII decoder reads them. *)
Definition writable (st : PlyData) : Prop :=
  version (header st) = "1.0" /\ named st /\ Forall recorded (elements st) /\ unmarked st.

(** Two floating values that [fmt] writes alike. *)
Definition same_text (fmt : ieee -> string) (f g : ieee) : Prop := fmt f = fmt g.

(** The count of a list property takes one, two or four bytes. *)
Definition countWidth (p : Property) : Prop :=
  match p with
  | TypedProperty _ _ _ => True
  | TypedListProperty _ _ listCountBytes _ _ =>
      listCountBytes = 1 \/ listCountBytes = 2 \/ listCountBytes = 4
  end.

(** ** Sample files *)

Module Sample.

(** Two vertices of one [ushort] each, big-endian, and the same values
    little-endian. *)
Definition bigEndian_vertices : Buffer.t :=
  list_byte_of_string "ply
format binary_big_endian 1.0
element vertex 2
property ushort x
end_header
" ++ [x00; x01; x00; x02].

(** The big-endian file, cut after its first vertex. *)
Definition bigEndian_cut : Buffer.t :=
  list_byte_of_string "ply
format binary_big_endian 1.0
element vertex 2
property ushort x
end_header
" ++ [x00; x01].

Definition littleEndian_vertices : Buffer.t :=
  list_byte_of_string "ply
format binary_little_endian 1.0
element vertex 2
property ushort x
end_header
" ++ [x01; x00; x02; x00].

(** Two faces of one index each, big-endian. *)
Definition bigEndian_faces : Buffer.t :=
  list_byte_of_string "ply
format binary_big_endian 1.0
element face 2
property list uchar uchar vertex_indices
end_header
" ++ [x01; x05; x01; x06].

(** Two triangles, little-endian. *)
Definition littleEndian_faces : Buffer.t :=
  list_byte_of_string "ply
format binary_little_endian 1.0
element face 2
property list uchar uchar vertex_indices
end_header
" ++ [x03; x00; x01; x02; x03; x02; x01; x00].

(** An ASCII file whose second face has the count token [-1]. *)
Definition negative_count : Buffer.t :=
  list_byte_of_string "ply
format ascii 1.0
element face 2
property list uchar int vertex_indices
end_header
2 7 8
-1
".

(** A little-endian header that declares one vertex, with no byte after it. *)
Definition header_only : Buffer.t :=
  list_byte_of_string "ply
format binary_little_endian 1.0
element vertex 1
property uchar x
end_header
".

(** An element without properties, whose one record is an empty line, before
    two vertices. *)
Definition marker_blank : Buffer.t :=
  list_byte_of_string "ply
format ascii 1.0
element marker 1
element vertex 2
property int x
property int y
property int z
end_header

1 2 3
4 5 6
".

(** The same with a token on the record of the marker. *)
Definition marker_token : Buffer.t :=
  list_byte_of_string "ply
format ascii 1.0
element marker 1
element vertex 2
property int x
property int y
property int z
end_header
0
1 2 3
4 5 6
".

(** A face whose [vertex_indices] is a scalar and whose [vertex_index] is a
    list. *)
Definition scalar_vertex_indices : Buffer.t :=
  list_byte_of_string "ply
format ascii 1.0
element face 1
property int vertex_indices
property list uchar int vertex_index
end_header
9 3 0 1 2
".

(** A vertex whose colours are lists. *)
Definition list_colors : Buffer.t :=
  list_byte_of_string "ply
format ascii 1.0
element vertex 1
property list uchar uchar red
property list uchar uchar green
property list uchar uchar blue
end_header
1 255 1 0 1 0
".

(** A triangle with positions and no colours. *)
Definition triangle : Buffer.t :=
  list_byte_of_string "ply
format ascii 1.0
comment a triangle
element vertex 3
property int x
property int y
property int z
element face 1
property list uchar int vertex_indices
end_header
0 0 0
1 0 0
0 1 0
3 0 1 2
".

(** A header with a format that is none of the three. *)
Definition xml_format : Buffer.t :=
  list_byte_of_string "ply
format xml 1.0
element vertex 0
end_header
".

(** A file whose element lines have a count that is not a number and a
    negative count, before two lines that no element reads. *)
Definition uncounted : Buffer.t :=
  list_byte_of_string "ply
format ascii 1.0
element vertex many
property int x
element face -3
property int y
end_header
1
2
".

(** A big-endian file that declares no vertex and holds the byte of one. *)
Definition bigEndian_no_record : Buffer.t :=
  list_byte_of_string "ply
format binary_big_endian 1.0
element vertex 0
property uchar x
end_header
" ++ [x07].

(** One vertex, and a file that declares one vertex and has two records. *)
Definition one_vertex : Buffer.t :=
  list_byte_of_string "ply
format ascii 1.0
comment first
obj_info source a
element vertex 1
property int x
property int y
property int z
end_header
1 2 3
".

Definition two_records : Buffer.t :=
  list_byte_of_string "ply
format ascii 1.0
comment second
obj_info source b
element vertex 1
property int x
property int y
property int z
end_header
4 5 6
7 8 9
".

(** A header whose property has an unknown type, and one whose property
    comes before any element. *)
Definition unknown_type : Buffer.t :=
  list_byte_of_string "ply
format ascii 1.0
comment c
element vertex 1
property quad x
end_header
1
".

Definition property_first : Buffer.t :=
  list_byte_of_string "ply
format ascii 1.0
comment c
property list uchar int vertex_indices
element face 0
end_header
".

(** A square of two triangles with floating positions. *)
Definition square : Buffer.t :=
  list_byte_of_string "ply
format ascii 1.0
comment a square
obj_info made by hand
element vertex 4
property float x
property float y
property float z
element face 2
property list uchar int vertex_indices
end_header
0 0 0
1 0 0
1 1 0.5
0 1 0.5
3 0 1 2
3 0 2 3
".

(** A face whose list count is not a number, before a triangle. *)
Definition nan_count : Buffer.t :=
  list_byte_of_string "ply
format ascii 1.0
element face 2
property list uchar int vertex_indices
end_header
x
3 1 2 3
".

(** A header that ends with a comment that ends with [end_header]. *)
Definition comment_marker : Buffer.t :=
  list_byte_of_string "ply
format ascii 1.0
element vertex 1
property int x
property int y
property int z
comment end_header
1 2 3
".

(** A rendering of floating values that writes a literal as it was read. *)
Definition render (f : ieee) : string :=
  match f with
  | Literal token => if isToken token then token else "NaN"
  | Binary32 _ | Binary64 _ => "0"
  end.

Definition same_rendering (f g : ieee) : Prop := render f = render g.


(** Two vertices with positions and colours. *)
Definition colored : Buffer.t :=
  list_byte_of_string "ply
format ascii 1.0
element vertex 2
property float x
property float y
property float z
property uchar red
property uchar green
property uchar blue
end_header
0 0 0 255 0 0
1 0 0 0 128 255
".

End Sample.

(** * Properties *)

(** ** The loops *)

(** Whatever the outcome, every object is related to what the loop leaves of
    it, when one call relates them and untouched objects are related. *)
Lemma forEach_related {A T : Type} (R : A -> A -> Prop) (f : A -> T -> A * outcome T) :
  (forall x, R x x) ->
  (forall x s, R x (f x s).1) ->
  forall xs s, Forall2 R xs (forEach f xs s).1.
Proof.
  intros Hrefl Hf. induction xs as [|x xs IH]; intros s; simpl; [constructor|].
  pose proof (Hf x s) as Hx. destruct (f x s) as [x' [s'|e]]; simpl in *.
  - specialize (IH s'). destruct (forEach f xs s') as [xs'' r]; simpl in *.
    by constructor.
  - constructor; [done|]. clear -Hrefl. induction xs; constructor; auto.
Qed.

(** When the loop returns, every call in it returned. *)
Lemma forEach_returns {A T : Type} (P Q : A -> Prop) (f : A -> T -> A * outcome T) :
  (forall x s x' s', f x s = (x', Returns s') -> P x -> Q x') ->
  forall xs s xs' s', forEach f xs s = (xs', Returns s') ->
  Forall P xs -> Forall Q xs'.
Proof.
  intros Hf. induction xs as [|x xs IH]; intros s xs' s' Heq HP; simpl in Heq.
  - injection Heq as <- _. constructor.
  - apply Forall_cons in HP as [HPx HP].
    destruct (f x s) as [x' [s1|e]] eqn:Hfx; [|discriminate].
    destruct (forEach f xs s1) as [xs'' r] eqn:Hrest.
    injection Heq as <- ->. constructor; eauto.
Qed.

Lemma times_related {A T : Type} (R : A -> A -> Prop) (f : A -> T -> A * outcome T) :
  (forall x, R x x) ->
  (forall x y z, R x y -> R y z -> R x z) ->
  (forall x s, R x (f x s).1) ->
  forall n x s, R x (times n f x s).1.
Proof.
  intros Hrefl Htrans Hf. induction n as [|n IH]; intros x s; simpl; [done|].
  pose proof (Hf x s) as Hx. destruct (f x s) as [x' [s'|e]]; simpl in *; [|done].
  eapply Htrans; [exact Hx|apply IH].
Qed.

(** When the loop returns, it has run [n] times. *)
Lemma times_returns {A T : Type} (P : nat -> A -> Prop) (f : A -> T -> A * outcome T) :
  (forall k x s x' s', f x s = (x', Returns s') -> P k x -> P (S k) x') ->
  forall n k x s x' s', times n f x s = (x', Returns s') ->
  P k x -> P (n + k)%nat x'.
Proof.
  intros Hf. induction n as [|n IH]; intros k x s x' s' Heq HP; simpl in Heq.
  - injection Heq as <- _. done.
  - destruct (f x s) as [x1 [s1|e]] eqn:Hfx; [|discriminate].
    replace (S n + k)%nat with (n + S k)%nat by lia. eauto.
Qed.

(** ** Index sequences *)

Lemma nondecreasing_singleton a : nondecreasing [a].
Proof. intros i x y _ Hy. destruct i; discriminate. Qed.

Lemma nondecreasing_snoc l a b :
  nondecreasing l -> last l = Some a -> jsint_le a b -> nondecreasing (l ++ [b]).
Proof.
  intros Hl Hlast Hab i x y Hx Hy.
  destruct (decide (S i < length l)%nat) as [Hlt|Hge].
  - rewrite lookup_app_l in Hx by lia. rewrite lookup_app_l in Hy by lia. eauto.
  - assert (S i = length l) as Hi.
    { apply lookup_lt_Some in Hy. rewrite length_app in Hy. simpl in Hy. lia. }
    rewrite lookup_app_l in Hx by lia.
    rewrite lookup_app_r in Hy by lia.
    replace (S i - length l)%nat with 0%nat in Hy by lia. injection Hy as <-.
    rewrite last_lookup in Hlast. rewrite <- Hi in Hlast. simpl in Hlast.
    rewrite Hlast in Hx. by injection Hx as <-.
Qed.

Lemma unsignedLE_nonneg bs : 0 <= Buffer.unsignedLE bs.
Proof. induction bs as [|b bs IH]; simpl; lia. Qed.

Lemma readUint_nonneg w le buffer offset z :
  Buffer.readUint w le buffer offset = Returns z -> 0 <= z.
Proof.
  unfold Buffer.readUint. destruct (Buffer.bytesAt buffer offset w); [|discriminate].
  intros [= <-]. apply unsignedLE_nonneg.
Qed.

Lemma readCount_nonneg lcb le buffer offset z :
  Property.readCount lcb le buffer offset = Returns z -> 0 <= z.
Proof.
  unfold Property.readCount.
  repeat case_match; try discriminate; apply readUint_nonneg.
Qed.

Lemma readItems_length n buffer ty le : forall offset data data' offset',
  Property.readItems n buffer offset ty le data = (data', Returns offset') ->
  length data' = (length data + n)%nat.
Proof.
  induction n as [|n IH]; intros offset data data' offset' H; simpl in H.
  - injection H as <- _. lia.
  - destruct (Property.readValue buffer ty offset le); [|discriminate].
    apply IH in H. rewrite length_app in H. simpl in H. lia.
Qed.

Lemma parseItems_length n tokens ty : forall i data,
  length (Property.parseItems n tokens i ty data).1 = (length data + n)%nat.
Proof.
  induction n as [|n IH]; intros i data; simpl; [lia|].
  rewrite IH, length_app. simpl. lia.
Qed.

(** ** One call of a reader on one property *)

Lemma read_indexed le buffer k p offset p' offset' :
  Property.read le p buffer offset = (p', Returns offset') ->
  indexed k p -> indexed (S k) p'.
Proof.
  destruct p as [n ty vs|n ty lcb data starts]; simpl.
  - destruct (Property.readValue buffer ty offset le); intros [= <- _]; simpl.
    rewrite length_app. simpl. lia.
  - destruct (Property.readCount lcb le buffer offset) as [c|]; [|discriminate].
    destruct (Property.readItems _ _ _ _ _ _) as [data' [o|]]; intros [= <- _]; simpl.
    intros [H0 Hlen]. split.
    + rewrite lookup_app_l; [done|]. lia.
    + rewrite length_app. simpl. lia.
Qed.

Lemma read_sliced le buffer p offset p' offset' :
  Property.read le p buffer offset = (p', Returns offset') ->
  sliced p -> sliced p'.
Proof.
  destruct p as [n ty vs|n ty lcb data starts]; simpl.
  - destruct (Property.readValue buffer ty offset le); intros [= <- _]; done.
  - destruct (Property.readCount lcb le buffer offset) as [c|] eqn:Hc; [|discriminate].
    apply readCount_nonneg in Hc.
    destruct (Property.readItems _ _ _ _ _ _) as [data' [o|]] eqn:Hitems;
      intros [= <- _]; simpl.
    apply readItems_length in Hitems.
    intros [Hnd Hlast]. split.
    + eapply nondecreasing_snoc; [done..|]. simpl. lia.
    + rewrite last_snoc. f_equal. f_equal. rewrite Hitems. lia.
Qed.

Lemma parseNext_indexed tokens k p i :
  indexed k p -> indexed (S k) (Property.parseNext p tokens i).1.
Proof.
  destruct p as [n ty vs|n ty lcb data starts]; simpl.
  { rewrite length_app. simpl. lia. }
  destruct (Property.parseItems _ _ _ _ _) as [data' i']; simpl.
  intros [H0 Hlen]. split.
  - rewrite lookup_app_l; [done|]. lia.
  - rewrite length_app. simpl. lia.
Qed.

(** [parseNext] keeps the index non-decreasing when the count token is a
    non-negative integer. *)
Lemma parseNext_sliced tokens p i c :
  Text.parseInt (Text.ofToken (tokens !! i)) = Int c -> 0 <= c ->
  sliced p -> sliced (Property.parseNext p tokens i).1.
Proof.
  intros Hc Hpos. destruct p as [n ty vs|n ty lcb data starts]; simpl; [done|].
  rewrite Hc. simpl.
  pose proof (parseItems_length (Z.to_nat c) tokens ty (S i) data) as Hlen.
  destruct (Property.parseItems _ _ _ _ _) as [data' i']; simpl in *.
  intros [Hnd Hlast]. split.
  - eapply nondecreasing_snoc; [done..|]. simpl. lia.
  - rewrite last_snoc. f_equal. f_equal. rewrite Hlen. lia.
Qed.

Lemma fresh_indexed p : fresh p -> indexed 0 p.
Proof. destruct p; simpl; [by intros ->|]. by intros [_ ->]. Qed.

Lemma fresh_sliced p : fresh p -> sliced p.
Proof.
  destruct p; simpl; [done|]. intros [-> ->]. split; [apply nondecreasing_singleton|done].
Qed.

(** ** The model after the header *)

Lemma createPropertyWithType_fresh n t isList ct p :
  createPropertyWithType n t isList ct = Some p -> fresh p.
Proof.
  unfold createPropertyWithType.
  repeat case_match; try discriminate; intros [= <-]; simpl; auto.
Qed.

Lemma pushPropertyToLast_fresh st p :
  all_fresh st -> fresh p -> all_fresh (pushPropertyToLast st p).
Proof.
  intros Hst Hp. unfold all_fresh, pushPropertyToLast; simpl.
  apply Forall_alter; [done|]. intros e _ He. simpl.
  apply Forall_app. split; [done|]. by constructor.
Qed.

Lemma headerLine_fresh st line st' :
  headerLine st line = Next st' -> all_fresh st -> all_fresh st'.
Proof.
  unfold headerLine. intros H Hst.
  repeat case_match; try discriminate; injection H as <-; try done.
  - unfold all_fresh; simpl. apply Forall_app. split; [done|].
    constructor; [|done]. simpl. constructor.
  - apply pushPropertyToLast_fresh; [done|]. by eapply createPropertyWithType_fresh.
  - apply pushPropertyToLast_fresh; [done|]. by eapply createPropertyWithType_fresh.
Qed.

Lemma headerLines_fresh ls : forall st st',
  headerLines st ls = (true, st') -> all_fresh st -> all_fresh st'.
Proof.
  induction ls as [|l ls IH]; intros st st' H Hst; simpl in H.
  - by injection H as <-.
  - destruct (headerLine st l) eqn:Hl.
    + eapply IH; [done|]. by eapply headerLine_fresh.
    + by injection H as <-.
    + discriminate.
Qed.

Lemma parseHeader_fresh ls st :
  _parseHeader new_PlyData ls = (true, st) -> all_fresh st.
Proof.
  unfold _parseHeader. intros H.
  repeat case_match; try discriminate.
  eapply headerLines_fresh; [done|]. constructor.
Qed.

(** ** The decoders on a freshly declared model *)

Lemma readProperties_decoded le buffer k ps offset ps' offset' :
  readProperties le buffer ps offset = (ps', Returns offset') ->
  Forall (decoded k) ps -> Forall (decoded (S k)) ps'.
Proof.
  apply (forEach_returns (decoded k) (decoded (S k))).
  intros p s p' s' Hread [Hi Hs]. split.
  - by eapply read_indexed.
  - by eapply read_sliced.
Qed.

Lemma parseBinaryElement_decoded buffer e offset e' offset' :
  parseBinaryElement buffer e offset = (e', Returns offset') ->
  Forall fresh (properties e) ->
  count e' = count e /\ Forall (decoded (iterations (count e))) (properties e').
Proof.
  unfold parseBinaryElement.
  destruct (times _ _ _ _) as [ps r] eqn:Htimes. intros [= <- ->] Hfresh.
  split; [done|]. simpl.
  replace (iterations (count e)) with (iterations (count e) + 0)%nat by lia.
  eapply (times_returns (fun k ps => Forall (decoded k) ps)); [|exact Htimes|].
  - intros k ps0 s ps1 s1. apply readProperties_decoded.
  - eapply Forall_impl; [exact Hfresh|]. intros p Hp.
    split; [by apply fresh_indexed|by apply fresh_sliced].
Qed.

Lemma parseBinary_decoded st buffer st' offset' :
  _parseBinary st buffer = (st', Returns offset') ->
  all_fresh st ->
  Forall (fun e => Forall (decoded (iterations (count e))) (properties e)) (elements st').
Proof.
  unfold _parseBinary.
  destruct (forEach _ _ _) as [es r] eqn:Hes. intros [= <- ->] Hfresh. simpl.
  eapply (forEach_returns (fun e => Forall fresh (properties e))); [|exact Hes|exact Hfresh].
  intros e s e' s' He Hf. destruct (parseBinaryElement_decoded _ _ _ _ _ He Hf) as [-> ?]. done.
Qed.

Lemma forEach_total {A T : Type} (f : A -> T -> A * outcome T) :
  (forall x s, exists s', (f x s).2 = Returns s') ->
  forall xs s, exists s', (forEach f xs s).2 = Returns s'.
Proof.
  intros Hf. induction xs as [|x xs IH]; intros s; simpl; [by eexists|].
  destruct (Hf x s) as [s1 Hs1]. destruct (f x s) as [x' r]; simpl in Hs1; subst r.
  destruct (IH s1) as [s2 Hs2]. destruct (forEach f xs s1) as [xs'' r]; simpl in *.
  by eexists.
Qed.

Lemma parseProperties_indexed tokens k ps i :
  Forall (indexed k) ps -> Forall (indexed (S k)) (parseProperties tokens ps i).1.
Proof.
  intros Hps. unfold parseProperties.
  set (f := fun p i => let '(p', i') := Property.parseNext p tokens i in (p', Returns i')).
  destruct (forEach_total f) with (xs := ps) (s := i) as [s' Hs'].
  { intros p j. unfold f. destruct (Property.parseNext p tokens j). by eexists. }
  destruct (forEach f ps i) as [ps' r] eqn:Heq; simpl in *; subst r.
  eapply (forEach_returns (indexed k)); [|exact Heq|exact Hps].
  intros p s p' s1 Hp Hk. unfold f in Hp.
  pose proof (parseNext_indexed tokens k p s Hk) as H.
  destruct (Property.parseNext p tokens s). injection Hp as <- _. exact H.
Qed.

Lemma parseAsciiInstance_indexed ls k ps lineCount ps' lineCount' :
  parseAsciiInstance ls ps lineCount = (ps', Returns lineCount') ->
  Forall (indexed k) ps -> Forall (indexed (S k)) ps'.
Proof.
  unfold parseAsciiInstance. intros H Hps.
  destruct (if (length ps =? 0)%nat then _ else _) as [[l|] lc]; [|discriminate].
  pose proof (parseProperties_indexed (Text.split Text.DELIMITER l) k ps 0 Hps) as Hk.
  destruct (parseProperties _ ps 0) as [ps1 r]. by injection H as <- _.
Qed.

Lemma parseAsciiElement_indexed ls e lineCount e' lineCount' :
  parseAsciiElement ls e lineCount = (e', Returns lineCount') ->
  Forall fresh (properties e) ->
  count e' = count e /\ Forall (indexed (iterations (count e))) (properties e').
Proof.
  unfold parseAsciiElement.
  destruct (times _ _ _ _) as [ps r] eqn:Htimes. intros [= <- ->] Hfresh.
  split; [done|]. simpl.
  replace (iterations (count e)) with (iterations (count e) + 0)%nat by lia.
  eapply (times_returns (fun k ps => Forall (indexed k) ps)); [|exact Htimes|].
  - intros k ps0 s ps1 s1. apply parseAsciiInstance_indexed.
  - eapply Forall_impl; [exact Hfresh|]. intros p Hp. by apply fresh_indexed.
Qed.

Lemma parseAscii_indexed st ls st' lineCount' :
  _parseAscii st ls = (st', Returns lineCount') ->
  all_fresh st ->
  Forall (fun e => Forall (indexed (iterations (count e))) (properties e)) (elements st').
Proof.
  unfold _parseAscii.
  destruct (forEach _ _ _) as [es r] eqn:Hes. intros [= <- ->] Hfresh. simpl.
  eapply (forEach_returns (fun e => Forall fresh (properties e))); [|exact Hes|exact Hfresh].
  intros e s e' s' He Hf. destruct (parseAsciiElement_indexed _ _ _ _ _ He Hf) as [-> ?]. done.
Qed.

(** ** load *)

Lemma parseAscii_header st ls : header (_parseAscii st ls).1 = header st.
Proof. unfold _parseAscii. by destruct (forEach _ _ _). Qed.

Lemma parseBinary_header st buffer : header (_parseBinary st buffer).1 = header st.
Proof. unfold _parseBinary. by destruct (forEach _ _ _). Qed.

Lemma parseBinaryBigEndian_header st buffer :
  header (_parseBinaryBigEndian st buffer).1 = header st.
Proof. unfold _parseBinaryBigEndian. by destruct (forEach _ _ _). Qed.

(** [load] returns [true] exactly when the marker is found, the header parser
    returns [true], the format is one of the three and its decoder returns. *)
Lemma load_true st buf st' :
  load st buf = (true, st') <->
  exists head body st1,
    splitByEndHeader buf = Some (head, body)
    /\ _parseHeader st (asLines head) = (true, st1)
    /\ ((type (header st1) = "ascii"
         /\ exists n, _parseAscii st1 (asLines body) = (st', Returns n))
        \/ (type (header st1) = "binary_little_endian"
            /\ exists n, _parseBinary st1 body = (st', Returns n))
        \/ (type (header st1) = "binary_big_endian"
            /\ exists n, _parseBinaryBigEndian st1 body = (st', Returns n))).
Proof.
  unfold load. split.
  - destruct (splitByEndHeader buf) as [[head body]|]; [|discriminate].
    destruct (_parseHeader st (asLines head)) as [[] st1] eqn:Hh; [|discriminate].
    intros H. exists head, body, st1. split; [done|]. split; [done|].
    repeat case_bool_decide.
    + destruct (_parseAscii st1 (asLines body)) as [st2 [n|]]; [|discriminate].
      injection H as <-. left. eauto.
    + destruct (_parseBinary st1 body) as [st2 [n|]]; [|discriminate].
      injection H as <-. right; left. eauto.
    + destruct (_parseBinaryBigEndian st1 body) as [st2 [n|]]; [|discriminate].
      injection H as <-. right; right. eauto.
    + discriminate.
  - intros (head & body & st1 & -> & -> & H).
    destruct H as [[Hty [n Hn]]|[[Hty [n Hn]]|[Hty [n Hn]]]]; rewrite Hty; simpl.
    + by rewrite Hn.
    + by rewrite Hn.
    + by rewrite Hn.
Qed.

(** After a successful ASCII or little-endian load into a new model every
    property has been read [element.count] times. *)
Lemma load_indexed buf st :
  load new_PlyData buf = (true, st) ->
  type (header st) = "binary_little_endian" \/ type (header st) = "ascii" ->
  Forall (fun e => Forall (indexed (iterations (count e))) (properties e)) (elements st).
Proof.
  intros Hload Hty.
  apply load_true in Hload as (head & body & st1 & _ & Hh & Hbody).
  apply parseHeader_fresh in Hh.
  destruct Hbody as [[Hty1 [k Hk]]|[[Hty1 [k Hk]]|[Hty1 [k Hk]]]].
  - by eapply parseAscii_indexed.
  - eapply Forall_impl; [exact (parseBinary_decoded _ _ _ _ Hk Hh)|].
    intros e H. eapply Forall_impl; [exact H|]. by intros p [].
  - pose proof (parseBinaryBigEndian_header st1 body) as Hhd.
    rewrite Hk in Hhd; simpl in Hhd. rewrite Hhd, Hty1 in Hty.
    destruct Hty; discriminate.
Qed.

(** ** C2: the index of a list property after a load *)

(** C2, as the code has it.  After a successful ASCII or little-endian load
    into a new model, the [flattenedIndexStart] of every list property starts
    at 0 and has one entry more than the instance loop ran ([element.count]
    times, none for a count that is [NaN] or negative); after a little-endian
    load it is non-decreasing.  In an ASCII load every call of [parseNext]
    appends the length of [flattenedData] plus the parsed count token: when
    the token is a non-negative integer, an index that is non-decreasing and
    ends at the length of [flattenedData] is so again after the call. *)
Theorem flattenedIndexStart_after_load :
  (forall buf st e n ty lcb data starts,
      load new_PlyData buf = (true, st) ->
      type (header st) = "binary_little_endian" \/ type (header st) = "ascii" ->
      e ∈ elements st ->
      TypedListProperty n ty lcb data starts ∈ properties e ->
      starts !! 0%nat = Some (Int 0)
      /\ length starts = S (iterations (count e))
      /\ (type (header st) = "binary_little_endian" -> nondecreasing starts))
  /\ (forall tokens i c n ty lcb data starts,
        Text.parseInt (Text.ofToken (tokens !! i)) = Int c -> 0 <= c ->
        nondecreasing starts ->
        last starts = Some (Int (Z.of_nat (length data))) ->
        exists data' starts' i',
          Property.parseNext (TypedListProperty n ty lcb data starts) tokens i
          = (TypedListProperty n ty lcb data' starts', i')
          /\ nondecreasing starts'
          /\ last starts' = Some (Int (Z.of_nat (length data')))).
Proof.
  split.
  - intros buf st e n ty lcb data starts Hload Hty He Hp.
    apply load_true in Hload as (head & body & st1 & _ & Hh & Hbody).
    apply parseHeader_fresh in Hh.
    destruct Hbody as [[Hty1 [k Hk]]|[[Hty1 [k Hk]]|[Hty1 [k Hk]]]].
    + pose proof (parseAscii_header st1 (asLines body)) as Hhd.
      rewrite Hk in Hhd; simpl in Hhd.
      pose proof (parseAscii_indexed _ _ _ _ Hk Hh) as Hall.
      rewrite Forall_forall in Hall. specialize (Hall e He).
      rewrite Forall_forall in Hall. specialize (Hall _ Hp). destruct Hall as [H0 Hlen].
      split; [done|]. split; [done|]. rewrite Hhd, Hty1. discriminate.
    + pose proof (parseBinary_decoded _ _ _ _ Hk Hh) as Hall.
      rewrite Forall_forall in Hall. specialize (Hall e He).
      rewrite Forall_forall in Hall. specialize (Hall _ Hp).
      destruct Hall as [[H0 Hlen] [Hnd _]]. done.
    + pose proof (parseBinaryBigEndian_header st1 body) as Hhd.
      rewrite Hk in Hhd; simpl in Hhd. rewrite Hhd, Hty1 in Hty.
      destruct Hty; discriminate.
  - intros tokens i c n ty lcb data starts Hc Hpos Hnd Hlast.
    pose proof (parseNext_sliced tokens (TypedListProperty n ty lcb data starts) i c
                  Hc Hpos (conj Hnd Hlast)) as H.
    simpl in *. destruct (Property.parseItems _ _ _ _ _) as [data' i'].
    simpl in H. destruct H. eauto 10.
Qed.

Lemma flattenedIndexStart_after_load_witness :
  let st := (load new_PlyData Sample.littleEndian_faces).2 in
  let e := {| name := "face"; count := Int 2;
              properties := [TypedListProperty "vertex_indices" PropertyType.uchar 1
                               [Num (Int 0); Num (Int 1); Num (Int 2);
                                Num (Int 2); Num (Int 1); Num (Int 0)]
                               [Int 0; Int 3; Int 6]] |} in
  load new_PlyData Sample.littleEndian_faces = (true, st)
  /\ e ∈ elements st
  /\ [Int 0; Int 3; Int 6] !! 0%nat = Some (Int 0)
  /\ length [Int 0; Int 3; Int 6] = S (iterations (count e))
  /\ (type (header st) = "binary_little_endian" -> nondecreasing [Int 0; Int 3; Int 6]).
Proof.
  intros st e.
  assert (load new_PlyData Sample.littleEndian_faces = (true, st)) as Hload
    by (vm_compute; reflexivity).
  assert (e ∈ elements st) as He by (vm_compute; apply list_elem_of_here).
  split; [exact Hload|]. split; [exact He|].
  apply (proj1 flattenedIndexStart_after_load Sample.littleEndian_faces st e
           "vertex_indices" PropertyType.uchar 1
           [Num (Int 0); Num (Int 1); Num (Int 2); Num (Int 2); Num (Int 1); Num (Int 0)]
           [Int 0; Int 3; Int 6] Hload).
  - left. vm_compute. reflexivity.
  - exact He.
  - simpl. apply list_elem_of_here.
Defined.

(** C2 as stated fails: an ASCII load with a negative list count succeeds and
    leaves a decreasing index, and a big-endian load of two faces leaves an
    index of two entries. *)
Lemma flattenedIndexStart_counterexample :
  load new_PlyData Sample.negative_count
  = (true,
     {| header := {| type := "ascii"; version := "1.0";
                     comments := []; objInfoComments := [] |};
        elements :=
          [{| name := "face"; count := Int 2;
              properties := [TypedListProperty "vertex_indices" PropertyType.int 1
                               [Num (Int 7); Num (Int 8)] [Int 0; Int 2; Int 1]] |}] |})
  /\ ~ nondecreasing [Int 0; Int 2; Int 1]
  /\ load new_PlyData Sample.bigEndian_faces
     = (true,
        {| header := {| type := "binary_big_endian"; version := "1.0";
                        comments := []; objInfoComments := [] |};
           elements :=
             [{| name := "face"; count := Int 2;
                 properties := [TypedListProperty "vertex_indices" PropertyType.uchar 1
                                  [Num (Int 5)] [Int 0; Int 1]] |}] |})
  /\ length [Int 0; Int 1] <> S (iterations (Int 2)).
Proof.
  split; [vm_compute; reflexivity|]. split.
  - intros H. specialize (H 1%nat (Int 2) (Int 1) eq_refl eq_refl). simpl in H. lia.
  - split; [vm_compute; reflexivity|]. simpl. lia.
Qed.

(** ** C1: the big-endian decoder *)

Lemma parseBinaryBigEndianElement_decoded buffer e offset e' offset' :
  parseBinaryBigEndianElement buffer e offset = (e', Returns offset') ->
  Forall fresh (properties e) ->
  count e' = count e /\ Forall (decoded 1) (properties e').
Proof.
  unfold parseBinaryBigEndianElement.
  destruct (readProperties _ _ _ _) as [ps r] eqn:Hps. intros [= <- ->] Hfresh.
  split; [done|]. simpl.
  eapply readProperties_decoded; [exact Hps|].
  eapply Forall_impl; [exact Hfresh|]. intros p Hp.
  split; [by apply fresh_indexed|by apply fresh_sliced].
Qed.

(** C1 fails on the code.  At two big-endian vertices of one [ushort] each the
    big-endian decoder returns with one value for [x], where the little-endian
    decoder of the byte-swapped buffer returns with the two.  In general a
    big-endian decoding that returns has read one instance of every element,
    whatever its count, and a little-endian one [element.count] instances. *)
Theorem bigEndian_decodes_one_instance :
  load new_PlyData Sample.bigEndian_vertices
  = (true,
     {| header := {| type := "binary_big_endian"; version := "1.0";
                     comments := []; objInfoComments := [] |};
        elements :=
          [{| name := "vertex"; count := Int 2;
              properties := [TypedProperty "x" PropertyType.ushort [Num (Int 1)]] |}] |})
  /\ load new_PlyData Sample.littleEndian_vertices
     = (true,
        {| header := {| type := "binary_little_endian"; version := "1.0";
                        comments := []; objInfoComments := [] |};
           elements :=
             [{| name := "vertex"; count := Int 2;
                 properties := [TypedProperty "x" PropertyType.ushort
                                  [Num (Int 1); Num (Int 2)]] |}] |})
  /\ (forall st buffer st' offset,
        all_fresh st ->
        _parseBinaryBigEndian st buffer = (st', Returns offset) ->
        Forall (fun e => Forall (indexed 1) (properties e)) (elements st'))
  /\ (forall st buffer st' offset,
        all_fresh st ->
        _parseBinary st buffer = (st', Returns offset) ->
        Forall (fun e => Forall (indexed (iterations (count e))) (properties e))
          (elements st')).
Proof.
  split; [vm_compute; reflexivity|]. split; [vm_compute; reflexivity|]. split.
  - intros st buffer st' offset Hfresh. unfold _parseBinaryBigEndian.
    destruct (forEach _ _ _) as [es r] eqn:Hes. intros [= <- ->]. simpl.
    eapply (forEach_returns (fun e => Forall fresh (properties e))); [|exact Hes|exact Hfresh].
    intros e s e' s' He Hf.
    destruct (parseBinaryBigEndianElement_decoded _ _ _ _ _ He Hf) as [_ H].
    eapply Forall_impl; [exact H|]. by intros p [].
  - intros st buffer st' offset Hfresh Hdec.
    eapply Forall_impl; [exact (parseBinary_decoded _ _ _ _ Hdec Hfresh)|].
    intros e H. eapply Forall_impl; [exact H|]. by intros p [].
Qed.

(** ** C3: the result of load *)

(** C3 fails on the code.  When nothing follows [end_header],
    [data.slice(headerLength - data.length)] is [data.slice(0)], the whole file:
    the little-endian decoder reads the vertex that the header declares from
    the first byte of the header, the [p] of [ply], and [load] returns [true]
    on a body that is not there.  A big-endian body cut after its first
    instance is accepted too, since the decoder reads no other. *)
Theorem load_true_without_body :
  splitByEndHeader Sample.header_only = Some (Sample.header_only, Sample.header_only)
  /\ load new_PlyData Sample.header_only
     = (true,
        {| header := {| type := "binary_little_endian"; version := "1.0";
                        comments := []; objInfoComments := [] |};
           elements :=
             [{| name := "vertex"; count := Int 1;
                 properties := [TypedProperty "x" PropertyType.uchar [Num (Int 112)]] |}] |})
  /\ (load new_PlyData Sample.bigEndian_cut).1 = true.
Proof. repeat split; vm_compute; reflexivity. Qed.

(** ** C5: vertex positions *)



Lemma findElement_lookup st n e el :
  findElement st n = Some (e, el) -> elements st !! e = Some el.
Proof. unfold findElement. intros H. by apply list_find_Some in H as [? _]. Qed.




(** ** C7: format and version *)

Lemma headerLine_format st line st' :
  headerLine st line = Next st' ->
  type (header st') = type (header st) /\ version (header st') = version (header st).
Proof.
  unfold headerLine. intros H.
  repeat case_match; try discriminate; by injection H as <-.
Qed.

Lemma headerLines_format ls : forall st st',
  headerLines st ls = (true, st') ->
  type (header st') = type (header st) /\ version (header st') = version (header st).
Proof.
  induction ls as [|l ls IH]; intros st st' H; simpl in H.
  - by injection H as <-.
  - destruct (headerLine st l) eqn:Hl.
    + apply headerLine_format in Hl as [<- <-]. by apply IH.
    + by injection H as <-.
    + discriminate.
Qed.

(** The second line of a header that parses is [format <type> 1.0], and the
    model keeps that type. *)
Lemma parseHeader_format st ls st1 :
  _parseHeader st ls = (true, st1) ->
  exists line1,
    ls !! 1%nat = Some line1
    /\ Text.split Text.DELIMITER line1 = ["format"; type (header st1); "1.0"].
Proof.
  unfold _parseHeader. intros H.
  destruct (ls !! 0%nat) as [line0|]; [|discriminate].
  case_bool_decide; [discriminate|].
  destruct (ls !! 1%nat) as [line1|]; [|discriminate].
  exists line1. split; [done|].
  destruct (Text.split Text.DELIMITER line1) as [|f [|t1 [|t2 [|]]]]; try discriminate.
  case_bool_decide as Hf; [discriminate|].
  case_bool_decide as Hv; [discriminate|].
  simpl in Hv. subst f t2.
  by apply headerLines_format in H as [-> _].
Qed.

(** C7.  When the second line of the header has a second token that is none of
    [ascii], [binary_little_endian], [binary_big_endian], or a third token
    that is not [1.0], [load] returns [false]. *)
Theorem load_rejects_format st buf head body line1 :
  splitByEndHeader buf = Some (head, body) ->
  asLines head !! 1%nat = Some line1 ->
  Text.split Text.DELIMITER line1 !! 1%nat
    ∉ [Some "ascii"; Some "binary_little_endian"; Some "binary_big_endian"]
  \/ Text.split Text.DELIMITER line1 !! 2%nat <> Some "1.0" ->
  (load st buf).1 = false.
Proof.
  intros Hsplit Hline Hbad.
  destruct (load st buf) as [[] st'] eqn:Hload; [exfalso|done].
  apply load_true in Hload as (head' & body' & st1 & Hs & Hh & Hbody).
  rewrite Hsplit in Hs. injection Hs as <- <-.
  apply parseHeader_format in Hh as (l & Hl & Htok).
  rewrite Hline in Hl. injection Hl as <-. rewrite Htok in Hbad. simpl in Hbad.
  destruct Hbad as [Hbad|Hbad]; [|done]. apply Hbad.
  destruct Hbody as [[-> _]|[[-> _]|[-> _]]];
    repeat first [apply list_elem_of_here | apply list_elem_of_further].
Qed.

Lemma load_rejects_format_witness :
  splitByEndHeader Sample.xml_format = Some (Sample.xml_format, Sample.xml_format)
  /\ asLines Sample.xml_format !! 1%nat = Some "format xml 1.0"
  /\ (load new_PlyData Sample.xml_format).1 = false.
Proof.
  assert (splitByEndHeader Sample.xml_format
          = Some (Sample.xml_format, Sample.xml_format)) as Hs
    by (vm_compute; reflexivity).
  assert (asLines Sample.xml_format !! 1%nat = Some "format xml 1.0") as Hl
    by (vm_compute; reflexivity).
  split; [exact Hs|]. split; [exact Hl|].
  apply (load_rejects_format new_PlyData _ _ _ _ Hs Hl).
  left. simpl. rewrite !not_elem_of_cons. repeat split; [discriminate..|apply not_elem_of_nil].
Defined.

(** ** C10: the count of an element *)

Lemma startsWith_app s p : Text.startsWith s p = true -> exists r, s = p +:+ r.
Proof.
  unfold Text.startsWith. revert s. induction p as [|c p IH]; intros s H.
  - by exists s.
  - destruct s as [|d s]; [discriminate|]. cbn [String.prefix] in H.
    destruct (ascii_dec c d) as [<-|]; [|discriminate].
    destruct (IH s H) as [r ->]. by exists r.
Qed.

Lemma startsWith_element line :
  Text.startsWith line "element" = true ->
  bool_decide (line = "") = false
  /\ Text.startsWith line "comment" = false
  /\ Text.startsWith line "obj_info" = false.
Proof.
  intros H. apply startsWith_app in H as [r ->].
  split; [by apply bool_decide_eq_false_2|]. split; vm_compute; reflexivity.
Qed.

Lemma iterations_notPositive c : notPositive c -> iterations c = 0%nat.
Proof. destruct c; simpl; [lia|done]. Qed.

(** C10.  A line that starts with [element] and has three tokens is accepted
    whatever its third token holds: it leaves the header as it is and the
    elements followed by one more, whose name is the second token and whose
    count is [parseInt] of the third, so [NaN] for [many] and -3 for [-3].
    The ASCII and the little-endian decoder run the instance loop of an
    element whose count is [NaN], zero or negative no time: they leave the
    element, the line count and the offset as they are, and such an element
    is the same after [_parseAscii] and [_parseBinary] as before.  The
    big-endian decoder has no instance loop: whatever the count, it reads one
    value into a scalar property, and the file of [Sample.bigEndian_no_record],
    which declares no vertex, loads with one value read. *)
Theorem element_count_not_validated :
  (forall st line t0 t1 t2,
     Text.startsWith line "element" = true ->
     Text.split Text.DELIMITER line = [t0; t1; t2] ->
     exists st',
       headerLine st line = Next st'
       /\ header st' = header st
       /\ elements st'
          = elements st ++ [{| name := t1; count := Text.parseInt t2; properties := [] |}])
  /\ (forall e, notPositive (count e) ->
        (forall ls lineCount, parseAsciiElement ls e lineCount = (e, Returns lineCount))
        /\ (forall buffer offset, parseBinaryElement buffer e offset = (e, Returns offset)))
  /\ (forall st ls,
        Forall2 (fun e e' => notPositive (count e) -> e' = e)
          (elements st) (elements (_parseAscii st ls).1))
  /\ (forall st buffer,
        Forall2 (fun e e' => notPositive (count e) -> e' = e)
          (elements st) (elements (_parseBinary st buffer).1))
  /\ Text.parseInt "many" = NaN
  /\ Text.parseInt "-3" = Int (-3)
  /\ (load new_PlyData Sample.uncounted).2
     = {| header := {| type := "ascii"; version := "1.0"; comments := [];
                       objInfoComments := [] |};
          elements := [{| name := "vertex"; count := NaN;
                          properties := [TypedProperty "x" PropertyType.int []] |};
                       {| name := "face"; count := Int (-3);
                          properties := [TypedProperty "y" PropertyType.int []] |}] |}
  /\ (load new_PlyData Sample.uncounted).1 = true
  /\ (forall n c x ty vs buffer offset v,
        Property.readValue buffer ty offset false = Returns v ->
        parseBinaryBigEndianElement buffer
          {| name := n; count := c; properties := [TypedProperty x ty vs] |} offset
        = ({| name := n; count := c; properties := [TypedProperty x ty (vs ++ [v])] |},
           Returns (offset + Property.getNumByte ty)%nat))
  /\ load new_PlyData Sample.bigEndian_no_record
     = (true,
        {| header := {| type := "binary_big_endian"; version := "1.0"; comments := [];
                        objInfoComments := [] |};
           elements := [{| name := "vertex"; count := Int 0;
                           properties := [TypedProperty "x" PropertyType.uchar
                                            [Num (Int 7)]] |}] |}).
Proof.
  assert (forall e, notPositive (count e) ->
            (forall ls lineCount, parseAsciiElement ls e lineCount = (e, Returns lineCount))
            /\ (forall buffer offset, parseBinaryElement buffer e offset = (e, Returns offset)))
    as Hskip.
  { intros e He. apply iterations_notPositive in He.
    unfold parseAsciiElement, parseBinaryElement. rewrite He. simpl. by destruct e. }
  split; [|split; [exact Hskip|split; [|split]]].
  - intros st line t0 t1 t2 Hstart Htok. unfold headerLine.
    destruct (startsWith_element _ Hstart) as (-> & -> & ->). rewrite Hstart, Htok.
    by eexists.
  - intros st ls. unfold _parseAscii.
    pose proof (forEach_related (fun e e' => notPositive (count e) -> e' = e)
                  (parseAsciiElement ls)) as H.
    destruct (forEach _ (elements st) 0%nat) as [es r] eqn:Hes.
    change es with ((es, r).1). rewrite <- Hes. apply H; [done|].
    intros e s He. by rewrite (proj1 (Hskip e He)).
  - intros st buffer. unfold _parseBinary.
    pose proof (forEach_related (fun e e' => notPositive (count e) -> e' = e)
                  (parseBinaryElement buffer)) as H.
    destruct (forEach _ (elements st) 0%nat) as [es r] eqn:Hes.
    change es with ((es, r).1). rewrite <- Hes. apply H; [done|].
    intros e s He. by rewrite (proj2 (Hskip e He)).
  - split; [vm_compute; reflexivity|]. split; [vm_compute; reflexivity|].
    split; [vm_compute; reflexivity|]. split; [vm_compute; reflexivity|].
    split; [|vm_compute; reflexivity].
    intros n c x ty vs buffer offset v Hv.
    unfold parseBinaryBigEndianElement, readProperties. cbn [properties forEach Property.read].
    by rewrite Hv.
Qed.

(** ** C9: a second load *)

Lemma grows_refl {A : Type} (R : A -> A -> Prop) l :
  (forall x, R x x) -> grows R l l.
Proof.
  intros HR. exists l, []. split; [by rewrite app_nil_r|].
  induction l; constructor; auto.
Qed.

Lemma Forall2_grows {A : Type} (R : A -> A -> Prop) l l' :
  Forall2 R l l' -> grows R l l'.
Proof. intros H. exists l', []. by rewrite app_nil_r. Qed.

Lemma Forall2_compose {A : Type} (R : A -> A -> Prop) :
  (forall x y z, R x y -> R y z -> R x z) ->
  forall l1 l2 l3, Forall2 R l1 l2 -> Forall2 R l2 l3 -> Forall2 R l1 l3.
Proof.
  intros HR l1 l2 l3 H12. revert l3.
  induction H12; intros l3 H23; inversion H23; subst; constructor; eauto.
Qed.

Lemma grows_trans {A : Type} (R : A -> A -> Prop) l1 l2 l3 :
  (forall x y z, R x y -> R y z -> R x z) ->
  grows R l1 l2 -> grows R l2 l3 -> grows R l1 l3.
Proof.
  intros HR (k & new & -> & Hk) (k' & new' & -> & Hk').
  apply Forall2_app_inv_l in Hk' as (k1 & k2 & H1 & H2 & ->).
  exists k1, (k2 ++ new'). split; [by rewrite app_assoc|].
  by eapply Forall2_compose.
Qed.

Lemma Property_extends_refl p : Property_extends p p.
Proof. destruct p; simpl; auto. Qed.

Lemma Property_extends_trans p q r :
  Property_extends p q -> Property_extends q r -> Property_extends p r.
Proof.
  destruct p, q, r; simpl; try done.
  - intros (-> & -> & H1) (-> & -> & H2). repeat split. by etrans.
  - intros (-> & -> & -> & H1 & H1') (-> & -> & -> & H2 & H2').
    repeat split; by etrans.
Qed.

Lemma Element_extends_refl e : Element_extends e e.
Proof. repeat split. apply grows_refl, Property_extends_refl. Qed.

Lemma Element_extends_trans e f g :
  Element_extends e f -> Element_extends f g -> Element_extends e g.
Proof.
  intros (Hn & Hc & H1) (Hn' & Hc' & H2). repeat split; [congruence..|].
  eapply grows_trans; [apply Property_extends_trans|done..].
Qed.

Lemma PlyData_extends_refl st : PlyData_extends st st.
Proof. repeat split; [done..|]. apply grows_refl, Element_extends_refl. Qed.

Lemma PlyData_extends_trans s1 s2 s3 :
  PlyData_extends s1 s2 -> PlyData_extends s2 s3 -> PlyData_extends s1 s3.
Proof.
  intros (H1 & H2 & H3) (H1' & H2' & H3'). repeat split; [by etrans..|].
  eapply grows_trans; [apply Element_extends_trans|done..].
Qed.

Lemma parseItems_prefix n tokens ty : forall i data,
  data `prefix_of` (Property.parseItems n tokens i ty data).1.
Proof.
  induction n as [|n IH]; intros i data; simpl; [done|].
  etrans; [|apply IH]. by apply prefix_app_r.
Qed.

Lemma readItems_prefix n buffer ty le : forall offset data,
  data `prefix_of` (Property.readItems n buffer offset ty le data).1.
Proof.
  induction n as [|n IH]; intros offset data; simpl; [done|].
  destruct (Property.readValue buffer ty offset le); [|done].
  etrans; [|apply IH]. by apply prefix_app_r.
Qed.

Lemma parseNext_extends tokens p i :
  Property_extends p (Property.parseNext p tokens i).1.
Proof.
  destruct p as [n ty vs|n ty lcb data starts]; simpl.
  - repeat split. by apply prefix_app_r.
  - pose proof (parseItems_prefix (iterations (Text.parseInt (Text.ofToken (tokens !! i))))
                  tokens ty (S i) data) as H.
    destruct (Property.parseItems _ _ _ _ _) as [data' i']; simpl in *.
    repeat split; [done|]. by apply prefix_app_r.
Qed.

Lemma read_extends le buffer p offset :
  Property_extends p (Property.read le p buffer offset).1.
Proof.
  destruct p as [n ty vs|n ty lcb data starts]; simpl.
  - destruct (Property.readValue buffer ty offset le); simpl; repeat split; [|done].
    by apply prefix_app_r.
  - destruct (Property.readCount lcb le buffer offset) as [c|]; simpl; [|by repeat split].
    pose proof (readItems_prefix (Z.to_nat c) buffer ty le (offset + Z.to_nat lcb) data) as H.
    destruct (Property.readItems _ _ _ _ _ _) as [data' [o|]]; simpl in *;
      repeat split; try done. by apply prefix_app_r.
Qed.

Lemma Forall2_Property_extends_refl ps : Forall2 Property_extends ps ps.
Proof. induction ps; constructor; auto using Property_extends_refl. Qed.

Lemma readProperties_extends le buffer ps offset :
  Forall2 Property_extends ps (readProperties le buffer ps offset).1.
Proof.
  apply (forEach_related Property_extends); [apply Property_extends_refl|].
  intros p s. apply read_extends.
Qed.

Lemma parseAsciiInstance_extends ls ps lineCount :
  Forall2 Property_extends ps (parseAsciiInstance ls ps lineCount).1.
Proof.
  unfold parseAsciiInstance.
  destruct (if (length ps =? 0)%nat then _ else _) as [[l|] lc]; simpl;
    [|apply Forall2_Property_extends_refl].
  pose proof (forEach_related Property_extends
    (fun p i => let '(p', i') := Property.parseNext p (Text.split Text.DELIMITER l) i
                in (p', Returns i'))) as H.
  unfold parseProperties. destruct (forEach _ ps 0%nat) as [ps' r] eqn:Heq.
  change ps' with ((ps', r).1). rewrite <- Heq. apply H; [apply Property_extends_refl|].
  intros p s. pose proof (parseNext_extends (Text.split Text.DELIMITER l) p s) as Hp.
  by destruct (Property.parseNext _ _ _).
Qed.

Lemma times_properties_extends n f (ps : list Property) (s : nat) :
  (forall ps s, Forall2 Property_extends ps (f ps s).1) ->
  Forall2 Property_extends ps (times n f ps s).1.
Proof.
  intros Hf. apply (times_related (Forall2 Property_extends)); [| |done].
  - apply Forall2_Property_extends_refl.
  - apply Forall2_compose, Property_extends_trans.
Qed.

Lemma parseAsciiElement_extends ls e lineCount :
  Element_extends e (parseAsciiElement ls e lineCount).1.
Proof.
  unfold parseAsciiElement.
  pose proof (times_properties_extends (iterations (count e)) (parseAsciiInstance ls)
                (properties e) lineCount (parseAsciiInstance_extends ls)) as H.
  destruct (times _ _ _ _) as [ps r]. repeat split. by apply Forall2_grows.
Qed.

Lemma parseBinaryElement_extends buffer e offset :
  Element_extends e (parseBinaryElement buffer e offset).1.
Proof.
  unfold parseBinaryElement.
  pose proof (times_properties_extends (iterations (count e)) (readProperties true buffer)
                (properties e) offset (readProperties_extends true buffer)) as H.
  destruct (times _ _ _ _) as [ps r]. repeat split. by apply Forall2_grows.
Qed.

Lemma parseBinaryBigEndianElement_extends buffer e offset :
  Element_extends e (parseBinaryBigEndianElement buffer e offset).1.
Proof.
  unfold parseBinaryBigEndianElement.
  pose proof (readProperties_extends false buffer (properties e) offset) as H.
  destruct (readProperties _ _ _ _) as [ps r]. repeat split. by apply Forall2_grows.
Qed.

(** Whatever its outcome, a decoder leaves every element in place with values
    pushed at most. *)
Lemma decoders_extend st :
  (forall ls, Forall2 Element_extends (elements st) (elements (_parseAscii st ls).1))
  /\ (forall buffer,
        Forall2 Element_extends (elements st) (elements (_parseBinary st buffer).1))
  /\ (forall buffer,
        Forall2 Element_extends (elements st) (elements (_parseBinaryBigEndian st buffer).1)).
Proof.
  split; [|split].
  - intros ls. unfold _parseAscii.
    pose proof (forEach_related Element_extends (parseAsciiElement ls)
                  Element_extends_refl (parseAsciiElement_extends ls) (elements st) 0%nat).
    by destruct (forEach _ _ _).
  - intros buffer. unfold _parseBinary.
    pose proof (forEach_related Element_extends (parseBinaryElement buffer)
                  Element_extends_refl (parseBinaryElement_extends buffer) (elements st) 0%nat).
    by destruct (forEach _ _ _).
  - intros buffer. unfold _parseBinaryBigEndian.
    pose proof (forEach_related Element_extends (parseBinaryBigEndianElement buffer)
                  Element_extends_refl (parseBinaryBigEndianElement_extends buffer)
                  (elements st) 0%nat).
    by destruct (forEach _ _ _).
Qed.

Lemma headerLine_extends st line st' :
  headerLine st line = Next st' -> PlyData_extends st st'.
Proof.
  unfold headerLine. intros H.
  assert (forall p, PlyData_extends st (pushPropertyToLast st p)) as Hpush.
  { intros p. repeat split; [done..|]. apply Forall2_grows. simpl.
    apply Forall2_alter_r; [|].
    - clear. induction (elements st); constructor; auto using Element_extends_refl.
    - intros e e' _ _ (Hn & Hc & Hg). repeat split; [done..|]. simpl.
      destruct Hg as (k & new & -> & Hk). exists k, (new ++ [p]).
      split; [by rewrite app_assoc|done]. }
  repeat case_match; try discriminate; injection H as <-;
    try apply PlyData_extends_refl; try apply Hpush.
  - repeat split; simpl; [by apply prefix_app_r|done|].
    apply grows_refl, Element_extends_refl.
  - repeat split; simpl; [done|by apply prefix_app_r|].
    apply grows_refl, Element_extends_refl.
  - repeat split; simpl; [done..|]. eexists _, _. split; [done|].
    clear. induction (elements st); constructor; auto using Element_extends_refl.
Qed.

Lemma headerLines_extends ls : forall st,
  PlyData_extends st (headerLines st ls).2.
Proof.
  induction ls as [|l ls IH]; intros st; simpl; [apply PlyData_extends_refl|].
  destruct (headerLine st l) eqn:Hl; simpl; try apply PlyData_extends_refl.
  eapply PlyData_extends_trans; [by eapply headerLine_extends|apply IH].
Qed.

Lemma parseHeader_extends st ls : PlyData_extends st (_parseHeader st ls).2.
Proof.
  unfold _parseHeader.
  assert (forall t1 t2, PlyData_extends st (setFormat st t1 t2)) as Hset.
  { intros. repeat split; simpl; [done..|]. apply grows_refl, Element_extends_refl. }
  destruct (ls !! 0%nat) as [line0|]; [|apply PlyData_extends_refl].
  case_bool_decide; [apply PlyData_extends_refl|].
  destruct (ls !! 1%nat) as [line1|]; [|apply PlyData_extends_refl].
  destruct (Text.split Text.DELIMITER line1) as [|f [|t1 [|t2 [|]]]];
    try apply PlyData_extends_refl.
  repeat case_bool_decide; try apply Hset.
  eapply PlyData_extends_trans; [apply Hset|apply headerLines_extends].
Qed.

Lemma decoded_extends st es :
  Forall2 Element_extends (elements st) es -> PlyData_extends st (withElements st es).
Proof. intros H. repeat split; simpl; [done..|]. by apply Forall2_grows. Qed.

Lemma load_extends st buf : PlyData_extends st (load st buf).2.
Proof.
  unfold load.
  destruct (splitByEndHeader buf) as [[head body]|]; [|apply PlyData_extends_refl].
  pose proof (parseHeader_extends st (asLines head)) as Hh.
  destruct (_parseHeader st (asLines head)) as [[] st1]; simpl in *; [|done].
  destruct (decoders_extend st1) as (Ha & Hb & Hc).
  eapply PlyData_extends_trans; [exact Hh|].
  repeat case_bool_decide.
  - specialize (Ha (asLines body)). unfold _parseAscii in *.
    destruct (forEach _ _ _) as [es r]; simpl in *. by apply decoded_extends.
  - specialize (Hb body). unfold _parseBinary in *.
    destruct (forEach _ _ _) as [es r]; simpl in *. by apply decoded_extends.
  - specialize (Hc body). unfold _parseBinaryBigEndian in *.
    destruct (forEach _ _ _) as [es r]; simpl in *. by apply decoded_extends.
  - apply PlyData_extends_refl.
Qed.

Lemma startsWith_comment line :
  Text.startsWith line "comment" = true ->
  Text.startsWith line "obj_info" = false
  /\ Text.startsWith line "element" = false
  /\ Text.startsWith line "end_header" = false.
Proof.
  intros H. apply startsWith_app in H as [r ->]. repeat split; vm_compute; reflexivity.
Qed.

Lemma startsWith_obj_info line :
  Text.startsWith line "obj_info" = true ->
  Text.startsWith line "element" = false
  /\ Text.startsWith line "end_header" = false.
Proof.
  intros H. apply startsWith_app in H as [r ->]. repeat split; vm_compute; reflexivity.
Qed.

Lemma headerLine_stops st line :
  headerLine st line = Break -> Text.startsWith line "end_header" = true.
Proof. unfold headerLine. intros H. by repeat case_match. Qed.

Lemma Forall2_Element_extends_refl es : Forall2 Element_extends es es.
Proof. induction es; constructor; auto using Element_extends_refl. Qed.

Lemma pushPropertyToLast_elements st p :
  Forall2 Element_extends (elements st) (elements (pushPropertyToLast st p)).
Proof.
  unfold pushPropertyToLast. simpl. apply Forall2_alter_r.
  - apply Forall2_Element_extends_refl.
  - intros e e' _ _ (Hn & Hc & Hg). repeat split; [done..|]. simpl.
    destruct Hg as (k & new & -> & Hk). exists k, (new ++ [p]).
    split; [by rewrite app_assoc|done].
Qed.

(** What one accepted line appends: a comment, an obj_info comment, an
    element, or a property of the last element. *)
Lemma headerLine_appends st line st' :
  headerLine st line = Next st' ->
  Text.startsWith line "end_header" = false
  /\ comments (header st')
     = comments (header st)
       ++ (if Text.startsWith line "comment" then [Text.substring 8 line] else [])
  /\ objInfoComments (header st')
     = objInfoComments (header st)
       ++ (if Text.startsWith line "obj_info" then [Text.substring 9 line] else [])
  /\ exists old new,
       elements st' = old ++ new
       /\ Forall2 Element_extends (elements st) old
       /\ Forall2 declares (if Text.startsWith line "element" then [line] else []) new.
Proof.
  assert (forall s, header s = header st ->
            Forall2 Element_extends (elements st) (elements s) ->
            comments (header s) = comments (header st) ++ []
            /\ objInfoComments (header s) = objInfoComments (header st) ++ []
            /\ exists old new,
                 elements s = old ++ new
                 /\ Forall2 Element_extends (elements st) old
                 /\ Forall2 declares [] new) as Hkept.
  { intros s -> Hs. rewrite !app_nil_r. repeat split.
    exists (elements s), []. by rewrite app_nil_r. }
  assert (Text.startsWith line "property" = true ->
          Text.startsWith line "end_header" = false) as Hprop.
  { intros Hp. apply startsWith_app in Hp as [r ->]. vm_compute. reflexivity. }
  assert (exists old new,
            elements st = old ++ new
            /\ Forall2 Element_extends (elements st) old
            /\ Forall2 declares [] new) as Hself.
  { exists (elements st), []. rewrite app_nil_r.
    split; [done|]. split; [apply Forall2_Element_extends_refl|done]. }
  unfold headerLine. intros H.
  case_bool_decide as Hempty.
  { injection H as <-. subst line. split; [done|]. cbn [Text.startsWith String.prefix].
    by apply Hkept, Forall2_Element_extends_refl. }
  destruct (Text.startsWith line "comment") eqn:Hc.
  { injection H as <-. destruct (startsWith_comment _ Hc) as (-> & -> & ->).
    split; [done|]. split; [done|]. cbn. by rewrite app_nil_r. }
  destruct (Text.startsWith line "obj_info") eqn:Ho.
  { injection H as <-. destruct (startsWith_obj_info _ Ho) as (-> & ->).
    split; [done|]. cbn. by rewrite app_nil_r. }
  destruct (Text.startsWith line "element") eqn:He.
  { assert (Text.startsWith line "end_header" = false) as ->.
    { apply startsWith_app in He as [r ->]. vm_compute. reflexivity. }
    destruct (Text.split Text.DELIMITER line) as [|t0 [|t1 [|t2 [|]]]] eqn:Htok;
      try discriminate.
    injection H as <-. split; [done|]. cbn. rewrite !app_nil_r. split; [done|].
    split; [done|]. eexists (elements st), [_]. split; [done|].
    split; [apply Forall2_Element_extends_refl|].
    constructor; [|done]. exists t0, t2. by rewrite Htok. }
  destruct (Text.startsWith line "property list") eqn:Hpl.
  { assert (Text.startsWith line "property" = true) as Hp.
    { apply startsWith_app in Hpl as [r ->]. vm_compute. reflexivity. }
    rewrite (Hprop Hp). split; [done|].
    repeat case_match; try discriminate. injection H as <-.
    apply Hkept; [done|]. apply pushPropertyToLast_elements. }
  destruct (Text.startsWith line "property") eqn:Hp.
  { rewrite (Hprop eq_refl). split; [done|].
    repeat case_match; try discriminate. injection H as <-.
    apply Hkept; [done|]. apply pushPropertyToLast_elements. }
  destruct (Text.startsWith line "end_header"); discriminate.
Qed.

(** What the line loop appends when it returns [true]. *)
Lemma headerLines_appends ls : forall st st',
  headerLines st ls = (true, st') ->
  comments (header st')
  = comments (header st)
    ++ map (Text.substring 8)
         (List.filter (fun l => Text.startsWith l "comment") (beforeEnd ls))
  /\ objInfoComments (header st')
     = objInfoComments (header st)
       ++ map (Text.substring 9)
            (List.filter (fun l => Text.startsWith l "obj_info") (beforeEnd ls))
  /\ exists old new,
       elements st' = old ++ new
       /\ Forall2 Element_extends (elements st) old
       /\ Forall2 declares
            (List.filter (fun l => Text.startsWith l "element") (beforeEnd ls)) new.
Proof.
  induction ls as [|l ls IH]; intros st st' H; cbn [headerLines beforeEnd] in *.
  { injection H as <-. cbn. rewrite !app_nil_r. repeat split.
    exists (elements st), []. rewrite app_nil_r.
    split; [done|]. split; [apply Forall2_Element_extends_refl|done]. }
  destruct (headerLine st l) as [st1| |] eqn:Hl; [| |discriminate].
  - destruct (headerLine_appends _ _ _ Hl) as (-> & Hc & Ho & old1 & new1 & He & Hold1 & Hnew1).
    destruct (IH _ _ H) as (Hc' & Ho' & old & new & He' & Hold & Hnew).
    cbn [List.filter map].
    split; [|split].
    + rewrite Hc', Hc, <- app_assoc. f_equal.
      by destruct (Text.startsWith l "comment").
    + rewrite Ho', Ho, <- app_assoc. f_equal.
      by destruct (Text.startsWith l "obj_info").
    + rewrite He in Hold. apply Forall2_app_inv_l in Hold as (oldA & oldB & HA & HB & ->).
      exists oldA, (oldB ++ new). split; [by rewrite He', app_assoc|]. split.
      * eapply Forall2_compose; [apply Element_extends_trans|exact Hold1|exact HA].
      * destruct (Text.startsWith l "element").
        -- apply Forall2_cons_inv_l in Hnew1 as (e1 & ? & Hd & ->%Forall2_nil_inv_l & ->).
           apply Forall2_cons_inv_l in HB as (e2 & ? & Hext & ->%Forall2_nil_inv_l & ->).
           cbn. constructor; [|done].
           destruct Hd as (t0 & t2 & Htok & Hcount). destruct Hext as (Hn & Hk & _).
           exists t0, t2. by rewrite <- Hn, <- Hk.
        -- apply Forall2_nil_inv_l in Hnew1 as ->. apply Forall2_nil_inv_l in HB as ->.
           done.
  - injection H as <-.
    rewrite (headerLine_stops _ _ Hl).
    cbn. rewrite !app_nil_r. repeat split.
    exists (elements st), []. rewrite app_nil_r.
    split; [done|]. split; [apply Forall2_Element_extends_refl|done].
Qed.

Lemma parseHeader_appends st lines st' :
  _parseHeader st lines = (true, st') ->
  comments (header st')
  = comments (header st)
    ++ map (Text.substring 8)
         (List.filter (fun l => Text.startsWith l "comment") (beforeEnd (drop 2 lines)))
  /\ objInfoComments (header st')
     = objInfoComments (header st)
       ++ map (Text.substring 9)
            (List.filter (fun l => Text.startsWith l "obj_info") (beforeEnd (drop 2 lines)))
  /\ exists old new,
       elements st' = old ++ new
       /\ Forall2 Element_extends (elements st) old
       /\ Forall2 declares
            (List.filter (fun l => Text.startsWith l "element") (beforeEnd (drop 2 lines)))
            new.
Proof.
  unfold _parseHeader. intros H.
  repeat case_match; try discriminate.
  by apply headerLines_appends in H.
Qed.

(** C9.  [load] never resets the model: after any call the comments and the
    obj_info comments that were there are a prefix of the new ones, and the
    elements that were there are still in place, with properties and values
    pushed at most.  When the header parser accepts the input, whatever the
    model holds, the call leaves the old comments followed by the texts of
    the comment lines of the input, the old obj_info comments followed by the
    texts of its obj_info lines, and the old elements, which the decoder has
    read into first, followed by one element for each element line of the
    input, with the name and the count of that line: the lines are those
    after the first two lines and before the first line that starts with
    [end_header].  So after a load of one vertex and a load of a file with two
    records, the comments and the obj_info comments of both files are there,
    and [getVertexPositions] returns the vertex of the first file followed by
    the first record of the second. *)
Theorem second_load_appends :
  (forall st buf, PlyData_extends st (load st buf).2)
  /\ (forall st buf head body,
        splitByEndHeader buf = Some (head, body) ->
        (_parseHeader st (asLines head)).1 = true ->
        let st' := (load st buf).2 in
        let lines := beforeEnd (drop 2 (asLines head)) in
        comments (header st')
        = comments (header st)
          ++ map (Text.substring 8)
               (List.filter (fun l => Text.startsWith l "comment") lines)
        /\ objInfoComments (header st')
           = objInfoComments (header st)
             ++ map (Text.substring 9)
                  (List.filter (fun l => Text.startsWith l "obj_info") lines)
        /\ exists old new,
             elements st' = old ++ new
             /\ Forall2 Element_extends (elements st) old
             /\ Forall2 declares
                  (List.filter (fun l => Text.startsWith l "element") lines) new)
  /\ (let st1 := (load new_PlyData Sample.one_vertex).2 in
      let st2 := (load st1 Sample.two_records).2 in
      (load new_PlyData Sample.one_vertex).1 = true
      /\ (load st1 Sample.two_records).1 = true
      /\ comments (header st2) = ["first"; "second"]
      /\ objInfoComments (header st2) = ["source a"; "source b"]
      /\ map name (elements st2) = ["vertex"; "vertex"]
      /\ getVertexPositions st1 "vertex" = Returns [Num (Int 1); Num (Int 2); Num (Int 3)]
      /\ getVertexPositions st2 "vertex"
         = Returns [Num (Int 1); Num (Int 2); Num (Int 3);
                    Num (Int 4); Num (Int 5); Num (Int 6)]).
Proof.
  split; [exact load_extends|]. split; [|repeat split; vm_compute; reflexivity].
  intros st buf head body Hsplit Hh st' lines. subst st' lines. unfold load.
  rewrite Hsplit.
  destruct (_parseHeader st (asLines head)) as [b st1] eqn:Hst1. cbn in Hh. subst b.
  destruct (parseHeader_appends _ _ _ Hst1) as (Hc & Ho & old & new & He & Hold & Hnew).
  destruct (decoders_extend st1) as (Ha & Hb & Hd).
  assert (forall st2,
            header st2 = header st1 ->
            Forall2 Element_extends (elements st1) (elements st2) ->
            comments (header st2)
            = comments (header st)
              ++ map (Text.substring 8)
                   (List.filter (fun l => Text.startsWith l "comment")
                      (beforeEnd (drop 2 (asLines head))))
            /\ objInfoComments (header st2)
               = objInfoComments (header st)
                 ++ map (Text.substring 9)
                      (List.filter (fun l => Text.startsWith l "obj_info")
                         (beforeEnd (drop 2 (asLines head))))
            /\ exists old new,
                 elements st2 = old ++ new
                 /\ Forall2 Element_extends (elements st) old
                 /\ Forall2 declares
                      (List.filter (fun l => Text.startsWith l "element")
                         (beforeEnd (drop 2 (asLines head)))) new) as Hcut.
  { intros st2 Hhd Hes. rewrite Hhd. split; [done|]. split; [done|].
    rewrite He in Hes. apply Forall2_app_inv_l in Hes as (old2 & new2 & H1 & H2 & ->).
    exists old2, new2. split; [done|]. split.
    - eapply Forall2_compose; [apply Element_extends_trans|exact Hold|exact H1].
    - clear -Hnew H2. revert new2 H2.
      induction Hnew as [|l e ls es Hd _ IH]; intros new2 H2.
      + by apply Forall2_nil_inv_l in H2 as ->.
      + apply Forall2_cons_inv_l in H2 as (e2 & es2 & Hext & Hes2 & ->).
        constructor; [|by apply IH].
        destruct Hd as (t0 & t2 & Htok & Hcount). destruct Hext as (Hn & Hk & _).
        exists t0, t2. by rewrite <- Hn, <- Hk. }
  repeat case_bool_decide.
  - specialize (Ha (asLines body)). pose proof (parseAscii_header st1 (asLines body)) as Hhd.
    destruct (_parseAscii _ _) as [st2 r]. by apply Hcut.
  - specialize (Hb body). pose proof (parseBinary_header st1 body) as Hhd.
    destruct (_parseBinary _ _) as [st2 r]. by apply Hcut.
  - specialize (Hd body). pose proof (parseBinaryBigEndian_header st1 body) as Hhd.
    destruct (_parseBinaryBigEndian _ _) as [st2 r]. by apply Hcut.
  - apply Hcut; [done|]. apply Forall2_Element_extends_refl.
Qed.

(** The second load of the two files above. *)
Lemma second_load_appends_witness :
  let st1 := (load new_PlyData Sample.one_vertex).2 in
  let st2 := (load st1 Sample.two_records).2 in
  let lines := beforeEnd (drop 2 (asLines (take 127 Sample.two_records))) in
  splitByEndHeader Sample.two_records
  = Some (take 127 Sample.two_records, drop 127 Sample.two_records)
  /\ (_parseHeader st1 (asLines (take 127 Sample.two_records))).1 = true
  /\ comments (header st2)
     = comments (header st1)
       ++ map (Text.substring 8)
            (List.filter (fun l => Text.startsWith l "comment") lines)
  /\ objInfoComments (header st2)
     = objInfoComments (header st1)
       ++ map (Text.substring 9)
            (List.filter (fun l => Text.startsWith l "obj_info") lines)
  /\ exists old new,
       elements st2 = old ++ new
       /\ Forall2 Element_extends (elements st1) old
       /\ Forall2 declares
            (List.filter (fun l => Text.startsWith l "element") lines) new.
Proof.
  intros st1 st2 lines.
  assert (splitByEndHeader Sample.two_records
          = Some (take 127 Sample.two_records, drop 127 Sample.two_records)) as Hs
    by (vm_compute; reflexivity).
  assert ((_parseHeader st1 (asLines (take 127 Sample.two_records))).1 = true) as Hh
    by (vm_compute; reflexivity).
  split; [exact Hs|]. split; [exact Hh|].
  exact (proj1 (proj2 second_load_appends) st1 Sample.two_records _ _ Hs Hh).
Defined.

(** ** C6: faces *)

Lemma findProperty_lookup st n e el m p pr :
  findElement st n = Some (e, el) ->
  findProperty (Some (e, el)) m = Some (p, pr) ->
  elements st !! e ≫= (fun el => properties el !! p) = Some pr.
Proof.
  intros He Hp. rewrite (findElement_lookup _ _ _ _ He). simpl.
  simpl in Hp. by apply list_find_Some in Hp as [? _].
Qed.

Lemma getIndices_notAList e property : notAList property -> getIndices e property = None.
Proof. by destruct property as [[? []]|]. Qed.

Lemma grows_lookup {A : Type} (R : A -> A -> Prop) l l' i x :
  grows R l l' -> l !! i = Some x -> exists y, l' !! i = Some y /\ R x y.
Proof.
  intros (k & new & -> & Hk) Hx.
  destruct (Forall2_lookup_l _ _ _ _ _ Hk Hx) as (y & Hy & HR).
  exists y. split; [|done]. by apply lookup_app_l_Some.
Qed.

(** A reference to an array of a list property still denotes an array of that
    property after a load, with what the load has pushed. *)
Lemma deref_after_load st buf e p n ty lcb data starts :
  elements st !! e ≫= (fun el => properties el !! p)
  = Some (TypedListProperty n ty lcb data starts) ->
  exists data' starts',
    deref (load st buf).2 (flattenedDataOf e p) = Some data'
    /\ deref (load st buf).2 (flattenedIndexStartOf e p) = Some (map Num starts')
    /\ data `prefix_of` data' /\ starts `prefix_of` starts'.
Proof.
  intros Hp. destruct (load_extends st buf) as (_ & _ & Hg).
  destruct (elements st !! e) as [el|] eqn:He; [|discriminate]. simpl in Hp.
  destruct (grows_lookup _ _ _ _ _ Hg He) as (el' & He' & _ & _ & Hps).
  destruct (grows_lookup _ _ _ _ _ Hps Hp) as (pr & Hpr & Hext).
  destruct pr as [|n' ty' lcb' data' starts']; [done|].
  destruct Hext as (_ & _ & _ & Hd & Hs).
  exists data', starts'. unfold deref. rewrite He'. simpl. by rewrite Hpr.
Qed.

(** C6, as the code has it.  [getFaces] returns references to the
    [flattenedData] and the [flattenedIndexStart] of the list property
    [vertex_indices] of the face element; when [vertex_indices] is absent or is
    not a list property it returns those of the list property [vertex_index];
    when neither name gives a list property it throws "vertex indices property
    not found" (the spec's MissingField).  The references are to the arrays of
    the model themselves: what a later load pushes on them is seen through
    them. *)
Theorem getFaces_shares_the_arrays st :
  let face := findElement st "face" in
  let shared e p data starts :=
    getFaces st = Returns {| indices := flattenedDataOf e p;
                             strides := flattenedIndexStartOf e p |}
    /\ deref st (flattenedDataOf e p) = Some data
    /\ deref st (flattenedIndexStartOf e p) = Some (map Num starts)
    /\ forall buf, exists data' starts',
         deref (load st buf).2 (flattenedDataOf e p) = Some data'
         /\ deref (load st buf).2 (flattenedIndexStartOf e p) = Some (map Num starts')
         /\ data `prefix_of` data' /\ starts `prefix_of` starts' in
  (forall e el p n ty lcb data starts,
     face = Some (e, el) ->
     findProperty face "vertex_indices" = Some (p, TypedListProperty n ty lcb data starts) ->
     shared e p data starts)
  /\ (forall e el p n ty lcb data starts,
        face = Some (e, el) ->
        notAList (findProperty face "vertex_indices") ->
        findProperty face "vertex_index" = Some (p, TypedListProperty n ty lcb data starts) ->
        shared e p data starts)
  /\ (notAList (findProperty face "vertex_indices") ->
      notAList (findProperty face "vertex_index") ->
      getFaces st = Throws (Error "vertex indices property not found")).
Proof.
  intros face shared. unfold shared, getFaces. fold face. split; [|split].
  - intros e el p n ty lcb data starts Hf Hp. rewrite Hp, Hf. simpl.
    split; [done|]. rewrite Hf in Hp. unfold face in Hf.
    pose proof (findProperty_lookup _ _ _ _ _ _ _ Hf Hp) as Hl.
    unfold deref. rewrite Hl. split; [done|]. split; [done|].
    intros buf. by eapply deref_after_load.
  - intros e el p n ty lcb data starts Hf Hno Hp.
    rewrite (getIndices_notAList _ _ Hno), Hp, Hf. simpl.
    split; [done|]. rewrite Hf in Hp. unfold face in Hf.
    pose proof (findProperty_lookup _ _ _ _ _ _ _ Hf Hp) as Hl.
    unfold deref. rewrite Hl. split; [done|]. split; [done|].
    intros buf. by eapply deref_after_load.
  - intros H1 H2. by rewrite (getIndices_notAList _ _ H1), (getIndices_notAList _ _ H2).
Qed.

Lemma getFaces_shares_the_arrays_witness :
  let st := (load new_PlyData Sample.triangle).2 in
  getFaces st = Returns {| indices := flattenedDataOf 1 0;
                           strides := flattenedIndexStartOf 1 0 |}
  /\ deref st (flattenedDataOf 1 0) = Some [Num (Int 0); Num (Int 1); Num (Int 2)]
  /\ deref st (flattenedIndexStartOf 1 0) = Some (map Num [Int 0; Int 3])
  /\ forall buf, exists data' starts',
       deref (load st buf).2 (flattenedDataOf 1 0) = Some data'
       /\ deref (load st buf).2 (flattenedIndexStartOf 1 0) = Some (map Num starts')
       /\ [Num (Int 0); Num (Int 1); Num (Int 2)] `prefix_of` data'
       /\ [Int 0; Int 3] `prefix_of` starts'.
Proof.
  intros st.
  exact (proj1 (getFaces_shares_the_arrays st) 1%nat
           {| name := "face"; count := Int 1;
              properties := [TypedListProperty "vertex_indices" PropertyType.int 1
                               [Num (Int 0); Num (Int 1); Num (Int 2)] [Int 0; Int 3]] |}
           0%nat "vertex_indices" PropertyType.int 1
           [Num (Int 0); Num (Int 1); Num (Int 2)] [Int 0; Int 3] eq_refl eq_refl).
Defined.

(** C6 as stated fails: with a scalar [vertex_indices] present [getFaces] does
    not throw but returns the arrays of [vertex_index]. *)
Lemma getFaces_counterexample :
  let st := (load new_PlyData Sample.scalar_vertex_indices).2 in
  (load new_PlyData Sample.scalar_vertex_indices).1 = true
  /\ findProperty (findElement st "face") "vertex_indices"
     = Some (0%nat, TypedProperty "vertex_indices" PropertyType.int [Num (Int 9)])
  /\ getFaces st = Returns {| indices := flattenedDataOf 0 1;
                              strides := flattenedIndexStartOf 0 1 |}
  /\ facesContents st
     = Returns (Some [Num (Int 0); Num (Int 1); Num (Int 2)],
                Some [Num (Int 0); Num (Int 3)]).
Proof. repeat split; vm_compute; reflexivity. Qed.

(** ** C8: vertex colours *)

(** C8, as the code has it.  [getVertexColors] throws "vertex element or
    properties not found" (MissingField) when the element has no property
    named [red], none named [green] or none named [blue], of either kind; when
    the three names are those of list properties it returns the empty
    sequence. *)
Theorem getVertexColors_missing st elementName :
  let vertex := findElement st elementName in
  (findProperty vertex "red" = None \/ findProperty vertex "green" = None
   \/ findProperty vertex "blue" = None ->
   getVertexColors st elementName
   = Throws (Error "vertex element or properties not found"))
  /\ (forall i1 i2 i3 n1 n2 n3 ty1 ty2 ty3 lcb1 lcb2 lcb3 d1 d2 d3 s1 s2 s3,
        findProperty vertex "red" = Some (i1, TypedListProperty n1 ty1 lcb1 d1 s1) ->
        findProperty vertex "green" = Some (i2, TypedListProperty n2 ty2 lcb2 d2 s2) ->
        findProperty vertex "blue" = Some (i3, TypedListProperty n3 ty3 lcb3 d3 s3) ->
        getVertexColors st elementName = Returns []).
Proof.
  intros vertex. unfold getVertexColors, _getVertexValues. fold vertex. split.
  - intros [H|[H|H]]; rewrite H; simpl; repeat case_match; done.
  - intros * -> -> ->. done.
Qed.

Lemma getVertexColors_missing_witness :
  getVertexColors (load new_PlyData Sample.triangle).2 "vertex"
  = Throws (Error "vertex element or properties not found").
Proof.
  apply (proj1 (getVertexColors_missing (load new_PlyData Sample.triangle).2 "vertex")).
  left. reflexivity.
Defined.

(** C8 as stated fails: a loaded vertex element with no scalar property at
    all, whose [red], [green] and [blue] are lists, gives the empty sequence. *)
Lemma getVertexColors_counterexample :
  let st := (load new_PlyData Sample.list_colors).2 in
  (load new_PlyData Sample.list_colors).1 = true
  /\ (exists e, findElement st "vertex" = Some (0%nat, e)
                /\ Forall (fun p => getValues p = []) (properties e)
                /\ Forall (fun p => match p with TypedProperty _ _ _ => False | _ => True end)
                     (properties e))
  /\ getVertexColors st "vertex" = Returns [].
Proof.
  split; [vm_compute; reflexivity|]. split; [|vm_compute; reflexivity].
  eexists. split; [vm_compute; reflexivity|]. split; repeat constructor.
Qed.

(** ** What load rejects *)

Lemma matchesAt_app t post : matchesAt t (t ++ post) = true.
Proof.
  induction t as [|x t IH]; simpl; [done|].
  by rewrite (Byte.byte_dec_lb (eq_refl x)).
Qed.

Lemma findTarget_None data : forall i,
  findTarget data i = None <-> forall pre post, data <> pre ++ target ++ post.
Proof.
  induction data as [|d data IH]; intros i; cbn [findTarget].
  - split; [|done]. intros _ pre post H.
    apply (f_equal length) in H. rewrite !length_app in H. simpl in H. lia.
  - destruct (matchesAt target (d :: data)) eqn:Hm.
    + split; [done|]. intros H. exfalso.
      assert (exists post, d :: data = target ++ post) as [post Hpost].
      { clear -Hm. revert Hm. generalize (d :: data). generalize target.
        induction l as [|t l IH]; intros l' H; [by exists l'|].
        destruct l' as [|x l']; simpl in H; [discriminate|].
        destruct (Byte.eqb x t) eqn:Hx; [|discriminate].
        apply Byte.byte_dec_bl in Hx as ->.
        destruct (IH _ H) as [post ->]. by exists post. }
      by apply (H [] post).
    + rewrite IH. split.
      * intros H pre post Heq. destruct pre as [|x pre].
        -- rewrite app_nil_l in Heq. rewrite Heq, matchesAt_app in Hm. discriminate.
        -- rewrite <- app_comm_cons in Heq. injection Heq as _ Heq. by apply (H pre post).
      * intros H pre post Heq. apply (H (d :: pre) post). by rewrite Heq.
Qed.

(** X2.  An input in which the bytes of [end_header] and a newline do not
    occur makes [load] return [false], and the model is left as it was. *)
Theorem load_without_marker st buf :
  (forall pre post, buf <> pre ++ target ++ post) -> load st buf = (false, st).
Proof.
  intros H. apply findTarget_None with (i := 0%nat) in H.
  unfold load, splitByEndHeader. by rewrite H.
Qed.

Lemma load_without_marker_witness :
  load new_PlyData (list_byte_of_string "ply
") = (false, new_PlyData).
Proof.
  apply load_without_marker. intros pre post H.
  apply (f_equal length) in H. rewrite !length_app in H.
  change (length target) with 11%nat in H.
  change (length (list_byte_of_string _)) with 4%nat in H. lia.
Defined.

Lemma headerLine_Break st line : headerLine st line = Break <-> breaks line = true.
Proof.
  unfold headerLine, breaks.
  destruct (bool_decide (line = "")); simpl; [done|].
  destruct (Text.startsWith line "comment"); simpl; [done|].
  destruct (Text.startsWith line "obj_info"); simpl; [done|].
  destruct (Text.startsWith line "element") eqn:He; simpl.
  { repeat case_match; done. }
  destruct (Text.startsWith line "property list") eqn:Hpl; simpl.
  { apply startsWith_app in Hpl as [r ->]. simpl. repeat case_match; done. }
  destruct (Text.startsWith line "property"); simpl.
  { repeat case_match; done. }
  by destruct (Text.startsWith line "end_header").
Qed.

(** The line loop returns [false] at the first line that every model
    rejects, when no line before it stops the loop. *)
Lemma headerLines_rejects pre line post : forall st,
  Forall (fun l => breaks l = false) pre ->
  (forall st', headerLine st' line = ReturnFalse) ->
  (headerLines st (pre ++ line :: post)).1 = false.
Proof.
  induction pre as [|l pre IH]; intros st Hpre Hline; simpl.
  - by rewrite Hline.
  - apply Forall_cons in Hpre as [Hl Hpre].
    destruct (headerLine st l) eqn:Hhl; [by apply IH| |done].
    apply headerLine_Break in Hhl. congruence.
Qed.

Lemma load_rejects_line st buf head body line0 line1 pre line post :
  splitByEndHeader buf = Some (head, body) ->
  asLines head = line0 :: line1 :: pre ++ line :: post ->
  Forall (fun l => breaks l = false) pre ->
  (forall st', headerLine st' line = ReturnFalse) ->
  (load st buf).1 = false.
Proof.
  intros Hs Hl Hpre Hline. unfold load. rewrite Hs, Hl.
  unfold _parseHeader. simpl.
  case_bool_decide; [done|].
  destruct (Text.split Text.DELIMITER line1) as [|f [|t1 [|t2 [|]]]]; try done.
  repeat case_bool_decide; try done.
  pose proof (headerLines_rejects pre line post (setFormat st t1 t2) Hpre Hline) as Hr.
  by destruct (headerLines _ _) as [[] s1].
Qed.

Lemma createPropertyWithType_unknown n typeStr isList ct :
  typeStr ∉ typeNames -> createPropertyWithType n typeStr isList ct = None.
Proof.
  unfold typeNames. rewrite !not_elem_of_cons. intros H.
  unfold createPropertyWithType. destruct (if isList then _ else _); [|done].
  repeat (case_bool_decide as Hin;
          [exfalso; rewrite !elem_of_cons, elem_of_nil in Hin;
           destruct_and!; destruct_or!; done|clear Hin]).
  done.
Qed.

(** X3.  A [property <type> <name>] line whose type has none of the sixteen
    names, met before any line that stops the line loop, makes [load] return
    [false]. *)
Theorem load_rejects_unknown_type st buf head body line0 line1 pre line post t0 t1 t2 :
  splitByEndHeader buf = Some (head, body) ->
  asLines head = line0 :: line1 :: pre ++ line :: post ->
  Forall (fun l => breaks l = false) pre ->
  Text.startsWith line "property" = true ->
  Text.startsWith line "property list" = false ->
  Text.split Text.DELIMITER line = [t0; t1; t2] ->
  t1 ∉ typeNames ->
  (load st buf).1 = false.
Proof.
  intros Hs Hl Hpre Hp Hpl Htok Hty.
  apply (load_rejects_line st buf head body line0 line1 pre line post Hs Hl Hpre).
  intros st'. unfold headerLine.
  apply startsWith_app in Hp as Hr. destruct Hr as [r ->].
  rewrite Hpl, Hp, Htok. simpl.
  rewrite (createPropertyWithType_unknown _ _ _ _ Hty). by destruct (_ =? _)%nat.
Qed.

Lemma load_rejects_unknown_type_witness : (load new_PlyData Sample.unknown_type).1 = false.
Proof.
  apply (load_rejects_unknown_type new_PlyData Sample.unknown_type
           (take 75 Sample.unknown_type) (drop 75 Sample.unknown_type)
           "ply" "format ascii 1.0" ["comment c"; "element vertex 1"]
           "property quad x" ["end_header"; ""] "property" "quad" "x");
    try (vm_compute; reflexivity).
  - repeat constructor.
  - unfold typeNames. rewrite !not_elem_of_cons.
    repeat split; [discriminate..|apply not_elem_of_nil].
Defined.

Lemma startsWith_property line :
  Text.startsWith line "property" = true ->
  bool_decide (line = "") = false
  /\ Text.startsWith line "comment" = false
  /\ Text.startsWith line "obj_info" = false
  /\ Text.startsWith line "element" = false.
Proof.
  intros H. apply startsWith_app in H as [r ->].
  split; [by apply bool_decide_eq_false_2|]. repeat split; vm_compute; reflexivity.
Qed.

Lemma headerLine_remark st line :
  remark line = true ->
  exists st', headerLine st line = Next st' /\ elements st' = elements st.
Proof.
  unfold remark, headerLine. intros H.
  destruct (bool_decide (line = "")); [by eexists|].
  destruct (Text.startsWith line "comment"); [by eexists|].
  destruct (Text.startsWith line "obj_info"); [by eexists|]. done.
Qed.

Lemma headerLine_property_first st line :
  elements st = [] -> Text.startsWith line "property" = true ->
  headerLine st line = ReturnFalse.
Proof.
  intros Hst Hp. unfold headerLine.
  destruct (startsWith_property _ Hp) as (-> & -> & -> & ->). rewrite Hp, Hst. simpl.
  repeat case_match; done.
Qed.

Lemma headerLines_property_first pre line post : forall st,
  elements st = [] ->
  Forall (fun l => remark l = true) pre ->
  Text.startsWith line "property" = true ->
  (headerLines st (pre ++ line :: post)).1 = false.
Proof.
  induction pre as [|l pre IH]; intros st Hst Hpre Hp; simpl.
  - by rewrite headerLine_property_first.
  - apply Forall_cons in Hpre as [Hl Hpre].
    destruct (headerLine_remark st l Hl) as (st' & -> & Hst').
    apply IH; [congruence|done..].
Qed.

(** X4.  A property line, scalar or list, that comes after comments only and
    before any element line makes [load] into a new model return [false]. *)
Theorem load_rejects_property_first buf head body line0 line1 pre line post :
  splitByEndHeader buf = Some (head, body) ->
  asLines head = line0 :: line1 :: pre ++ line :: post ->
  Forall (fun l => remark l = true) pre ->
  Text.startsWith line "property" = true ->
  (load new_PlyData buf).1 = false.
Proof.
  intros Hs Hl Hpre Hp. unfold load. rewrite Hs, Hl.
  unfold _parseHeader. simpl.
  case_bool_decide; [done|].
  destruct (Text.split Text.DELIMITER line1) as [|f [|t1 [|t2 [|]]]]; try done.
  repeat case_bool_decide; try done.
  pose proof (headerLines_property_first pre line post (setFormat new_PlyData t1 t2)
                eq_refl Hpre Hp) as Hr.
  by destruct (headerLines _ _) as [[] s1].
Qed.

Lemma load_rejects_property_first_witness :
  (load new_PlyData Sample.property_first).1 = false.
Proof.
  apply (load_rejects_property_first Sample.property_first
           Sample.property_first Sample.property_first
           "ply" "format ascii 1.0" ["comment c"]
           "property list uchar int vertex_indices" ["element face 0"; "end_header"; ""]);
    try (vm_compute; reflexivity).
  repeat constructor.
Defined.

(** X5.  After a successful ASCII or little-endian load into a new model,
    every scalar property of every element holds as many values, and the
    index of every list property one entry more after its 0, as the instance
    loop ran: [element.count] times, no time for a count that is [NaN] or
    negative. *)
Theorem load_reads_count_instances buf st :
  load new_PlyData buf = (true, st) ->
  type (header st) = "binary_little_endian" \/ type (header st) = "ascii" ->
  Forall (fun e => Forall (indexed (iterations (count e))) (properties e)) (elements st).
Proof. apply load_indexed. Qed.

Lemma load_reads_count_instances_witness :
  let st := (load new_PlyData Sample.triangle).2 in
  Forall (fun e => Forall (indexed (iterations (count e))) (properties e)) (elements st).
Proof.
  intros st. apply (load_reads_count_instances Sample.triangle st).
  - vm_compute. reflexivity.
  - right. vm_compute. reflexivity.
Defined.

(** ** A binary body that is cut short *)

Lemma bytesAt_app b ext offset w bs :
  (0 < w)%nat ->
  Buffer.bytesAt b offset w = Some bs ->
  Buffer.bytesAt (b ++ ext) offset w = Some bs /\ (offset + w <= length b)%nat.
Proof.
  unfold Buffer.bytesAt. intros Hw H.
  destruct (length (take w (drop offset b)) =? w)%nat eqn:Hlen; [|discriminate].
  injection H as <-. apply Nat.eqb_eq in Hlen.
  rewrite length_take, length_drop in Hlen.
  assert (offset + w <= length b)%nat as Hin by lia. split; [|done].
  rewrite drop_app_le by lia. rewrite take_app_le by (rewrite length_drop; lia).
  by rewrite length_take, length_drop, Hlen, Nat.eqb_refl.
Qed.

Lemma readUint_app w le b ext offset z :
  (0 < w)%nat ->
  Buffer.readUint w le b offset = Returns z ->
  Buffer.readUint w le (b ++ ext) offset = Returns z /\ (offset + w <= length b)%nat.
Proof.
  unfold Buffer.readUint. intros Hw H.
  destruct (Buffer.bytesAt b offset w) as [bs|] eqn:Hbs; [|discriminate].
  destruct (bytesAt_app _ ext _ _ _ Hw Hbs) as [-> Hin]. done.
Qed.

Lemma readInt_app w le b ext offset z :
  (0 < w)%nat ->
  Buffer.readInt w le b offset = Returns z ->
  Buffer.readInt w le (b ++ ext) offset = Returns z /\ (offset + w <= length b)%nat.
Proof.
  unfold Buffer.readInt. intros Hw H.
  destruct (Buffer.readUint w le b offset) as [u|] eqn:Hu; [|discriminate].
  destruct (readUint_app _ _ _ ext _ _ Hw Hu) as [-> Hin]. done.
Qed.

(** A value read inside a buffer is the value read in any longer buffer. *)
Lemma readValue_app b ext ty offset le v :
  Property.readValue b ty offset le = Returns v ->
  Property.readValue (b ++ ext) ty offset le = Returns v
  /\ (offset + Property.getNumByte ty <= length b)%nat.
Proof.
  unfold Property.readValue, Property.integral, Property.floating,
    Buffer.readInt8, Buffer.readUint8, Buffer.readInt16LE, Buffer.readInt16BE,
    Buffer.readUint16LE, Buffer.readUint16BE, Buffer.readInt32LE, Buffer.readInt32BE,
    Buffer.readUint32LE, Buffer.readUint32BE, Buffer.readFloat, Buffer.readDouble.
  intros H.
  destruct ty, le; simpl;
    repeat match goal with
    | H : context [Buffer.readInt ?w ?l b offset] |- _ =>
        destruct (Buffer.readInt w l b offset) eqn:Hr; [|discriminate];
        apply (readInt_app w l b ext) in Hr as [-> ?]; [|lia]
    | H : context [Buffer.readUint ?w ?l b offset] |- _ =>
        destruct (Buffer.readUint w l b offset) eqn:Hr; [|discriminate];
        apply (readUint_app w l b ext) in Hr as [-> ?]; [|lia]
    end; done.
Qed.

Lemma readCount_app lcb le b ext offset c :
  Property.readCount lcb le b offset = Returns c ->
  Property.readCount lcb le (b ++ ext) offset = Returns c
  /\ (offset + Z.to_nat lcb <= length b)%nat.
Proof.
  unfold Property.readCount, Buffer.readUint8, Buffer.readUint16LE, Buffer.readUint16BE,
    Buffer.readUint32LE, Buffer.readUint32BE.
  intros H.
  repeat case_match; try discriminate;
    match goal with
    | H : Buffer.readUint ?w ?l b offset = Returns _ |- _ =>
        apply (readUint_app w l b ext) in H as [-> ?]; [|lia]
    end;
    (split; [done|]);
    repeat match goal with H : (_ =? _) = true |- _ => apply Z.eqb_eq in H end; lia.
Qed.

Lemma readItems_app n b ext ty le : forall offset data data' offset',
  (offset <= length b)%nat ->
  Property.readItems n b offset ty le data = (data', Returns offset') ->
  Property.readItems n (b ++ ext) offset ty le data = (data', Returns offset')
  /\ (offset' <= length b)%nat.
Proof.
  induction n as [|n IH]; intros offset data data' offset' Ho H; simpl in *.
  - by injection H as <- <-.
  - destruct (Property.readValue b ty offset le) as [v|] eqn:Hv; [|discriminate].
    apply (readValue_app _ ext) in Hv as [-> Hin]. by apply IH.
Qed.

Lemma read_app le b ext p offset p' offset' :
  Property.read le p b offset = (p', Returns offset') ->
  Property.read le p (b ++ ext) offset = (p', Returns offset')
  /\ (offset' <= length b)%nat.
Proof.
  destruct p as [n ty vs|n ty lcb data starts]; simpl.
  - destruct (Property.readValue b ty offset le) as [v|] eqn:Hv; [|discriminate].
    apply (readValue_app _ ext) in Hv as [-> Hin]. by intros [= <- <-].
  - destruct (Property.readCount lcb le b offset) as [c|] eqn:Hc; [|discriminate].
    apply (readCount_app _ _ _ ext) in Hc as [-> Hin].
    destruct (Property.readItems _ b _ _ _ _) as [data' [o|]] eqn:Hi; [|discriminate].
    apply (readItems_app _ _ ext) in Hi as [-> Ho]; [|done]. by intros [= <- <-].
Qed.

(** A loop that returns, returns the same with a body that returns the same
    and keeps a bound on the state. *)
Lemma forEach_returns_same {A T : Type} (I : T -> Prop) (f g : A -> T -> A * outcome T) :
  (forall x s x' s', I s -> f x s = (x', Returns s') -> g x s = (x', Returns s') /\ I s') ->
  forall xs s xs' s', I s -> forEach f xs s = (xs', Returns s') ->
  forEach g xs s = (xs', Returns s') /\ I s'.
Proof.
  intros Hfg. induction xs as [|x xs IH]; intros s xs' s' Hs H; simpl in *.
  - by injection H as <- <-.
  - destruct (f x s) as [x1 [s1|]] eqn:Hf; [|discriminate].
    destruct (Hfg _ _ _ _ Hs Hf) as [-> Hs1].
    destruct (forEach f xs s1) as [xs1 r] eqn:Hr. injection H as <- ->.
    destruct (IH _ _ _ Hs1 Hr) as [-> Hs']. done.
Qed.

Lemma times_returns_same {A T : Type} (I : T -> Prop) (f g : A -> T -> A * outcome T) :
  (forall x s x' s', I s -> f x s = (x', Returns s') -> g x s = (x', Returns s') /\ I s') ->
  forall n x s x' s', I s -> times n f x s = (x', Returns s') ->
  times n g x s = (x', Returns s') /\ I s'.
Proof.
  intros Hfg. induction n as [|n IH]; intros x s x' s' Hs H; simpl in *.
  - by injection H as <- <-.
  - destruct (f x s) as [x1 [s1|]] eqn:Hf; [|discriminate].
    destruct (Hfg _ _ _ _ Hs Hf) as [-> Hs1]. by apply IH.
Qed.

Lemma readProperties_app le b ext ps offset ps' offset' :
  (offset <= length b)%nat ->
  readProperties le b ps offset = (ps', Returns offset') ->
  readProperties le (b ++ ext) ps offset = (ps', Returns offset')
  /\ (offset' <= length b)%nat.
Proof.
  apply (forEach_returns_same (fun o => (o <= length b)%nat)).
  intros p s p' s' _. apply read_app.
Qed.

(** A little-endian decoding that returns has read inside the buffer, and
    returns the same on any longer buffer. *)
Lemma parseBinary_app st b ext st' offset :
  _parseBinary st b = (st', Returns offset) ->
  _parseBinary st (b ++ ext) = (st', Returns offset) /\ (offset <= length b)%nat.
Proof.
  unfold _parseBinary. intros H.
  destruct (forEach (parseBinaryElement b) _ _) as [es r] eqn:Hes.
  injection H as <- ->.
  eapply (forEach_returns_same (fun o => (o <= length b)%nat)
            (parseBinaryElement b) (parseBinaryElement (b ++ ext))) in Hes as [-> Ho];
    [done| |lia].
  intros e s e' s' Hs. unfold parseBinaryElement.
  destruct (times _ (readProperties true b) _ _) as [ps r] eqn:Hps. intros [= <- ->].
  eapply (times_returns_same (fun o => (o <= length b)%nat)
            (readProperties true b) (readProperties true (b ++ ext))) in Hps as [-> Ho];
    [done| |done].
  intros ps0 s0 ps1 s1. apply readProperties_app.
Qed.

(** A little-endian body cut below the offset at which the decoding of the
    whole returns makes the decoder throw. *)
Lemma parseBinary_truncated st whole st' offset cut :
  _parseBinary st whole = (st', Returns offset) ->
  cut `prefix_of` whole ->
  (length cut < offset)%nat ->
  exists e, (_parseBinary st cut).2 = Throws e.
Proof.
  intros Hwhole [ext ->] Hlen.
  destruct (_parseBinary st cut) as [st2 [m|e]] eqn:Hcut; [|by eexists].
  apply (parseBinary_app _ _ ext) in Hcut as [Hsame Hm].
  rewrite Hwhole in Hsame. injection Hsame as _ <-. lia.
Qed.

Lemma matchesAt_true t : forall d, matchesAt t d = true -> exists post, d = t ++ post.
Proof.
  induction t as [|x t IH]; intros d H; [by exists d|].
  destruct d as [|y d]; simpl in H; [discriminate|].
  destruct (Byte.eqb y x) eqn:Hx; [|discriminate].
  apply Byte.byte_dec_bl in Hx as ->. destruct (IH _ H) as [post ->]. by exists post.
Qed.

Lemma matchesAt_app_long t : forall d ext,
  (length t <= length d)%nat -> matchesAt t (d ++ ext) = matchesAt t d.
Proof.
  induction t as [|x t IH]; intros d ext Hlen; [done|].
  destruct d as [|y d]; simpl in *; [lia|].
  destruct (Byte.eqb y x); [|done]. apply IH. lia.
Qed.

Lemma findTarget_bound data : forall k i,
  findTarget data k = Some i ->
  (k <= i)%nat /\ (i - k + length target <= length data)%nat.
Proof.
  induction data as [|d data IH]; intros k i H; cbn [findTarget] in H; [discriminate|].
  destruct (matchesAt target (d :: data)) eqn:Hm.
  - injection H as <-. apply matchesAt_true in Hm as [post ->].
    rewrite length_app. lia.
  - apply IH in H. change (length (d :: data)) with (S (length data)). lia.
Qed.

(** The marker found in a buffer is the marker found in any longer buffer. *)
Lemma findTarget_app data ext : forall k i,
  findTarget data k = Some i -> findTarget (data ++ ext) k = Some i.
Proof.
  induction data as [|d data IH]; intros k i H; [discriminate|].
  rewrite <- app_comm_cons. cbn [findTarget] in *.
  destruct (matchesAt target (d :: data)) eqn:Hm.
  - apply matchesAt_true in Hm as [post Hpost].
    rewrite app_comm_cons, Hpost, <- app_assoc, matchesAt_app. done.
  - pose proof (findTarget_bound _ _ _ H) as [_ Hlen].
    rewrite app_comm_cons, matchesAt_app_long, Hm; [by apply IH|].
    change (length (d :: data)) with (S (length data)). lia.
Qed.

(** A header that ends at its marker, followed by a body that is not empty,
    is split into the two. *)
Lemma splitByEndHeader_app head body rest :
  splitByEndHeader head = Some (head, rest) -> body <> [] ->
  splitByEndHeader (head ++ body) = Some (head, body).
Proof.
  unfold splitByEndHeader. intros H Hbody.
  destruct (findTarget head 0) as [i|] eqn:Hi; [|discriminate].
  rewrite (findTarget_app _ body _ _ Hi).
  injection H as Htake _.
  assert (i + length target = length head)%nat as Hlen.
  { apply (f_equal length) in Htake. rewrite length_take in Htake.
    apply findTarget_bound in Hi. change (length target) with 11%nat in *. lia. }
  rewrite Hlen, take_app_length. f_equal. f_equal.
  unfold Buffer.slice. rewrite length_app.
  assert (0 < length body)%nat by (destruct body; [done|simpl; lia]).
  rewrite (proj2 (Z.eqb_neq _ _)) by lia. rewrite (proj2 (Z.ltb_lt _ _)) by lia.
  replace (Z.to_nat _) with (length head) by lia. apply drop_app_length.
Qed.

(** X6.  A little-endian body that is cut, but not to nothing, below the
    offset at which the decoding of the whole returns, makes [load] return
    [false]. *)
Theorem load_rejects_cut_body st head rest st1 whole st' offset cut :
  splitByEndHeader head = Some (head, rest) ->
  _parseHeader st (asLines head) = (true, st1) ->
  type (header st1) = "binary_little_endian" ->
  _parseBinary st1 whole = (st', Returns offset) ->
  cut `prefix_of` whole -> cut <> [] -> (length cut < offset)%nat ->
  (load st (head ++ cut)).1 = false.
Proof.
  intros Hs Hh Hty Hwhole Hpre Hne Hlen.
  unfold load. rewrite (splitByEndHeader_app _ _ _ Hs Hne), Hh, Hty. simpl.
  destruct (parseBinary_truncated _ _ _ _ _ Hwhole Hpre Hlen) as [e He].
  destruct (_parseBinary st1 cut) as [st2 r]. simpl in He. by subst r.
Qed.

Lemma load_rejects_cut_body_witness :
  (load new_PlyData (take 82 Sample.littleEndian_vertices ++ [x01; x00; x02])).1 = false.
Proof.
  eapply (load_rejects_cut_body new_PlyData (take 82 Sample.littleEndian_vertices)
            (take 82 Sample.littleEndian_vertices) _ [x01; x00; x02; x00] _ 4%nat
            [x01; x00; x02]).
  - vm_compute. reflexivity.
  - vm_compute. reflexivity.
  - reflexivity.
  - vm_compute. reflexivity.
  - by exists [x00].
  - discriminate.
  - simpl. lia.
Defined.

(** ** C4: load, save, load *)

(** *** Text *)

Lemma append_cons a s t : String a s +:+ t = String a (s +:+ t).
Proof. reflexivity. Qed.

Lemma append_nil_l s : "" +:+ s = s.
Proof. reflexivity. Qed.

Lemma append_nil_r s : s +:+ "" = s.
Proof. induction s as [|a s IH]; [done|]. by rewrite append_cons, IH. Qed.

Lemma append_assoc s t u : (s +:+ t) +:+ u = s +:+ (t +:+ u).
Proof. induction s as [|a s IH]; [done|]. by rewrite !append_cons, IH. Qed.

Lemma String_concat_cons s ss : String.concat "" (s :: ss) = s +:+ String.concat "" ss.
Proof.
  destruct ss as [|t ss]; cbn [String.concat].
  - by rewrite append_nil_r.
  - by rewrite append_nil_l.
Qed.

Lemma String_concat_app ss ts :
  String.concat "" (ss ++ ts) = String.concat "" ss +:+ String.concat "" ts.
Proof.
  induction ss as [|s ss IH]; [done|].
  rewrite <- app_comm_cons, !String_concat_cons, IH. by rewrite append_assoc.
Qed.

Lemma unlines_cons l ls : unlines (l :: ls) = l +:+ "
" +:+ unlines ls.
Proof. unfold unlines. by rewrite map_cons, String_concat_cons, append_assoc. Qed.

Lemma unlines_app ks ls : unlines (ks ++ ls) = unlines ks +:+ unlines ls.
Proof. unfold unlines. by rewrite map_app, String_concat_app. Qed.

Lemma untokens_cons t ts : untokens (t :: ts) = t +:+ " " +:+ untokens ts.
Proof. unfold untokens. by rewrite map_cons, String_concat_cons, append_assoc. Qed.

Lemma untokens_app ks ts : untokens (ks ++ ts) = untokens ks +:+ untokens ts.
Proof. unfold untokens. by rewrite map_app, String_concat_app. Qed.

Lemma list_byte_of_string_app s t :
  list_byte_of_string (s +:+ t) = list_byte_of_string s ++ list_byte_of_string t.
Proof.
  induction s as [|a s IH]; [done|].
  rewrite append_cons. cbn [list_byte_of_string] in *.
  unfold list_byte_of_string in *. cbn [list_ascii_of_string map]. by rewrite IH.
Qed.

Lemma length_list_byte_of_string s :
  length (list_byte_of_string s) = String.length s.
Proof.
  unfold list_byte_of_string. rewrite length_map.
  induction s as [|a s IH]; [done|]. cbn. by rewrite IH.
Qed.

Lemma free_app sep s t : free sep (s +:+ t) = free sep s && free sep t.
Proof.
  induction s as [|a s IH]; [done|].
  rewrite append_cons. cbn [free]. rewrite IH. by rewrite andb_assoc.
Qed.

(** Splitting at the first separator. *)
Lemma split_free sep t : free sep t = true -> Text.split sep t = [t].
Proof.
  induction t as [|a t IH]; [done|]. cbn [free Text.split]. intros H.
  apply andb_true_iff in H as [Ha Ht]. apply negb_true_iff in Ha.
  rewrite Ha, (IH Ht). done.
Qed.

Lemma split_app sep t c rest :
  free sep t = true -> sep c = true ->
  Text.split sep (t +:+ String c rest) = t :: Text.split sep rest.
Proof.
  intros Ht Hc. induction t as [|a t IH].
  - rewrite append_nil_l. cbn [Text.split]. by rewrite Hc.
  - cbn [free] in Ht. apply andb_true_iff in Ht as [Ha Ht]. apply negb_true_iff in Ha.
    rewrite append_cons. cbn [Text.split]. rewrite Ha, (IH Ht). done.
Qed.

Lemma split_unlines ls rest :
  Forall (fun l => isLine l = true) ls ->
  Text.split Text.newline (unlines ls +:+ rest) = ls ++ Text.split Text.newline rest.
Proof.
  induction 1 as [|l ls Hl _ IH]; [done|].
  rewrite unlines_cons, !append_assoc, append_cons, append_nil_l.
  rewrite split_app; [|done..]. by rewrite IH.
Qed.

Lemma split_untokens ts :
  Forall (fun t => isToken t = true) ts ->
  Text.split Text.DELIMITER (untokens ts) = ts ++ [""].
Proof.
  induction 1 as [|t ts Ht _ IH]; [done|].
  rewrite untokens_cons, append_cons, append_nil_l.
  apply andb_true_iff in Ht as [Ht _].
  rewrite split_app; [|done..]. by rewrite IH.
Qed.

(** *** Decimal rendering of integers *)

Lemma digits_uint d : forall acc,
  Text.digits Text.digit 10 (Some acc) (NilEmpty.string_of_uint d) = Some (uintValue d acc).
Proof.
  induction d; intros acc; cbn [NilEmpty.string_of_uint Text.digits uintValue]; [done|..];
    eval_digit; cbn [default]; rewrite ?Z.add_0_r; apply IHd.
Qed.

Lemma parseInt_uint d :
  d <> Decimal.Nil ->
  Text.parseInt (NilEmpty.string_of_uint d) = Int (uintValue d 0)
  /\ Text.parseInt (String "-" (NilEmpty.string_of_uint d)) = Int (- uintValue d 0).
Proof.
  intros Hd. destruct d as [|d|d|d|d|d|d|d|d|d|d]; [done|..].
  1: destruct d.
  all: unfold Text.parseInt; cbn [NilEmpty.string_of_uint Text.trimStart uintValue].
  all: eval_digit; cbn [Text.digits]; eval_digit; cbn [default].
  all: rewrite ?digits_uint; unfold id; rewrite ?Z.mul_1_l.
  all: split; first [done | f_equal; f_equal; lia | f_equal; lia].
Qed.

Lemma uintValue_of_uint_acc d : forall acc,
  uintValue d (Z.pos acc) = Z.pos (Pos.of_uint_acc d acc).
Proof.
  induction d; intros acc; cbn [uintValue Pos.of_uint_acc]; [done|..];
    rewrite <- IHd; f_equal; lia.
Qed.

Lemma uintValue_of_uint d : uintValue d 0 = Z.of_uint d.
Proof.
  unfold Z.of_uint.
  induction d; cbn [uintValue Pos.of_uint]; [done|done|..];
    change (10 * 0 + ?k) with k; by rewrite uintValue_of_uint_acc.
Qed.

(** [parseInt] reads back the decimal rendering of an integer-valued number. *)
Lemma parseInt_ofInt n : Text.parseInt (Text.ofInt n) = n.
Proof.
  destruct n as [z|]; [|done]. unfold Text.ofInt.
  destruct z as [|p|p]; [done|..]; cbn [Z.to_int NilZero.string_of_int];
    pose proof (Unsigned.to_uint_nonnil p) as Hp;
    pose proof (parseInt_uint _ Hp) as [H1 H2];
    (replace (NilZero.string_of_uint (Pos.to_uint p))
       with (NilEmpty.string_of_uint (Pos.to_uint p))
       by (by destruct (Pos.to_uint p)));
    rewrite ?H1, ?H2, uintValue_of_uint; unfold Z.of_uint;
    by rewrite DecimalPos.Unsigned.of_to.
Qed.

Lemma isToken_uint d : isToken (NilEmpty.string_of_uint d) = true.
Proof. induction d; [done|..]; apply IHd. Qed.

Lemma isToken_ofInt n : isToken (Text.ofInt n) = true.
Proof.
  destruct n as [z|]; [|done]. unfold Text.ofInt.
  destruct z as [|p|p]; [done|..]; cbn [Z.to_int NilZero.string_of_int];
    pose proof (Unsigned.to_uint_nonnil p) as Hp;
    (replace (NilZero.string_of_uint (Pos.to_uint p))
       with (NilEmpty.string_of_uint (Pos.to_uint p))
       by (by destruct (Pos.to_uint p))).
  - apply isToken_uint.
  - apply (isToken_uint (Pos.to_uint p)).
Qed.

(** *** The written header and the header parser *)

Lemma writeHeaderOfProperty_line p :
  writeHeaderOfProperty p = propertyLine p +:+ "
".
Proof.
  unfold writeHeaderOfProperty, propertyLine. by rewrite !append_assoc.
Qed.

Lemma writeHeaderOfElement_lines e :
  writeHeaderOfElement e = unlines (elementLines e).
Proof.
  unfold writeHeaderOfElement, elementLines.
  rewrite unlines_cons, !append_assoc. do 5 f_equal.
  unfold unlines. rewrite map_map. f_equal. apply map_ext. intros p.
  apply writeHeaderOfProperty_line.
Qed.

Lemma unlines_concat (lss : list (list string)) :
  unlines (concat lss) = String.concat "" (map unlines lss).
Proof.
  induction lss as [|ls lss IH]; [done|].
  cbn [concat map]. by rewrite unlines_app, String_concat_cons, IH.
Qed.

Lemma unlines_map {A : Type} (f : A -> string) (g : A -> string) xs :
  (forall x, g x = f x +:+ "
") ->
  unlines (map f xs) = String.concat "" (map g xs).
Proof.
  intros H. unfold unlines. rewrite map_map. f_equal. apply map_ext. intros x. by rewrite H.
Qed.

(** The text of [_writeHeader] is the text of its lines. *)
Lemma writeHeader_lines st : _writeHeader st = unlines (headerTextLines st).
Proof.
  unfold _writeHeader, headerTextLines.
  rewrite !unlines_app, unlines_concat.
  rewrite (unlines_map _ (fun c => "comment " +:+ c +:+ "
")) by (intros; by rewrite append_assoc).
  rewrite (unlines_map _ (fun c => "obj_info " +:+ c +:+ "
")) by (intros; by rewrite append_assoc).
  rewrite map_map.
  rewrite (map_ext (fun x => unlines (elementLines x)) writeHeaderOfElement)
    by (intros; by rewrite writeHeaderOfElement_lines).
  unfold unlines. cbn [map String.concat].
  by rewrite !append_assoc, !append_cons, !append_nil_l, ?append_nil_r.
Qed.

Lemma headerLine_comment st c :
  headerLine st ("comment " +:+ c) = Next (pushComment st c).
Proof.
  unfold headerLine. rewrite bool_decide_eq_false_2 by done.
  replace (Text.startsWith ("comment " +:+ c) "comment") with true by (vm_compute; reflexivity).
  done.
Qed.

Lemma headerLine_obj_info st c :
  headerLine st ("obj_info " +:+ c) = Next (pushObjInfoComment st c).
Proof.
  unfold headerLine. rewrite bool_decide_eq_false_2 by done.
  replace (Text.startsWith ("obj_info " +:+ c) "comment") with false by (vm_compute; reflexivity).
  replace (Text.startsWith ("obj_info " +:+ c) "obj_info") with true by (vm_compute; reflexivity).
  done.
Qed.

Lemma headerLine_element st n c :
  isToken n = true ->
  headerLine st ("element " +:+ n +:+ " " +:+ Text.ofInt c)
  = Next (pushElement st {| name := n; count := c; properties := [] |}).
Proof.
  intros Hn. unfold headerLine. rewrite bool_decide_eq_false_2 by done.
  replace (Text.startsWith _ "comment") with false by (vm_compute; reflexivity).
  replace (Text.startsWith _ "obj_info") with false by (vm_compute; reflexivity).
  replace (Text.startsWith _ "element") with true by (vm_compute; reflexivity).
  apply andb_true_iff in Hn as [Hn _].
  pose proof (isToken_ofInt c) as Hc. apply andb_true_iff in Hc as [Hc _].
  change ("element " +:+ n +:+ " " +:+ Text.ofInt c)
    with ("element" +:+ String " " (n +:+ String " " (Text.ofInt c))).
  rewrite split_app by done. rewrite split_app by done. rewrite split_free by done.
  by rewrite parseInt_ofInt.
Qed.

Lemma isToken_toString ty : isToken (PropertyType.toString ty) = true.
Proof. by destruct ty. Qed.

Lemma createPropertyWithType_declared p :
  createPropertyWithType (Property.name p) (PropertyType.toString (Property.type p))
    (match p with TypedProperty _ _ _ => false | _ => true end)
    (match p with TypedProperty _ _ _ => "" | _ => "uchar" end)
  = Some (declareProperty p).
Proof. destruct p as [n ty vs|n ty lcb d s]; by destruct ty. Qed.

Lemma headerLine_property st p :
  isToken (Property.name p) = true ->
  (length (elements st) =? 0)%nat = false ->
  headerLine st (propertyLine p) = Next (pushPropertyToLast st (declareProperty p)).
Proof.
  intros Hn Hst. apply andb_true_iff in Hn as [Hn _].
  pose proof (isToken_toString (Property.type p)) as Hty.
  apply andb_true_iff in Hty as [Hty _].
  pose proof (createPropertyWithType_declared p) as Hp.
  unfold headerLine, propertyLine.
  destruct p as [n ty vs|n ty lcb d s]; cbn [Property.name Property.type] in *.
  - rewrite bool_decide_eq_false_2 by done.
    replace (Text.startsWith _ "comment") with false by (vm_compute; reflexivity).
    replace (Text.startsWith _ "obj_info") with false by (vm_compute; reflexivity).
    replace (Text.startsWith _ "element") with false by (vm_compute; reflexivity).
    replace (Text.startsWith _ "property list") with false
      by (destruct ty; vm_compute; reflexivity).
    replace (Text.startsWith _ "property") with true by (vm_compute; reflexivity).
    change ("property" +:+ " " +:+ PropertyType.toString ty +:+ " " +:+ n)
      with ("property" +:+ String " " (PropertyType.toString ty +:+ String " " n)).
    rewrite split_app by done. rewrite split_app by done. rewrite split_free by done.
    by rewrite Hst, Hp.
  - rewrite bool_decide_eq_false_2 by done.
    replace (Text.startsWith _ "comment") with false by (vm_compute; reflexivity).
    replace (Text.startsWith _ "obj_info") with false by (vm_compute; reflexivity).
    replace (Text.startsWith _ "element") with false by (vm_compute; reflexivity).
    replace (Text.startsWith _ "property list") with true by (vm_compute; reflexivity).
    change ("property list uchar" +:+ " " +:+ PropertyType.toString ty +:+ " " +:+ n)
      with ("property" +:+ String " " ("list" +:+ String " " ("uchar" +:+ String " "
              (PropertyType.toString ty +:+ String " " n)))).
    rewrite split_app by done. rewrite split_app by done. rewrite split_app by done.
    rewrite split_app by done. rewrite split_free by done.
    by rewrite Hst, Hp.
Qed.

Lemma headerLine_end_header st : headerLine st "end_header" = Break.
Proof. by vm_compute. Qed.

Section WrittenHeader.

Variables (ty ver : string).

Lemma headerLines_comments os es cs' : forall cs rest,
  headerLines (PlyData_of ty ver cs os es) (map (fun c => "comment " +:+ c) cs' ++ rest)
  = headerLines (PlyData_of ty ver (cs ++ cs') os es) rest.
Proof.
  induction cs' as [|c cs' IH]; intros cs rest; [by rewrite app_nil_r|].
  cbn [map app headerLines]. rewrite headerLine_comment.
  change (pushComment (PlyData_of ty ver cs os es) c) with (PlyData_of ty ver (cs ++ [c]) os es).
  rewrite IH. by rewrite <- app_assoc.
Qed.

Lemma headerLines_obj_info cs es os' : forall os rest,
  headerLines (PlyData_of ty ver cs os es) (map (fun c => "obj_info " +:+ c) os' ++ rest)
  = headerLines (PlyData_of ty ver cs (os ++ os') es) rest.
Proof.
  induction os' as [|c os' IH]; intros os rest; [by rewrite app_nil_r|].
  cbn [map app headerLines]. rewrite headerLine_obj_info.
  change (pushObjInfoComment (PlyData_of ty ver cs os es) c) with (PlyData_of ty ver cs (os ++ [c]) es).
  rewrite IH. by rewrite <- app_assoc.
Qed.

Lemma headerLines_properties cs os es n c ps : forall ps0 rest,
  Forall (fun p => isToken (Property.name p) = true) ps ->
  headerLines (PlyData_of ty ver cs os (es ++ [{| name := n; count := c; properties := ps0 |}]))
    (map propertyLine ps ++ rest)
  = headerLines
      (PlyData_of ty ver cs os (es ++ [{| name := n; count := c;
                           properties := ps0 ++ map declareProperty ps |}])) rest.
Proof.
  induction ps as [|p ps IH]; intros ps0 rest Hps; [by rewrite app_nil_r|].
  apply Forall_cons in Hps as [Hp Hps].
  cbn [map app headerLines]. rewrite headerLine_property; [|done|].
  2:{ cbn. rewrite length_app. cbn. apply Nat.eqb_neq. lia. }
  replace (pushPropertyToLast
             (PlyData_of ty ver cs os (es ++ [{| name := n; count := c; properties := ps0 |}]))
             (declareProperty p))
    with (PlyData_of ty ver cs os (es ++ [{| name := n; count := c;
                              properties := ps0 ++ [declareProperty p] |}])).
  { rewrite IH by done. by rewrite <- app_assoc. }
  unfold pushPropertyToLast, PlyData_of; cbn [elements header]. f_equal.
  rewrite length_app. cbn [length].
  replace (length es + 1 - 1)%nat with (length es + 0)%nat by lia.
  by rewrite alter_app_r.
Qed.

Lemma headerLines_elements cs os es' : forall es rest,
  Forall (fun e => isToken (name e) = true
                   /\ Forall (fun p => isToken (Property.name p) = true) (properties e)) es' ->
  headerLines (PlyData_of ty ver cs os es) (concat (map elementLines es') ++ rest)
  = headerLines (PlyData_of ty ver cs os (es ++ map declareElement es')) rest.
Proof.
  induction es' as [|e es' IH]; intros es rest Hes; [by rewrite app_nil_r|].
  apply Forall_cons in Hes as [[Hn Hps] Hes].
  cbn [map concat]. unfold elementLines at 1.
  rewrite <- !app_assoc, <- app_comm_cons. cbn [headerLines].
  rewrite headerLine_element by done.
  change (pushElement (PlyData_of ty ver cs os es) ?e) with (PlyData_of ty ver cs os (es ++ [e])).
  rewrite headerLines_properties by done.
  rewrite IH by done. by rewrite <- app_assoc.
Qed.

End WrittenHeader.

(** The header parser on the lines of the written header gives the model
    that the header declares. *)
Lemma parseHeader_written st :
  version (header st) = "1.0" -> named st ->
  _parseHeader new_PlyData (headerTextLines st ++ [""]) = (true, declared st).
Proof.
  intros Hver (Hcs & Hos & Hes). unfold headerTextLines, _parseHeader. rewrite Hver.
  cbn [app lookup list_lookup].
  change (Text.trim "ply") with "ply". rewrite bool_decide_eq_false_2 by (by intros []).
  change (Text.split Text.DELIMITER ("format ascii " +:+ "1.0")) with ["format"; "ascii"; "1.0"].
  cbn [setFormat header version]. rewrite !bool_decide_eq_false_2 by (by intros []).
  change (setFormat new_PlyData "ascii" "1.0")
    with (PlyData_of "ascii" "1.0" ([] ++ []) ([] ++ []) ([] ++ [])).
  cbn [skipn]. rewrite drop_0, <- !app_assoc.
  rewrite headerLines_comments, headerLines_obj_info, headerLines_elements by done.
  cbn [app headerLines]. rewrite headerLine_end_header.
  unfold declared. by rewrite Hver.
Qed.

(** *** An index that is kept in order *)

Lemma jsint_le_trans a b c : jsint_le a b -> jsint_le b c -> jsint_le a c.
Proof. destruct a, b, c; cbn; try done. lia. Qed.

Lemma nondecreasing_lookup s : nondecreasing s ->
  forall j i x y, s !! i = Some x -> s !! (i + j)%nat = Some y -> x = y \/ jsint_le x y.
Proof.
  intros Hs. induction j as [|j IH]; intros i x y Hx Hy.
  - rewrite Nat.add_0_r in Hy. left. congruence.
  - right. replace (i + S j)%nat with (S (i + j)) in Hy by lia.
    destruct (s !! (i + j)%nat) as [z|] eqn:Hz.
    2:{ apply lookup_ge_None in Hz. apply lookup_lt_Some in Hy. lia. }
    pose proof (Hs _ _ _ Hz Hy) as Hzy.
    destruct (IH _ _ _ Hx Hz) as [->|Hxz]; [done|]. by eapply jsint_le_trans.
Qed.

Lemma sliced_entry (d : list number) s i x :
  s !! 0%nat = Some (Int 0) -> nondecreasing s ->
  last s = Some (Int (Z.of_nat (length d))) ->
  s !! i = Some x ->
  exists a : nat, x = Int (Z.of_nat a) /\ (a <= length d)%nat.
Proof.
  intros H0 Hs Hlast Hx.
  assert (exists z, x = Int z /\ 0 <= z) as (z & -> & Hz).
  { destruct (nondecreasing_lookup s Hs i 0%nat _ _ H0 Hx) as [<-|Hle]; [by exists 0|].
    destruct x as [z|]; [|done]. by exists z. }
  rewrite last_lookup in Hlast.
  assert (i <= pred (length s))%nat as Hi by (apply lookup_lt_Some in Hx; lia).
  replace (pred (length s)) with (i + (pred (length s) - i))%nat in Hlast by lia.
  exists (Z.to_nat z). split; [f_equal; lia|].
  destruct (nondecreasing_lookup s Hs _ _ _ _ Hx Hlast) as [Heq|Hle].
  - injection Heq as ->. lia.
  - cbn in Hle. lia.
Qed.

(** The entries of an index in order are slices of the data. *)
Lemma sliced_bounds n ty lcb d s k N :
  indexed N (TypedListProperty n ty lcb d s) -> sliced (TypedListProperty n ty lcb d s) ->
  (k < N)%nat ->
  exists a b : nat, s !! k = Some (Int (Z.of_nat a)) /\ s !! S k = Some (Int (Z.of_nat b))
                    /\ (a <= b <= length d)%nat.
Proof.
  intros [H0 Hlen] [Hs Hlast] Hk.
  destruct (s !! k) as [x|] eqn:Hx.
  2:{ apply lookup_ge_None in Hx. lia. }
  destruct (s !! S k) as [y|] eqn:Hy.
  2:{ apply lookup_ge_None in Hy. lia. }
  destruct (sliced_entry d s _ _ H0 Hs Hlast Hx) as (a & -> & Ha).
  destruct (sliced_entry d s _ _ H0 Hs Hlast Hy) as (b & -> & Hb).
  exists a, b. repeat split; [|done]. pose proof (Hs _ _ _ Hx Hy) as Hle. cbn in Hle. lia.
Qed.

Lemma firstInstances_all N p : indexed N p -> sliced p -> firstInstances N p = p.
Proof.
  destruct p as [n ty vs|n ty lcb d s]; cbn [indexed sliced firstInstances].
  - intros <- _. by rewrite firstn_all.
  - intros [H0 Hlen] [Hs Hlast]. rewrite last_lookup, Hlen in Hlast. cbn [pred] in Hlast.
    rewrite Hlast. cbn [default from_option id iterations]. rewrite Nat2Z.id, firstn_all.
    by rewrite <- Hlen, firstn_all.
Qed.

Lemma firstInstances_0 N p : indexed N p -> firstInstances 0 p = 
  match p with
  | TypedProperty n ty _ => TypedProperty n ty []
  | TypedListProperty n ty lcb _ _ => TypedListProperty n ty lcb [] [Int 0]
  end.
Proof.
  destruct p as [n ty vs|n ty lcb d s]; cbn [indexed firstInstances]; [done|].
  intros [H0 Hlen]. rewrite H0. cbn [default from_option id iterations]. cbn [Z.to_nat take].
  destruct s as [|x s]; [done|]. cbn in H0. injection H0 as ->. done.
Qed.

Lemma Forall2_given_r {A B : Type} (R R' : A -> B -> Prop) (P : B -> Prop) l k :
  Forall2 R l k -> Forall P k -> (forall x y, R x y -> P y -> R' x y) -> Forall2 R' l k.
Proof.
  intros HR HP Himp. induction HR as [|x y l k Hxy _ IH]; [done|].
  apply Forall_cons in HP as [Hy HP]. constructor; [by apply Himp|by apply IH].
Qed.

(** *** The ASCII decoder on the written body

    [fmt] is the decimal rendering of a floating value and [same_double]
    says when two sources denote the same double; a rendered value holds no
    white space and parses back to the same double. *)

Section RoundTrip.

Variable fmt : ieee -> string.
Variable same_double : ieee -> ieee -> Prop.
Hypothesis fmt_token : forall f, isToken (fmt f) = true.
Hypothesis fmt_parse : forall f, same_double (Literal (fmt f)) f.

Lemma concat_spaced ts :
  String.concat "" (map (fun t => " " +:+ t) ts) +:+ " " = " " +:+ untokens ts.
Proof.
  induction ts as [|t ts IH]; [done|].
  rewrite map_cons, String_concat_cons, untokens_cons, !append_assoc, IH.
  by rewrite !append_cons, !append_nil_l.
Qed.

Lemma writeProperty_tokens p index :
  writeProperty fmt p index = untokens (propertyTokens fmt p index).
Proof.
  destruct p as [n ty vs|n ty lcb d s]; cbn [writeProperty propertyTokens].
  - by rewrite untokens_cons, append_nil_r.
  - rewrite untokens_cons. f_equal.
    rewrite <- concat_spaced. rewrite map_map. done.
Qed.

Lemma untokens_concat (tss : list (list string)) :
  untokens (concat tss) = String.concat "" (map untokens tss).
Proof.
  induction tss as [|ts tss IH]; [done|].
  cbn [concat map]. by rewrite untokens_app, String_concat_cons, IH.
Qed.

Lemma writeInstance_line e index :
  writeInstance fmt e index = instanceLine fmt e index +:+ "
".
Proof.
  unfold writeInstance, instanceLine. f_equal.
  rewrite untokens_concat, map_map. f_equal. apply map_ext. intros p.
  apply writeProperty_tokens.
Qed.

Lemma writeElement_lines e : writeElement fmt e = unlines (elementBodyLines fmt e).
Proof.
  unfold writeElement, elementBodyLines. symmetry. apply unlines_map.
  intros i. apply writeInstance_line.
Qed.

(** The text of [save] is the text of the header lines and the body lines. *)
Lemma save_lines st :
  (save fmt st).2 = unlines (headerTextLines st) +:+ unlines (bodyLines fmt st).
Proof.
  unfold save, bodyLines. cbn [snd]. rewrite writeHeader_lines. f_equal.
  rewrite unlines_concat, map_map. f_equal. apply map_ext. intros e.
  apply writeElement_lines.
Qed.

Lemma isToken_ofNumber v : isToken (ofNumber fmt v) = true.
Proof. destruct v as [[n|f]|]; [apply isToken_ofInt|apply fmt_token|done]. Qed.

Lemma parseValue_written ty v :
  typedValue ty v ->
  same_number same_double (Property.parseValue (Some (ofNumber fmt (Some v))) ty) v.
Proof.
  destruct ty, v as [n|f]; cbn [typedValue]; try done; intros _;
    cbn [Property.parseValue Text.ofToken ofNumber same_number Text.parseFloat];
    try apply parseInt_ofInt; apply fmt_parse.
Qed.

Lemma parseItems_written ty its : forall pre post data,
  Property.parseItems (length its) (pre ++ its ++ post) (length pre) ty data
  = (data ++ map (fun t => Property.parseValue (Some t) ty) its,
     (length pre + length its)%nat).
Proof.
  induction its as [|t its IH]; intros pre post data.
  - cbn. by rewrite app_nil_r, Nat.add_0_r.
  - cbn [length Property.parseItems].
    rewrite lookup_app_r by lia. rewrite Nat.sub_diag. cbn [app lookup list_lookup].
    replace (pre ++ t :: its ++ post) with ((pre ++ [t]) ++ its ++ post)
      by (by rewrite <- app_assoc).
    replace (S (length pre)) with (length (pre ++ [t])) by (rewrite length_app; cbn; lia).
    rewrite IH. rewrite length_app. cbn [length map]. f_equal; [|lia].
    by rewrite <- app_assoc.
Qed.

Lemma range_tokens (d : list number) m : forall a : nat,
  (a + m <= length d)%nat ->
  map (fun i => ofNumber fmt (at_ d i)) (seqZ (Z.of_nat a) (Z.of_nat m))
  = map (fun v => ofNumber fmt (Some v)) (take m (drop a d)).
Proof.
  induction m as [|m IH]; intros a Ha; [done|].
  rewrite seqZ_cons by lia.
  replace (Z.succ (Z.of_nat a)) with (Z.of_nat (S a)) by lia.
  replace (Z.pred (Z.of_nat (S m))) with (Z.of_nat m) by lia.
  destruct (d !! a) as [v|] eqn:Hv.
  2:{ apply lookup_ge_None in Hv. lia. }
  rewrite (drop_S _ _ _ Hv). cbn [take map]. rewrite IH by lia. f_equal.
  unfold at_. destruct (Z.ltb_spec (Z.of_nat a) 0) as [|_]; [lia|].
  by rewrite Nat2Z.id, Hv.
Qed.

(** [parseNext] on the tokens written for record [k], after the first [k]
    records, gives the first [k + 1] records and passes those tokens. *)
Lemma parseNext_written N p q k pre post :
  typed p -> indexed N p -> sliced p -> (k < N)%nat ->
  same_property same_double q (firstInstances k p) ->
  exists q',
    Property.parseNext q (pre ++ propertyTokens fmt p k ++ post) (length pre)
    = (q', (length pre + length (propertyTokens fmt p k))%nat)
    /\ same_property same_double q' (firstInstances (S k) p).
Proof.
  intros Hty Hix Hsl Hk Hq.
  destruct p as [n ty vs|n ty lcb d s].
  - destruct q as [n' ty' vs'|]; [|done]. destruct Hq as (-> & -> & Hvs).
    cbn [indexed typed] in *.
    destruct (vs !! k) as [v|] eqn:Hv.
    2:{ apply lookup_ge_None in Hv. lia. }
    cbn [propertyTokens Property.parseNext]. rewrite Hv.
    rewrite lookup_app_r by lia. rewrite Nat.sub_diag. cbn [app lookup list_lookup length].
    eexists. split; [f_equal; lia|].
    cbn [firstInstances same_property]. repeat split.
    rewrite (take_S_r _ _ _ Hv). apply Forall2_app; [done|].
    constructor; [|done]. apply parseValue_written.
    rewrite Forall_lookup in Hty. by eapply Hty.
  - destruct q as [|n' ty' lcb' d' s']; [done|].
    destruct (sliced_bounds _ _ _ _ _ _ _ Hix Hsl Hk) as (a & b & Ha & Hb & Hab).
    cbn [firstInstances same_property] in Hq. rewrite Ha in Hq.
    cbn [default from_option id iterations] in Hq. rewrite Nat2Z.id in Hq.
    destruct Hq as (-> & -> & Hd & ->).
    assert (length d' = a) as Hlen.
    { apply Forall2_length in Hd. rewrite length_take in Hd. lia. }
    cbn [propertyTokens]. rewrite Ha, Hb. cbn [jsint_sub range].
    replace (Z.of_nat b - Z.of_nat a) with (Z.of_nat (b - a)) by lia.
    rewrite range_tokens by lia.
    set (its := map (fun v => ofNumber fmt (Some v)) (take (b - a) (drop a d))).
    assert (length its = (b - a)%nat) as Hits.
    { unfold its. rewrite length_map, length_take, length_drop. lia. }
    cbn [Property.parseNext].
    rewrite lookup_app_r by lia. rewrite Nat.sub_diag. cbn [app lookup list_lookup].
    cbn [Text.ofToken]. rewrite parseInt_ofInt. cbn [iterations]. rewrite Nat2Z.id.
    replace (pre ++ Text.ofInt (Int (Z.of_nat (b - a))) :: its ++ post)
      with ((pre ++ [Text.ofInt (Int (Z.of_nat (b - a)))]) ++ its ++ post)
      by (by rewrite <- app_assoc).
    replace (S (length pre)) with (length (pre ++ [Text.ofInt (Int (Z.of_nat (b - a)))]))
      by (rewrite length_app; cbn; lia).
    pose proof (parseItems_written ty its
                  (pre ++ [Text.ofInt (Int (Z.of_nat (b - a)))]) post d') as Hpi.
    rewrite Hits in Hpi. rewrite Hpi. clear Hpi.
    eexists. split.
    { f_equal. rewrite length_app. cbn [length]. lia. }
    cbn [firstInstances same_property]. rewrite Hb.
    cbn [default from_option id iterations jsint_add]. rewrite Nat2Z.id.
    repeat split.
    + replace (take b d) with (take a d ++ take (b - a) (drop a d)).
      2:{ rewrite <- (take_drop a d) at 3. rewrite take_app_ge by (rewrite length_take; lia).
          rewrite length_take. f_equal. f_equal. lia. }
      apply Forall2_app; [done|]. unfold its. rewrite map_map.
      apply Forall2_fmap_l, Forall_Forall2_diag.
      cbn [typed] in Hty.
      assert (Forall (typedValue ty) (take (b - a) (drop a d))) as Hsub.
      { by apply Forall_take, Forall_drop. }
      eapply Forall_impl; [exact Hsub|]. intros v Hv. by apply parseValue_written.
    + rewrite (take_S_r _ _ _ Hb). f_equal. f_equal. f_equal. lia.
Qed.

Lemma parseProperties_written N k ps : forall qs pre post,
  Forall (fun p => typed p /\ decoded N p) ps -> (k < N)%nat ->
  Forall2 (fun q p => same_property same_double q (firstInstances k p)) qs ps ->
  exists qs' i,
    parseProperties (pre ++ concat (map (fun p => propertyTokens fmt p k) ps) ++ post)
      qs (length pre) = (qs', Returns i)
    /\ Forall2 (fun q p => same_property same_double q (firstInstances (S k) p)) qs' ps.
Proof.
  induction ps as [|p ps IH]; intros qs pre post Hps Hk Hqs.
  - apply Forall2_nil_inv_r in Hqs as ->. by exists [], (length pre).
  - apply Forall2_cons_inv_r in Hqs as (q & qs0 & Hq & Hqs & ->).
    apply Forall_cons in Hps as [(Hty & Hix & Hsl) Hps].
    cbn [map concat]. rewrite <- app_assoc.
    destruct (parseNext_written N p q k pre (concat (map (fun p => propertyTokens fmt p k) ps) ++ post)
                Hty Hix Hsl Hk Hq) as (q' & Hnext & Hq').
    destruct (IH qs0 (pre ++ propertyTokens fmt p k) post Hps Hk Hqs) as (qs' & i & Hrest & Hqs').
    rewrite <- app_assoc, length_app in Hrest.
    exists (q' :: qs'), i. split; [|by constructor].
    unfold parseProperties in *. cbn [forEach]. rewrite Hnext. by rewrite Hrest.
Qed.

Lemma isToken_propertyTokens p k :
  Forall (fun t => isToken t = true) (propertyTokens fmt p k).
Proof.
  destruct p as [n ty vs|n ty lcb d s]; cbn [propertyTokens].
  - constructor; [apply isToken_ofNumber|done].
  - constructor; [apply isToken_ofInt|]. apply Forall_map, Forall_forall. intros i _.
    apply isToken_ofNumber.
Qed.

Lemma parseAsciiInstance_written N k e qs lines lineCount :
  properties e <> [] ->
  Forall (fun p => typed p /\ decoded N p) (properties e) -> (k < N)%nat ->
  Forall2 (fun q p => same_property same_double q (firstInstances k p)) qs (properties e) ->
  lines !! lineCount = Some (instanceLine fmt e k) ->
  exists qs',
    parseAsciiInstance lines qs lineCount = (qs', Returns (S lineCount))
    /\ Forall2 (fun q p => same_property same_double q (firstInstances (S k) p))
         qs' (properties e).
Proof.
  intros Hne Hps Hk Hqs Hline.
  unfold parseAsciiInstance. rewrite Hline.
  assert ((length qs =? 0)%nat = false) as ->.
  { apply Nat.eqb_neq. apply Forall2_length in Hqs. rewrite Hqs.
    destruct (properties e); [done|]. cbn. lia. }
  unfold instanceLine. rewrite split_untokens.
  2:{ apply Forall_concat, Forall_map, Forall_forall. intros p _.
      apply isToken_propertyTokens. }
  destruct (parseProperties_written N k (properties e) qs [] [""] Hps Hk Hqs)
    as (qs' & i & Hparse & Hqs').
  cbn [app length] in Hparse. rewrite Hparse. by exists qs'.
Qed.

Lemma times_written e lines base :
  let N := iterations (count e) in
  (properties e = [] -> N = 0%nat) ->
  Forall (fun p => typed p /\ decoded N p) (properties e) ->
  (forall k, (k < N)%nat -> lines !! (base + k)%nat = Some (instanceLine fmt e k)) ->
  forall m k qs, (k + m = N)%nat ->
    Forall2 (fun q p => same_property same_double q (firstInstances k p)) qs (properties e) ->
    exists qs',
      times m (parseAsciiInstance lines) qs (base + k)%nat = (qs', Returns (base + N)%nat)
      /\ Forall2 (fun q p => same_property same_double q (firstInstances N p))
           qs' (properties e).
Proof.
  intros N Hne Hps Hlines. induction m as [|m IH]; intros k qs Hkm Hqs.
  - replace k with N in * by lia. by exists qs.
  - assert (properties e <> []) as Hne' by (intros H; apply Hne in H; lia).
    destruct (parseAsciiInstance_written N k e qs lines (base + k) Hne' Hps) as (qs1 & H1 & Hqs1);
      [lia|done|apply Hlines; lia|].
    destruct (IH (S k) qs1) as (qs' & H' & Hqs'); [lia|done|].
    exists qs'. split; [|done]. cbn [times]. rewrite H1.
    by replace (S (base + k)) with (base + S k)%nat by lia.
Qed.

Lemma same_property_declared N p :
  indexed N p -> same_property same_double (declareProperty p) (firstInstances 0 p).
Proof.
  intros Hix. rewrite (firstInstances_0 N p Hix).
  by destruct p as [n ty vs|n ty lcb d s].
Qed.

Lemma parseAsciiElement_written e lines base :
  let N := iterations (count e) in
  (properties e = [] -> N = 0%nat) ->
  Forall (fun p => typed p /\ decoded N p) (properties e) ->
  (forall k, (k < N)%nat -> lines !! (base + k)%nat = Some (instanceLine fmt e k)) ->
  exists e',
    parseAsciiElement lines (declareElement e) base = (e', Returns (base + N)%nat)
    /\ same_element same_double e' e.
Proof.
  intros N Hne Hps Hlines.
  destruct (times_written e lines base Hne Hps Hlines N 0%nat
              (map declareProperty (properties e))) as (qs' & Htimes & Hqs'); [done|..].
  { apply Forall2_fmap_l, Forall_Forall2_diag. eapply Forall_impl; [exact Hps|].
    intros p (_ & Hix & _). by eapply same_property_declared. }
  rewrite Nat.add_0_r in Htimes.
  exists (withProperties (declareElement e) qs'). split.
  - unfold parseAsciiElement. cbn [declareElement withProperties count properties].
    fold N. by rewrite Htimes.
  - repeat split. cbn [withProperties properties].
    eapply Forall2_given_r; [exact Hqs'|exact Hps|].
    intros q p Hq (_ & Hix & Hsl). cbn beta in Hq. by rewrite firstInstances_all in Hq.
Qed.

Lemma forEach_written es : forall pre post,
  Forall recorded es ->
  exists es' i,
    forEach (parseAsciiElement (pre ++ concat (map (elementBodyLines fmt) es) ++ post))
      (map declareElement es) (length pre) = (es', Returns i)
    /\ Forall2 (same_element same_double) es' es.
Proof.
  induction es as [|e es IH]; intros pre post Hes.
  - by exists [], (length pre).
  - apply Forall_cons in Hes as [[Hne Hps] Hes].
    cbn [map concat]. rewrite <- app_assoc.
    set (lines := pre ++ elementBodyLines fmt e ++ concat (map (elementBodyLines fmt) es) ++ post).
    destruct (parseAsciiElement_written e lines (length pre)
                Hne Hps) as (e' & He & He').
    { intros k Hk. unfold lines. rewrite lookup_app_r by lia.
      replace (length pre + k - length pre)%nat with k by lia.
      rewrite lookup_app_l by (unfold elementBodyLines; rewrite length_map, length_seq; lia).
      unfold elementBodyLines. rewrite list_lookup_fmap, lookup_seq_lt by done. done. }
    destruct (IH (pre ++ elementBodyLines fmt e) post Hes) as (es' & i & Hrest & Hes').
    assert (length (elementBodyLines fmt e) = iterations (count e)) as Hlen.
    { unfold elementBodyLines. by rewrite length_map, length_seq. }
    rewrite <- app_assoc, length_app, Hlen in Hrest. fold lines in Hrest.
    exists (e' :: es'), i. split; [|by constructor].
    cbn [forEach]. rewrite He. by rewrite Hrest.
Qed.

(** The ASCII decoder on the declared model and the written body lines gives
    a model that agrees with the written one. *)
Lemma parseAscii_written st post :
  Forall recorded (elements st) ->
  exists st' i,
    _parseAscii (declared st) (bodyLines fmt st ++ post) = (st', Returns i)
    /\ same_model same_double st' st.
Proof.
  intros Hes.
  destruct (forEach_written (elements st) [] post Hes) as (es' & i & H & Hes').
  cbn [app length] in H.
  exists (withElements (declared st) es'), i. split.
  - unfold _parseAscii, bodyLines. cbn [declared elements]. by rewrite H.
  - by repeat split.
Qed.

Lemma free_untokens sep ts :
  sep " "%char = false ->
  Forall (fun t => free sep t = true) ts -> free sep (untokens ts) = true.
Proof.
  intros Hsp. induction 1 as [|t ts Ht _ IH]; [done|].
  rewrite untokens_cons, !free_app, Ht, IH. cbn [free]. by rewrite Hsp.
Qed.

Lemma isLine_instanceLine e k : isLine (instanceLine fmt e k) = true.
Proof.
  apply free_untokens; [done|].
  apply Forall_concat, Forall_map, Forall_forall. intros p _.
  eapply Forall_impl; [apply isToken_propertyTokens|].
  intros t Ht. by apply andb_true_iff in Ht as [_ Ht].
Qed.

Lemma isLine_bodyLines st : Forall (fun l => isLine l = true) (bodyLines fmt st).
Proof.
  apply Forall_concat, Forall_map, Forall_forall. intros e _.
  apply Forall_map, Forall_forall. intros k _. apply isLine_instanceLine.
Qed.

Lemma isLine_isToken t : isToken t = true -> isLine t = true.
Proof. intros H. by apply andb_true_iff in H as [_ H]. Qed.

Lemma isLine_app s t : isLine (s +:+ t) = isLine s && isLine t.
Proof. apply free_app. Qed.

Lemma isLine_headerTextLines st :
  isLine (version (header st)) = true -> named st ->
  Forall (fun l => isLine l = true) (headerTextLines st).
Proof.
  intros Hver (Hcs & Hos & Hes). unfold headerTextLines.
  repeat apply Forall_app_2.
  - repeat constructor. by rewrite isLine_app, Hver.
  - apply Forall_map. eapply Forall_impl; [exact Hcs|]. intros c Hc.
    by rewrite isLine_app, Hc.
  - apply Forall_map. eapply Forall_impl; [exact Hos|]. intros c Hc.
    by rewrite isLine_app, Hc.
  - apply Forall_concat, Forall_map. eapply Forall_impl; [exact Hes|].
    intros e [Hn Hps]. constructor.
    + rewrite !isLine_app, (isLine_isToken _ Hn), (isLine_isToken _ (isToken_ofInt (count e))).
      done.
    + apply Forall_map. eapply Forall_impl; [exact Hps|]. intros p Hp.
      unfold propertyLine.
      rewrite !isLine_app, (isLine_isToken _ Hp),
        (isLine_isToken _ (isToken_toString (Property.type p))).
      by destruct p.
  - by repeat constructor.
Qed.

Lemma asLines_unlines ls :
  Forall (fun l => isLine l = true) ls ->
  asLines (list_byte_of_string (unlines ls)) = ls ++ [""].
Proof.
  intros Hls. unfold asLines, Buffer.toString. rewrite string_of_list_byte_of_string.
  rewrite <- (append_nil_r (unlines ls)). by rewrite split_unlines.
Qed.

(** Loading what [save] writes for a model with the [1.0] version, clean
    names, well laid out records and a proper [end_header] line gives a model
    that agrees with it. *)
Lemma reload_same st :
  version (header st) = "1.0" -> named st -> Forall recorded (elements st) -> marked st ->
  exists st', reload fmt st = (true, st') /\ same_model same_double st' st.
Proof.
  intros Hver Hnamed Hes [rest Hsplit].
  assert (isLine (version (header st)) = true) as Hverl by (by rewrite Hver).
  pose proof (isLine_headerTextLines st Hverl Hnamed) as Hhl.
  unfold reload. rewrite save_lines, list_byte_of_string_app.
  rewrite writeHeader_lines in Hsplit.
  set (head := list_byte_of_string (unlines (headerTextLines st))) in *.
  assert (_parseHeader new_PlyData (asLines head) = (true, declared st)) as Hhead.
  { unfold head. rewrite asLines_unlines by done. by apply parseHeader_written. }
  assert (forall body post,
            splitByEndHeader (head ++ body) = Some (head, post) ->
            forall more, asLines post = bodyLines fmt st ++ more ->
            exists st', load new_PlyData (head ++ body) = (true, st')
                        /\ same_model same_double st' st) as Hload.
  { intros body post Hs more Hpost.
    destruct (parseAscii_written st more Hes) as (st' & i & Hparse & Hsame).
    exists st'. split; [|done]. unfold load. rewrite Hs, Hhead.
    cbn [declared header type]. rewrite bool_decide_eq_true_2 by done.
    by rewrite Hpost, Hparse. }
  destruct (bodyLines fmt st) as [|l ls] eqn:Hbody.
  - apply (Hload [] rest) with (more := asLines rest); [by rewrite app_nil_r|done].
  - apply (Hload _ (list_byte_of_string (unlines (l :: ls))) ) with (more := [""]).
    + eapply splitByEndHeader_app; [exact Hsplit|].
      rewrite unlines_cons, list_byte_of_string_app. 
      destruct l; rewrite ?append_nil_l, ?append_cons; done.
    + rewrite asLines_unlines; [done|]. rewrite <- Hbody. apply isLine_bodyLines.
Qed.

End RoundTrip.

(** *** The accessors on models that agree *)

Section Accessors.

Variable same_double : ieee -> ieee -> Prop.

Lemma list_find_Forall2 {A : Type} (R : A -> A -> Prop) (P : A -> Prop)
    `{forall x, Decision (P x)} l' l :
  Forall2 R l' l -> (forall x' x, R x' x -> P x' <-> P x) ->
  option_Forall2 (fun f' f => f'.1 = f.1 /\ R f'.2 f.2) (list_find P l') (list_find P l).
Proof.
  intros HR HP. induction HR as [|x' x l' l Hx _ IH]; [constructor|].
  cbn [list_find]. destruct (decide (P x')) as [Hp'|Hp'], (decide (P x)) as [Hp|Hp].
  - by constructor.
  - by apply (HP _ _ Hx) in Hp'.
  - by apply (HP _ _ Hx) in Hp.
  - destruct IH as [[i' y'] [i y] [Hi Hy]|]; cbn; constructor. cbn in *. by subst.
Qed.

Lemma same_property_name q p : same_property same_double q p -> Property.name q = Property.name p.
Proof. destruct q, p; cbn; try done; by intros (-> & _). Qed.

Lemma findElement_same st' st n :
  same_model same_double st' st ->
  option_Forall2 (fun f' f => f'.1 = f.1 /\ same_element same_double f'.2 f.2)
    (findElement st' n) (findElement st n).
Proof.
  intros (_ & _ & _ & Hes). unfold findElement.
  apply list_find_Forall2; [done|]. intros e' e (Hn & _). by rewrite Hn.
Qed.

Lemma findProperty_same f' f n :
  option_Forall2 (fun f' f => f'.1 = f.1 /\ same_element same_double f'.2 f.2) f' f ->
  option_Forall2 (fun f' f => f'.1 = f.1 /\ same_property same_double f'.2 f.2)
    (findProperty f' n) (findProperty f n).
Proof.
  intros [[i' e'] [i e] [_ (_ & _ & Hps)]|]; [|constructor]. cbn [findProperty].
  cbn in Hps. apply list_find_Forall2; [done|]. intros q p Hqp.
  by rewrite (same_property_name _ _ Hqp).
Qed.

Lemma getValues_same q p :
  same_property same_double q p -> Forall2 (same_number same_double) (getValues q) (getValues p).
Proof. destruct q, p; cbn; try done. by intros (_ & _ & H). Qed.

Lemma interleave_same a' a : Forall2 (same_number same_double) a' a -> forall b' b c' c,
  Forall2 (same_number same_double) b' b -> Forall2 (same_number same_double) c' c ->
  Forall2 (same_number same_double) (interleave a' b' c') (interleave a b c).
Proof.
  induction 1 as [|x' x a' a Hx _ IH]; intros b' b c' c Hb Hc; [constructor|].
  cbn [interleave]. constructor; [done|].
  constructor; [by destruct Hb|]. constructor; [by destruct Hc|].
  apply IH; [by destruct Hb|by destruct Hc].
Qed.

(** Models that agree give the same vertex values. *)
Lemma getVertexValues_same st' st n c1 c2 c3 :
  same_model same_double st' st ->
  same_outcome (Forall2 (same_number same_double))
    (_getVertexValues st' n c1 c2 c3) (_getVertexValues st n c1 c2 c3).
Proof.
  intros Hst. unfold _getVertexValues.
  pose proof (findElement_same st' st n Hst) as He.
  destruct (findProperty_same _ _ c1 He) as [[? q1] [? p1] [_ H1]|]; [|done].
  destruct (findProperty_same _ _ c2 He) as [[? q2] [? p2] [_ H2]|]; [|done].
  destruct (findProperty_same _ _ c3 He) as [[? q3] [? p3] [_ H3]|]; [|done].
  cbn [snd] in *.
  apply getValues_same in H1, H2, H3.
  rewrite (Forall2_length _ _ _ H1), (Forall2_length _ _ _ H2), (Forall2_length _ _ _ H3).
  destruct (_ || _); [done|]. by apply interleave_same.
Qed.

Lemma getFaces_same st' st :
  same_model same_double st' st -> getFaces st' = getFaces st.
Proof.
  intros Hst. unfold getFaces.
  pose proof (findElement_same st' st "face" Hst) as He.
  assert (forall n, getIndices match findElement st' "face" with Some (e, _) => e | None => 0%nat end
                       (findProperty (findElement st' "face") n)
                    = getIndices match findElement st "face" with Some (e, _) => e | None => 0%nat end
                       (findProperty (findElement st "face") n)) as Hix.
  { intros n. pose proof (findProperty_same _ _ n He) as Hp.
    destruct He as [[e' el'] [e el] [He ?]|]; cbn in *.
    - subst e'. destruct Hp as [[i' q] [i p] [Hi Hqp]|]; [|done]. cbn in *. subst i'.
      by destruct q, p.
    - done. }
  by rewrite !Hix.
Qed.

Lemma deref_same st' st r :
  same_model same_double st' st ->
  option_Forall2 (Forall2 (same_number same_double)) (deref st' r) (deref st r).
Proof.
  intros (_ & _ & _ & Hes).
  assert (forall e p,
            option_Forall2 (same_property same_double)
              (elements st' !! e ≫= fun el => properties el !! p)
              (elements st !! e ≫= fun el => properties el !! p)) as Hp.
  { intros e p. rewrite Forall2_lookup in Hes.
    destruct (Hes e) as [el' el (_ & _ & Hps)|]; [|constructor]. cbn.
    rewrite Forall2_lookup in Hps. apply Hps. }
  destruct r as [e p|e p]; cbn [deref];
    (destruct (Hp e p) as [q q0 Hq|]; [|constructor]);
    destruct q, q0; cbn in Hq; try done; try constructor.
  - by destruct Hq as (_ & _ & Hd & _).
  - destruct Hq as (_ & _ & _ & ->).
    apply Forall_Forall2_diag, Forall_map, Forall_forall. by intros j _.
Qed.

Lemma facesContents_same st' st :
  same_model same_double st' st ->
  same_outcome
    (fun c' c => option_Forall2 (Forall2 (same_number same_double)) c'.1 c.1
                 /\ option_Forall2 (Forall2 (same_number same_double)) c'.2 c.2)
    (facesContents st') (facesContents st).
Proof.
  intros Hst. unfold facesContents. rewrite (getFaces_same _ _ Hst).
  destruct (getFaces st) as [f|]; [|done]. cbn. split; by apply deref_same.
Qed.

End Accessors.

(** *** The model that an ASCII load leaves *)

Lemma split_free_all sep s : Forall (fun t => free sep t = true) (Text.split sep s).
Proof.
  induction s as [|c r IH]; [by repeat constructor|].
  cbn [Text.split]. destruct (sep c) eqn:Hc; [by constructor|].
  destruct (Text.split sep r) as [|t ts].
  - repeat constructor. cbn. by rewrite Hc.
  - apply Forall_cons in IH as [Ht Hts]. constructor; [|done]. cbn. by rewrite Hc, Ht.
Qed.

Lemma split_kept (sep keep : ascii -> bool) s :
  free keep s = true -> Forall (fun t => free keep t = true) (Text.split sep s).
Proof.
  induction s as [|c r IH]; [by repeat constructor|].
  cbn [free Text.split]. intros H. apply andb_true_iff in H as [Hc Hr].
  specialize (IH Hr). destruct (sep c); [by constructor|].
  destruct (Text.split sep r) as [|t ts].
  - repeat constructor. cbn. by rewrite Hc.
  - apply Forall_cons in IH as [Ht Hts]. constructor; [|done]. cbn. by rewrite Hc, Ht.
Qed.

Lemma split_isToken line :
  isLine line = true -> Forall (fun t => isToken t = true) (Text.split Text.DELIMITER line).
Proof.
  intros Hl. pose proof (split_free_all Text.DELIMITER line) as H1.
  pose proof (split_kept Text.DELIMITER Text.newline line Hl) as H2.
  rewrite Forall_forall in H1, H2. apply Forall_forall. intros t Ht.
  unfold isToken. by rewrite (H1 t Ht), (H2 t Ht).
Qed.

Lemma isLine_substring n : forall s, isLine s = true -> isLine (Text.substring n s) = true.
Proof.
  induction n as [|n IH]; intros s Hs; [by destruct s|].
  destruct s as [|c r]; [done|]. cbn [Text.substring]. apply IH.
  cbn in Hs. by apply andb_true_iff in Hs as [_ Hs].
Qed.

Lemma createPropertyWithType_name n t isList ct p :
  createPropertyWithType n t isList ct = Some p -> Property.name p = n.
Proof.
  unfold createPropertyWithType.
  repeat case_match; try discriminate; intros [= <-]; simpl; auto.
Qed.

Lemma pushPropertyToLast_named st p :
  named st -> isToken (Property.name p) = true -> named (pushPropertyToLast st p).
Proof.
  intros (Hcs & Hos & Hes) Hp. repeat split; [done..|].
  unfold pushPropertyToLast; cbn [elements].
  apply Forall_alter; [done|]. intros e _ [Hn Hps]. split; [done|]. cbn.
  apply Forall_app. split; [done|]. by constructor.
Qed.

Lemma headerLine_named st line st' :
  isLine line = true -> headerLine st line = Next st' -> named st -> named st'.
Proof.
  intros Hline H Hst. pose proof (split_isToken line Hline) as Htok.
  unfold headerLine in H.
  repeat case_match; try discriminate; injection H as <-; try done.
  - destruct Hst as (Hcs & Hos & Hes). repeat split; [|done..]. cbn.
    apply Forall_app. split; [done|]. constructor; [|done]. by apply (isLine_substring 8).
  - destruct Hst as (Hcs & Hos & Hes). repeat split; [done| |done]. cbn.
    apply Forall_app. split; [done|]. constructor; [|done]. by apply (isLine_substring 9).
  - destruct Hst as (Hcs & Hos & Hes). repeat split; [done..|]. cbn.
    apply Forall_app. split; [done|]. constructor; [|done]. cbn. split; [|done].
    rewrite !Forall_cons in Htok. tauto.
  - apply pushPropertyToLast_named; [done|].
    match goal with H : createPropertyWithType _ _ _ _ = _ |- _ =>
      rewrite (createPropertyWithType_name _ _ _ _ _ H) end.
    rewrite !Forall_cons in Htok. tauto.
  - apply pushPropertyToLast_named; [done|].
    match goal with H : createPropertyWithType _ _ _ _ = _ |- _ =>
      rewrite (createPropertyWithType_name _ _ _ _ _ H) end.
    rewrite !Forall_cons in Htok. tauto.
Qed.

Lemma headerLines_named ls : forall st st',
  Forall (fun l => isLine l = true) ls ->
  headerLines st ls = (true, st') -> named st -> named st'.
Proof.
  induction ls as [|l ls IH]; intros st st' Hls H Hst; simpl in H.
  - by injection H as <-.
  - apply Forall_cons in Hls as [Hl Hls]. destruct (headerLine st l) eqn:Hhl.
    + eapply IH; [done..|]. by eapply headerLine_named.
    + by injection H as <-.
    + discriminate.
Qed.

Lemma parseHeader_named ls st :
  Forall (fun l => isLine l = true) ls ->
  _parseHeader new_PlyData ls = (true, st) ->
  version (header st) = "1.0" /\ named st.
Proof.
  unfold _parseHeader. intros Hls H.
  repeat case_match; try discriminate.
  match goal with H : bool_decide (version _ ≠ "1.0") = false |- _ =>
    apply bool_decide_eq_false in H; apply dec_stable in H; rename H into Hver end.
  split.
  - apply headerLines_format in H as [_ ->]. done.
  - eapply headerLines_named; [|exact H|].
    + by apply Forall_drop.
    + by repeat split.
Qed.

Lemma typedValue_parseValue token ty : typedValue ty (Property.parseValue token ty).
Proof. by destruct ty. Qed.

Lemma parseItems_typed n tokens ty : forall i data,
  Forall (typedValue ty) data ->
  Forall (typedValue ty) (Property.parseItems n tokens i ty data).1.
Proof.
  induction n as [|n IH]; intros i data Hd; [done|]. cbn [Property.parseItems].
  apply IH. apply Forall_app. split; [done|]. constructor; [|done].
  apply typedValue_parseValue.
Qed.

Lemma parseNext_kept tokens p i :
  isToken (Property.name p) = true /\ typed p ->
  isToken (Property.name (Property.parseNext p tokens i).1) = true
  /\ typed (Property.parseNext p tokens i).1.
Proof.
  destruct p as [n ty vs|n ty lcb d s]; cbn [Property.parseNext]; intros [Hn Hty].
  - split; [done|]. cbn. apply Forall_app. split; [done|]. constructor; [|done].
    apply typedValue_parseValue.
  - pose proof (parseItems_typed
                  (iterations (Text.parseInt (Text.ofToken (tokens !! i)))) tokens ty (S i) d Hty)
      as Hd.
    destruct (Property.parseItems _ _ _ _ _) as [d' i']. done.
Qed.

Lemma Forall2_kept {A : Type} (P : A -> Prop) l l' :
  Forall2 (fun x x' => P x -> P x') l l' -> Forall P l -> Forall P l'.
Proof.
  induction 1 as [|x x' l l' Hx _ IH]; [done|]. intros H.
  apply Forall_cons in H as [? ?]. constructor; auto.
Qed.

Lemma parseProperties_kept tokens ps i :
  Forall (fun p => isToken (Property.name p) = true /\ typed p) ps ->
  Forall (fun p => isToken (Property.name p) = true /\ typed p)
    (parseProperties tokens ps i).1.
Proof.
  apply Forall2_kept. unfold parseProperties. apply forEach_related; [done|].
  intros p j Hp. pose proof (parseNext_kept tokens p j Hp) as Hp'.
  by destruct (Property.parseNext p tokens j).
Qed.

Lemma parseAsciiInstance_kept lines ps lineCount :
  Forall (fun p => isToken (Property.name p) = true /\ typed p) ps ->
  Forall (fun p => isToken (Property.name p) = true /\ typed p)
    (parseAsciiInstance lines ps lineCount).1.
Proof.
  intros Hps. unfold parseAsciiInstance.
  destruct (if (length ps =? 0)%nat then _ else _) as [[l|] lc]; [|done].
  pose proof (parseProperties_kept (Text.split Text.DELIMITER l) ps 0 Hps) as H.
  by destruct (parseProperties _ _ _).
Qed.

Lemma parseAsciiElement_kept lines e lineCount :
  isToken (name e) = true
  /\ Forall (fun p => isToken (Property.name p) = true /\ typed p) (properties e) ->
  isToken (name (parseAsciiElement lines e lineCount).1) = true
  /\ Forall (fun p => isToken (Property.name p) = true /\ typed p)
       (properties (parseAsciiElement lines e lineCount).1).
Proof.
  intros [Hn Hps]. unfold parseAsciiElement.
  pose proof (times_related
                (fun ps ps' =>
                   Forall (fun p => isToken (Property.name p) = true /\ typed p) ps ->
                   Forall (fun p => isToken (Property.name p) = true /\ typed p) ps')
                (parseAsciiInstance lines)) as H.
  specialize (H (fun _ H => H) (fun _ _ _ H1 H2 H => H2 (H1 H))
                (fun ps s => parseAsciiInstance_kept lines ps s)
                (iterations (count e)) (properties e) lineCount Hps).
  by destruct (times _ _ _ _).
Qed.

Lemma fresh_typed p : fresh p -> typed p.
Proof. destruct p; cbn; [by intros ->|by intros [-> _]]. Qed.

(** An accepted ASCII load into a new model leaves version [1.0], names that
    are tokens, comments that are lines, and in every property values of its
    type, one record per run of the instance loop. *)
Lemma load_ascii buf st :
  load new_PlyData buf = (true, st) -> type (header st) = "ascii" ->
  version (header st) = "1.0" /\ named st
  /\ Forall (fun e => Forall (fun p => typed p /\ indexed (iterations (count e)) p)
                        (properties e)) (elements st).
Proof.
  intros Hload Hty.
  pose proof (load_indexed _ _ Hload (or_intror Hty)) as Hix.
  apply load_true in Hload as (head & body & st1 & _ & Hh & Hbody).
  pose proof (parseHeader_fresh _ _ Hh) as Hfresh.
  apply parseHeader_named in Hh as [Hver (Hcs & Hos & Hes)].
  2:{ apply (split_free_all Text.newline). }
  assert (st = (_parseAscii st1 (asLines body)).1) as Hst.
  { destruct Hbody as [[_ [k Hk]]|[[Hty1 [k Hk]]|[Hty1 [k Hk]]]]; [by rewrite Hk|..].
    - pose proof (parseBinary_header st1 body) as Hhd. rewrite Hk in Hhd. cbn in Hhd.
      congruence.
    - pose proof (parseBinaryBigEndian_header st1 body) as Hhd. rewrite Hk in Hhd.
      cbn in Hhd. congruence. }
  pose proof (parseAscii_header st1 (asLines body)) as Hhd. rewrite <- Hst in Hhd.
  assert (Forall (fun e => isToken (name e) = true
                           /\ Forall (fun p => isToken (Property.name p) = true /\ typed p)
                                (properties e)) (elements st)) as Hkept.
  { rewrite Hst. unfold _parseAscii.
    pose proof (forEach_related
                  (fun e e' =>
                     isToken (name e) = true
                     /\ Forall (fun p => isToken (Property.name p) = true /\ typed p)
                          (properties e) ->
                     isToken (name e') = true
                     /\ Forall (fun p => isToken (Property.name p) = true /\ typed p)
                          (properties e'))
                  (parseAsciiElement (asLines body)) (fun _ H => H)
                  (fun e s => parseAsciiElement_kept (asLines body) e s)
                  (elements st1) 0%nat) as H.
    destruct (forEach _ _ _) as [es r]. cbn in *.
    eapply Forall2_kept; [exact H|].
    unfold all_fresh in Hfresh. rewrite Forall_forall in Hes, Hfresh.
    apply Forall_forall. intros e He. destruct (Hes e He) as [Hn Hps].
    split; [done|]. specialize (Hfresh e He).
    rewrite Forall_forall in Hps, Hfresh. apply Forall_forall. intros p Hp.
    split; [by apply Hps|by apply fresh_typed, Hfresh]. }
  split; [by rewrite Hhd|]. split.
  - unfold named. rewrite Hhd. split; [done|]. split; [done|].
    eapply Forall_impl; [exact Hkept|]. intros e [Hn Hps]. split; [done|].
    eapply Forall_impl; [exact Hps|]. by intros p [].
  - rewrite Forall_forall in Hkept, Hix. apply Forall_forall. intros e He.
    destruct (Hkept e He) as [_ Hps]. specialize (Hix e He).
    rewrite Forall_forall in Hps, Hix. apply Forall_forall. intros p Hp.
    split; [by apply Hps|by apply Hix].
Qed.

(** *** The end of the written header *)

Lemma string_of_list_byte_app a b :
  string_of_list_byte (a ++ b) = string_of_list_byte a +:+ string_of_list_byte b.
Proof.
  unfold string_of_list_byte. induction a as [|x a IH]; [done|].
  cbn [app map string_of_list_ascii]. by rewrite IH.
Qed.

Lemma length_append s t :
  String.length (s +:+ t) = (String.length s + String.length t)%nat.
Proof.
  induction s as [|a s IH]; [done|]. rewrite append_cons. cbn [String.length]. by rewrite IH.
Qed.

Lemma line_inj l : forall p r r',
  isLine l = true -> isLine p = true ->
  l +:+ String "010" r = p +:+ String "010" r' -> l = p.
Proof.
  induction l as [|a l IH]; intros p r r' Hl Hp H; destruct p as [|b p].
  - done.
  - rewrite append_nil_l, append_cons in H. injection H as <- _. discriminate.
  - rewrite append_nil_l, append_cons in H. injection H as -> _. discriminate.
  - rewrite !append_cons in H. injection H as -> H.
    cbn in Hl, Hp. apply andb_true_iff in Hl as [_ Hl]. apply andb_true_iff in Hp as [_ Hp].
    f_equal. by eapply IH.
Qed.

Lemma matchesAt_line l rest :
  isLine l = true ->
  matchesAt target (list_byte_of_string (l +:+ String "010" rest)) = true ->
  l = "end_header".
Proof.
  intros Hl H. apply matchesAt_true in H as [post H].
  apply (f_equal string_of_list_byte) in H.
  rewrite string_of_list_byte_of_string, string_of_list_byte_app in H.
  change (string_of_list_byte target) with ("end_header" +:+ String "010" "") in H.
  change (l +:+ String "010" rest
          = "end_header" +:+ String "010" (string_of_list_byte post)) in H.
  by eapply line_inj.
Qed.

Lemma endsWith_refl s : endsWith s s = true.
Proof. destruct s; cbn [endsWith]; by rewrite String.eqb_refl. Qed.

Lemma findTarget_line l : forall rest k,
  isLine l = true -> endsWith l "end_header" = false ->
  findTarget (list_byte_of_string (l +:+ String "010" rest)) k
  = findTarget (list_byte_of_string rest) (k + String.length l + 1)%nat.
Proof.
  induction l as [|a l IH]; intros rest k Hl He.
  - rewrite append_nil_l. cbn [String.length]. rewrite Nat.add_0_r, Nat.add_1_r. done.
  - destruct (matchesAt target (list_byte_of_string (String a l +:+ String "010" rest)))
      eqn:Hm.
    { apply matchesAt_line in Hm; [|done]. rewrite Hm in He. by rewrite endsWith_refl in He. }
    rewrite append_cons in *.
    change (list_byte_of_string (String a (l +:+ String "010" rest)))
      with (byte_of_ascii a :: list_byte_of_string (l +:+ String "010" rest)) in *.
    cbn [findTarget]. rewrite Hm.
    cbn [endsWith] in He. apply orb_false_iff in He as [_ He].
    cbn in Hl. apply andb_true_iff in Hl as [_ Hl].
    rewrite IH by done. cbn [String.length]. f_equal. lia.
Qed.

Lemma findTarget_lines ls : forall rest k,
  Forall (fun l => isLine l = true /\ endsWith l "end_header" = false) ls ->
  findTarget (list_byte_of_string (unlines ls +:+ rest)) k
  = findTarget (list_byte_of_string rest) (k + String.length (unlines ls))%nat.
Proof.
  induction ls as [|l ls IH]; intros rest k Hls.
  - cbn. by rewrite Nat.add_0_r.
  - apply Forall_cons in Hls as [[Hl He] Hls].
    rewrite unlines_cons, !append_assoc, append_cons, append_nil_l.
    rewrite findTarget_line by done. rewrite IH by done. f_equal.
    rewrite !length_append. cbn [String.length]. lia.
Qed.

Lemma findTarget_target k : findTarget target k = Some k.
Proof. reflexivity. Qed.

Lemma eqb_spaced x y p :
  free Text.DELIMITER p = true -> String.eqb (x +:+ String " " y) p = false.
Proof.
  intros Hp. apply String.eqb_neq. intros H.
  apply (f_equal (free Text.DELIMITER)) in H. rewrite free_app, Hp in H.
  cbn in H. by destruct (free Text.DELIMITER x).
Qed.

Lemma endsWith_spaced x c p :
  free Text.DELIMITER p = true -> endsWith (x +:+ String " " c) p = endsWith c p.
Proof.
  intros Hp. induction x as [|a x IH].
  - pose proof (eqb_spaced "" c p Hp) as H. rewrite append_nil_l in *.
    cbn [endsWith]. by rewrite H.
  - pose proof (eqb_spaced (String a x) c p Hp) as H. rewrite append_cons in *.
    cbn [endsWith]. by rewrite H, IH.
Qed.

Lemma endsWith_free f s p : endsWith s p = true -> free f s = true -> free f p = true.
Proof.
  induction s as [|a s IH]; cbn [endsWith]; intros H Hs.
  - rewrite orb_false_r in H. by apply String.eqb_eq in H as <-.
  - apply orb_true_iff in H as [H|H]; [by apply String.eqb_eq in H as <-|].
    cbn in Hs. apply andb_true_iff in Hs as [_ Hs]. by apply IH.
Qed.

Lemma free_uint f d :
  (forall c, Text.digit c <> None -> f c = false) ->
  free f (NilEmpty.string_of_uint d) = true.
Proof.
  intros Hf. induction d; [done|..]; cbn [NilEmpty.string_of_uint free];
    rewrite IHd, Hf; done.
Qed.

Lemma endsWith_ofInt n : endsWith (Text.ofInt n) "end_header" = false.
Proof.
  destruct (endsWith (Text.ofInt n) "end_header") eqn:H; [|done].
  apply (endsWith_free (fun c => Ascii.eqb c "h")) in H; [done|].
  destruct n as [z|]; [|done]. unfold Text.ofInt.
  assert (forall d, free (fun c => Ascii.eqb c "h") (NilEmpty.string_of_uint d) = true) as Hd.
  { intros d. apply free_uint. intros c Hc. apply Ascii.eqb_neq. by intros ->. }
  destruct z as [|p|p]; [done|..]; cbn [Z.to_int NilZero.string_of_int];
    pose proof (Unsigned.to_uint_nonnil p) as Hp;
    (replace (NilZero.string_of_uint (Pos.to_uint p))
       with (NilEmpty.string_of_uint (Pos.to_uint p))
       by (by destruct (Pos.to_uint p))).
  - apply Hd.
  - apply (Hd (Pos.to_uint p)).
Qed.

(** With clean names that do not end with [end_header], the written header
    holds the marker at its end only. *)
Lemma unmarked_marked st :
  version (header st) = "1.0" -> named st -> unmarked st -> marked st.
Proof.
  intros Hver Hnamed (Hcs & Hos & Hes).
  assert (isLine (version (header st)) = true) as Hverl by (by rewrite Hver).
  pose proof (isLine_headerTextLines st Hverl Hnamed) as Hlines.
  unfold marked. rewrite writeHeader_lines. cbv zeta.
  unfold headerTextLines in *. rewrite !app_assoc in *.
  set (init := ((_ ++ _) ++ _) ++ concat _) in *.
  apply Forall_app in Hlines as [Hinit _].
  assert (Forall (fun l => isLine l = true /\ endsWith l "end_header" = false) init) as Hok.
  { apply Forall_and. split; [done|]. unfold init. rewrite Hver.
    repeat apply Forall_app_2.
    - by repeat constructor.
    - apply Forall_map. eapply Forall_impl; [exact Hcs|]. intros c Hc.
      change ("comment " +:+ c) with ("comment" +:+ String " " c).
      by rewrite endsWith_spaced.
    - apply Forall_map. eapply Forall_impl; [exact Hos|]. intros c Hc.
      change ("obj_info " +:+ c) with ("obj_info" +:+ String " " c).
      by rewrite endsWith_spaced.
    - apply Forall_concat, Forall_map. eapply Forall_impl; [exact Hes|].
      intros e Hps. constructor.
      + change ("element " +:+ name e +:+ " " +:+ Text.ofInt (count e))
          with ("element" +:+ String " " (name e +:+ String " " (Text.ofInt (count e)))).
        rewrite !endsWith_spaced by done. apply endsWith_ofInt.
      + apply Forall_map. eapply Forall_impl; [exact Hps|]. intros p Hp.
        unfold propertyLine.
        change (?a +:+ " " +:+ ?b +:+ " " +:+ ?c)
          with (a +:+ String " " (b +:+ String " " c)).
        by rewrite !endsWith_spaced. }
  rewrite unlines_app.
  unfold splitByEndHeader. rewrite (findTarget_lines init _ 0%nat Hok).
  change (list_byte_of_string (unlines ["end_header"])) with target.
  rewrite findTarget_target. eexists. f_equal. f_equal.
  rewrite list_byte_of_string_app.
  change (list_byte_of_string (unlines ["end_header"])) with target.
  rewrite <- length_list_byte_of_string. cbn [Nat.add].
  rewrite <- length_app. apply firstn_all.
Qed.

(** *** The round trip *)

(** C4, amended.  Take an ASCII input that [load] accepts into a new model,
    such that every element without properties has no record, the index of
    every list property is in order and ends at the length of its data (every
    list count of the file is a non-negative integer), no comment, obj_info
    text or property name ends with [end_header], and the counts, the integer
    values and the index entries of the model are safe integers, which are
    written in plain decimal, in arrays within the limit.  Then loading
    what [save] writes succeeds, and the second model gives the same results:
    [getVertexPositions] throws the same error or returns the same numbers,
    for every element name, and [getFaces] returns the same two arrays with
    the same contents.  Two floating values are the same when they denote the
    same double; the rendering [fmt] of a number has no white space and
    parses back to the same double, as that of ECMAScript does. *)
Theorem roundtrip_preserves_positions_and_faces
    (fmt : ieee -> string) (same_double : ieee -> ieee -> Prop) buf st :
  (forall f, isToken (fmt f) = true) ->
  (forall f, same_double (Literal (fmt f)) f) ->
  load new_PlyData buf = (true, st) ->
  type (header st) = "ascii" ->
  Forall (fun e => (properties e = [] -> notPositive (count e))
                   /\ Forall sliced (properties e)) (elements st) ->
  unmarked st ->
  representable st ->
  exists st',
    reload fmt st = (true, st')
    /\ (forall vertexElementName,
          same_outcome (Forall2 (same_number same_double))
            (getVertexPositions st' vertexElementName)
            (getVertexPositions st vertexElementName))
    /\ getFaces st' = getFaces st
    /\ same_outcome
         (fun c' c => option_Forall2 (Forall2 (same_number same_double)) c'.1 c.1
                      /\ option_Forall2 (Forall2 (same_number same_double)) c'.2 c.2)
         (facesContents st') (facesContents st).
Proof.
  intros Hfmt Hsame Hload Hty Hes Hunmarked _.
  destruct (load_ascii buf st Hload Hty) as (Hver & Hnamed & Htyped).
  pose proof (unmarked_marked st Hver Hnamed Hunmarked) as Hmarked.
  destruct (reload_same fmt same_double Hfmt Hsame st Hver Hnamed) as (st' & Hre & Hst');
    [|done|].
  { rewrite Forall_forall in Hes, Htyped. apply Forall_forall. intros e He.
    destruct (Hes e He) as [Hne Hsl]. specialize (Htyped e He). split.
    - intros Hnil. by apply iterations_notPositive, Hne.
    - rewrite Forall_forall in Hsl, Htyped. apply Forall_forall. intros p Hp.
      destruct (Htyped p Hp) as [Ht Hi]. repeat split; [done..|]. apply (Hsl p Hp). }
  exists st'. split; [done|]. split; [|split].
  - intros n. by apply getVertexValues_same.
  - by eapply getFaces_same.
  - by apply facesContents_same.
Qed.

(** The square of [Sample.square], whose positions are floating values. *)
Lemma roundtrip_preserves_positions_and_faces_witness :
  let st := (load new_PlyData Sample.square).2 in
  exists st',
    reload Sample.render st = (true, st')
    /\ (forall vertexElementName,
          same_outcome (Forall2 (same_number Sample.same_rendering))
            (getVertexPositions st' vertexElementName)
            (getVertexPositions st vertexElementName))
    /\ getFaces st' = getFaces st
    /\ same_outcome
         (fun c' c => option_Forall2 (Forall2 (same_number Sample.same_rendering)) c'.1 c.1
                      /\ option_Forall2 (Forall2 (same_number Sample.same_rendering)) c'.2 c.2)
         (facesContents st') (facesContents st).
Proof.
  assert (forall f, isToken (Sample.render f) = true) as Htoken.
  { intros [b|b|t]; [done..|]. cbn. by destruct (isToken t) eqn:Ht. }
  apply (roundtrip_preserves_positions_and_faces Sample.render Sample.same_rendering
           Sample.square).
  - exact Htoken.
  - intros f. unfold Sample.same_rendering. cbn [Sample.render]. by rewrite Htoken.
  - vm_compute. reflexivity.
  - vm_compute. reflexivity.
  - let es := eval vm_compute in (elements (load new_PlyData Sample.square).2) in
    change (elements (load new_PlyData Sample.square).2) with es.
    repeat constructor; try discriminate.
    intros i a b Ha Hb.
    do 2 (destruct i as [|i]; [cbn in Ha, Hb; simplify_eq; cbn; lia|]).
    destruct i; discriminate.
  - let h := eval vm_compute in (header (load new_PlyData Sample.square).2) in
    change (header (load new_PlyData Sample.square).2) with h.
    let es := eval vm_compute in (elements (load new_PlyData Sample.square).2) in
    change (elements (load new_PlyData Sample.square).2) with es.
    repeat constructor.
  - unfold representable, arraysWithinLimit.
    let es := eval vm_compute in (elements (load new_PlyData Sample.square).2) in
    change (elements (load new_PlyData Sample.square).2) with es.
    in_range.
Defined.

(** C4 as stated fails on the code.  The writer ends the record of an element
    without properties with an empty line; the reader skips empty lines for
    such an element and takes the next line, the first vertex, as its record.
    Both loads and the save succeed and the vertex positions differ, whether
    the record of the marker in the original file is empty or not. *)
Lemma roundtrip_counterexample :
  (exists st,
     load new_PlyData Sample.marker_token = (true, st)
     /\ type (header st) = "ascii"
     /\ elements st !! 0%nat
        = Some {| name := "marker"; count := Int 1; properties := [] |}
     /\ getVertexPositions st "vertex"
        = Returns [Num (Int 1); Num (Int 2); Num (Int 3);
                   Num (Int 4); Num (Int 5); Num (Int 6)]
     /\ forall fmt,
          (save fmt st).1 = true
          /\ (reload fmt st).1 = true
          /\ getVertexPositions (reload fmt st).2 "vertex"
             = Returns [Num (Int 4); Num (Int 5); Num (Int 6); Num NaN; Num NaN; Num NaN])
  /\ (exists st,
        load new_PlyData Sample.marker_blank = (true, st)
        /\ getVertexPositions st "vertex"
           = Returns [Num (Int 4); Num (Int 5); Num (Int 6); Num NaN; Num NaN; Num NaN]
        /\ forall fmt,
             (reload fmt st).1 = true
             /\ getVertexPositions (reload fmt st).2 "vertex"
                = Returns [Num NaN; Num NaN; Num NaN; Num NaN; Num NaN; Num NaN]).
Proof.
  split.
  - exists (load new_PlyData Sample.marker_token).2.
    repeat split; vm_compute; reflexivity.
  - exists (load new_PlyData Sample.marker_blank).2.
    repeat split; vm_compute; reflexivity.
Qed.

(** The two other conditions cannot be dropped either.  A list count that is
    not a number leaves [NaN] in the index, and the writer then emits no
    value of the records around it. *)
Lemma roundtrip_needs_index_in_order (fmt : ieee -> string) :
  let st := (load new_PlyData Sample.nan_count).2 in
  (load new_PlyData Sample.nan_count).1 = true
  /\ (reload fmt st).1 = true
  /\ facesContents st
     = Returns (Some [Num (Int 1); Num (Int 2); Num (Int 3)],
                Some [Num (Int 0); Num NaN; Num (Int 3)])
  /\ facesContents (reload fmt st).2
     = Returns (Some [], Some [Num (Int 0); Num NaN; Num NaN]).
Proof. repeat split; vm_compute; reflexivity. Qed.

(** A comment that ends with [end_header] is written before the elements, and
    the second load takes it for the end of the header. *)
Lemma roundtrip_needs_unmarked (fmt : ieee -> string) :
  let st := (load new_PlyData Sample.comment_marker).2 in
  (load new_PlyData Sample.comment_marker).1 = true
  /\ (reload fmt st).1 = true
  /\ getVertexPositions st "vertex" = Returns [Num (Int 1); Num (Int 2); Num (Int 3)]
  /\ getVertexPositions (reload fmt st).2 "vertex"
     = Throws (Error "vertex element or properties not found")
  /\ comments (header st) = ["end_header"].
Proof. repeat split; vm_compute; reflexivity. Qed.

(** * Further properties *)

(** ** Vertex colours *)




(** ** Records of equal length *)

Lemma parseBinaryBigEndian_indexed st buffer st' offset :
  all_fresh st ->
  _parseBinaryBigEndian st buffer = (st', Returns offset) ->
  Forall (fun e => Forall (indexed 1) (properties e)) (elements st').
Proof.
  intros Hfresh. unfold _parseBinaryBigEndian.
  destruct (forEach _ _ _) as [es r] eqn:Hes. intros [= <- ->]. simpl.
  eapply (forEach_returns (fun e => Forall fresh (properties e))); [|exact Hes|exact Hfresh].
  intros e s e' s' He Hf.
  destruct (parseBinaryBigEndianElement_decoded _ _ _ _ _ He Hf) as [_ H].
  eapply Forall_impl; [exact H|]. by intros p [].
Qed.

Lemma load_recordsRead buf st :
  load new_PlyData buf = (true, st) ->
  Forall (fun e => Forall (indexed (recordsRead (type (header st)) e)) (properties e))
    (elements st).
Proof.
  intros Hload. pose proof Hload as Hl.
  apply load_true in Hl as (head & body & st1 & _ & Hh & Hbody).
  pose proof (parseHeader_fresh _ _ Hh) as Hfresh. unfold recordsRead.
  destruct Hbody as [[Hty [k Hk]]|[[Hty [k Hk]]|[Hty [k Hk]]]].
  - pose proof (parseAscii_header st1 (asLines body)) as Hhd. rewrite Hk in Hhd.
    cbn in Hhd. rewrite Hhd, Hty. rewrite bool_decide_eq_false_2 by done.
    apply (load_indexed _ _ Hload). right. by rewrite Hhd.
  - pose proof (parseBinary_header st1 body) as Hhd. rewrite Hk in Hhd.
    cbn in Hhd. rewrite Hhd, Hty. rewrite bool_decide_eq_false_2 by done.
    apply (load_indexed _ _ Hload). left. by rewrite Hhd.
  - pose proof (parseBinaryBigEndian_header st1 body) as Hhd. rewrite Hk in Hhd.
    cbn in Hhd. rewrite Hhd, Hty. rewrite bool_decide_eq_true_2 by done.
    by eapply parseBinaryBigEndian_indexed.
Qed.

(** X8.  After a load into a new model that returns true, in any of the three
    formats, the scalar properties of one element hold the same number of
    values.  So [getVertexPositions] and [getVertexColors] do not throw
    [invalid vertex properties] when the three components they find are
    scalar properties: they return the interleaving. *)
Theorem load_aligns_scalar_properties buf st elementName c1 c2 c3
    i1 n1 t1 v1 i2 n2 t2 v2 i3 n3 t3 v3 :
  load new_PlyData buf = (true, st) ->
  findProperty (findElement st elementName) c1 = Some (i1, TypedProperty n1 t1 v1) ->
  findProperty (findElement st elementName) c2 = Some (i2, TypedProperty n2 t2 v2) ->
  findProperty (findElement st elementName) c3 = Some (i3, TypedProperty n3 t3 v3) ->
  length v2 = length v1 /\ length v3 = length v1
  /\ _getVertexValues st elementName c1 c2 c3 = Returns (interleave v1 v2 v3).
Proof.
  intros Hload H1 H2 H3.
  pose proof (load_recordsRead _ _ Hload) as Hall.
  destruct (findElement st elementName) as [[e el]|] eqn:He; [|discriminate].
  pose proof (findElement_lookup _ _ _ _ He) as Hel.
  rewrite Forall_lookup in Hall. specialize (Hall _ _ Hel).
  rewrite Forall_lookup in Hall.
  assert (forall c i n t v,
            findProperty (Some (e, el)) c = Some (i, TypedProperty n t v) ->
            length v = recordsRead (type (header st)) el) as Hlen.
  { intros c i n t v H. cbn [findProperty] in H. apply list_find_Some in H as [H _].
    apply (Hall _ _ H). }
  pose proof (Hlen _ _ _ _ _ H1) as L1. pose proof (Hlen _ _ _ _ _ H2) as L2.
  pose proof (Hlen _ _ _ _ _ H3) as L3.
  split; [congruence|]. split; [congruence|].
  unfold _getVertexValues. rewrite He, H1, H2, H3. cbn [getValues].
  rewrite !bool_decide_eq_false_2 by (intros ?; congruence). done.
Qed.

Lemma load_aligns_scalar_properties_witness :
  let st := (load new_PlyData Sample.colored).2 in
  let red := [Num (Int 255); Num (Int 0)] in
  let green := [Num (Int 0); Num (Int 128)] in
  let blue := [Num (Int 0); Num (Int 255)] in
  length green = length red /\ length blue = length red
  /\ _getVertexValues st "vertex" "red" "green" "blue" = Returns (interleave red green blue).
Proof.
  intros st red green blue.
  apply (load_aligns_scalar_properties Sample.colored st "vertex" "red" "green" "blue"
           3%nat "red" PropertyType.uchar red
           4%nat "green" PropertyType.uchar green
           5%nat "blue" PropertyType.uchar blue); vm_compute; reflexivity.
Defined.

(** ** The faces of a little-endian file *)

Lemma load_littleEndian_decoded buf st :
  load new_PlyData buf = (true, st) -> type (header st) = "binary_little_endian" ->
  Forall (fun e => Forall (decoded (iterations (count e))) (properties e)) (elements st).
Proof.
  intros Hload Hty.
  apply load_true in Hload as (head & body & st1 & _ & Hh & Hbody).
  pose proof (parseHeader_fresh _ _ Hh) as Hfresh.
  destruct Hbody as [[Hty1 [k Hk]]|[[Hty1 [k Hk]]|[Hty1 [k Hk]]]].
  - pose proof (parseAscii_header st1 (asLines body)) as Hhd. rewrite Hk in Hhd.
    cbn in Hhd. congruence.
  - by eapply parseBinary_decoded.
  - pose proof (parseBinaryBigEndian_header st1 body) as Hhd. rewrite Hk in Hhd.
    cbn in Hhd. congruence.
Qed.

Lemma getFaces_returns st f :
  getFaces st = Returns f ->
  exists e el p n ty lcb data starts,
    findElement st "face" = Some (e, el)
    /\ properties el !! p = Some (TypedListProperty n ty lcb data starts)
    /\ f = {| indices := flattenedDataOf e p; strides := flattenedIndexStartOf e p |}.
Proof.
  unfold getFaces. intros H.
  destruct (findElement st "face") as [[e el]|] eqn:He; [|discriminate].
  assert (forall c ret, getIndices e (findProperty (Some (e, el)) c) = Some ret ->
            exists p n ty lcb data starts,
              properties el !! p = Some (TypedListProperty n ty lcb data starts)
              /\ ret = {| indices := flattenedDataOf e p;
                          strides := flattenedIndexStartOf e p |}) as Hix.
  { intros c ret Hc. destruct (findProperty _ c) as [[p [|n ty lcb data starts]]|] eqn:Hp;
      try discriminate. injection Hc as <-.
    cbn [findProperty] in Hp. apply list_find_Some in Hp as [Hp _].
    by exists p, n, ty, lcb, data, starts. }
  destruct (getIndices e (findProperty _ "vertex_indices")) as [ret|] eqn:H1.
  - injection H as <-. destruct (Hix _ _ H1) as (p & n & ty & lcb & data & starts & ? & ?).
    by exists e, el, p, n, ty, lcb, data, starts.
  - destruct (getIndices e (findProperty _ "vertex_index")) as [ret|] eqn:H2; [|discriminate].
    injection H as <-. destruct (Hix _ _ H2) as (p & n & ty & lcb & data & starts & ? & ?).
    by exists e, el, p, n, ty, lcb, data, starts.
Qed.

(** X9.  After a little-endian load into a new model that returns true, the
    arrays that [getFaces] returns slice the indices face by face: [strides]
    has one entry more than the face element has records, starts at 0 and ends
    at the length of [indices], and the entries [i] and [i + 1] of every face
    [i] are in order and inside [indices]. *)
Theorem getFaces_slices_after_littleEndian_load buf st f :
  load new_PlyData buf = (true, st) -> type (header st) = "binary_little_endian" ->
  getFaces st = Returns f ->
  exists e el data starts,
    findElement st "face" = Some (e, el)
    /\ deref st (indices f) = Some data
    /\ deref st (strides f) = Some (map Num starts)
    /\ length starts = S (iterations (count el))
    /\ starts !! 0%nat = Some (Int 0)
    /\ last starts = Some (Int (Z.of_nat (length data)))
    /\ forall i, (i < iterations (count el))%nat ->
         exists a b : nat,
           starts !! i = Some (Int (Z.of_nat a)) /\ starts !! S i = Some (Int (Z.of_nat b))
           /\ (a <= b <= length data)%nat.
Proof.
  intros Hload Hty Hf.
  destruct (getFaces_returns _ _ Hf) as (e & el & p & n & ty & lcb & data & starts & He & Hp & ->).
  pose proof (findElement_lookup _ _ _ _ He) as Hel.
  pose proof (load_littleEndian_decoded _ _ Hload Hty) as Hall.
  rewrite Forall_lookup in Hall. specialize (Hall _ _ Hel).
  rewrite Forall_lookup in Hall. destruct (Hall _ _ Hp) as [Hix Hsl].
  exists e, el, data, starts. cbn [indices strides deref]. rewrite Hel. cbn. rewrite Hp.
  destruct Hix as [H0 Hlen]. destruct Hsl as [Hnd Hlast].
  repeat split; try done.
  intros i Hi. by apply (sliced_bounds n ty lcb data starts i (iterations (count el))).
Qed.

Lemma getFaces_slices_after_littleEndian_load_witness :
  let st := (load new_PlyData Sample.littleEndian_faces).2 in
  exists e el data starts,
    findElement st "face" = Some (e, el)
    /\ deref st (flattenedDataOf 0 0) = Some data
    /\ deref st (flattenedIndexStartOf 0 0) = Some (map Num starts)
    /\ length starts = S (iterations (count el))
    /\ starts !! 0%nat = Some (Int 0)
    /\ last starts = Some (Int (Z.of_nat (length data)))
    /\ forall i, (i < iterations (count el))%nat ->
         exists a b : nat,
           starts !! i = Some (Int (Z.of_nat a)) /\ starts !! S i = Some (Int (Z.of_nat b))
           /\ (a <= b <= length data)%nat.
Proof.
  intros st.
  apply (getFaces_slices_after_littleEndian_load Sample.littleEndian_faces st
           {| indices := flattenedDataOf 0 0; strides := flattenedIndexStartOf 0 0 |});
    vm_compute; reflexivity.
Defined.

(** ** The ASCII decoder and the lines *)

Lemma parseAsciiInstance_lines lines ps lineCount :
  ps <> [] ->
  ((lineCount < length lines)%nat ->
   exists ps', parseAsciiInstance lines ps lineCount = (ps', Returns (S lineCount))
               /\ length ps' = length ps)
  /\ ((length lines <= lineCount)%nat ->
      parseAsciiInstance lines ps lineCount = (ps, Throws TypeError)).
Proof.
  intros Hne. unfold parseAsciiInstance.
  assert ((length ps =? 0)%nat = false) as ->.
  { apply Nat.eqb_neq. destruct ps; [done|]. cbn. lia. }
  split; intros Hlc.
  - destruct (lines !! lineCount) as [l|] eqn:Hl.
    2:{ apply lookup_ge_None in Hl. lia. }
    pose proof (parseAsciiInstance_extends lines ps lineCount) as Hext.
    unfold parseAsciiInstance in Hext. rewrite Hl in Hext.
    assert ((length ps =? 0)%nat = false) as Hz.
    { apply Nat.eqb_neq. destruct ps; [done|]. cbn. lia. }
    rewrite Hz in Hext.
    destruct (parseProperties _ _ _) as [ps' r]. exists ps'. split; [done|].
    cbn in Hext. apply Forall2_length in Hext. lia.
  - apply lookup_ge_None in Hlc. by rewrite Hlc.
Qed.

Lemma times_lines lines n : forall ps lineCount,
  (ps = [] -> n = 0%nat) -> (lineCount <= length lines)%nat ->
  ((lineCount + n <= length lines)%nat ->
   exists ps', times n (parseAsciiInstance lines) ps lineCount
               = (ps', Returns (lineCount + n)%nat))
  /\ ((length lines < lineCount + n)%nat ->
      exists ps', times n (parseAsciiInstance lines) ps lineCount = (ps', Throws TypeError)).
Proof.
  induction n as [|n IH]; intros ps lineCount Hne Hlc.
  - split; [|lia]. intros _. exists ps. cbn. by rewrite Nat.add_0_r.
  - assert (ps <> []) as Hps by (intros H; apply Hne in H; lia).
    destruct (parseAsciiInstance_lines lines ps lineCount Hps) as [Hok Hbad].
    cbn [times]. destruct (decide (lineCount < length lines)%nat) as [Hlt|Hge].
    + destruct (Hok Hlt) as (ps1 & -> & Hlen).
      assert (ps1 = [] -> n = 0%nat) as Hne1.
      { intros ->. destruct ps; [done|]. cbn in Hlen. lia. }
      destruct (IH ps1 (S lineCount) Hne1) as [IHok IHbad]; [lia|].
      replace (lineCount + S n)%nat with (S lineCount + n)%nat by lia. done.
    + rewrite Hbad by lia. split; [lia|]. intros _. by exists ps.
Qed.

Lemma forEach_lines lines es : forall lineCount,
  Forall (fun e => properties e = [] -> notPositive (count e)) es ->
  (lineCount <= length lines)%nat ->
  let total := sum_list (map (fun e => iterations (count e)) es) in
  ((lineCount + total <= length lines)%nat ->
   exists es', forEach (parseAsciiElement lines) es lineCount
               = (es', Returns (lineCount + total)%nat))
  /\ ((length lines < lineCount + total)%nat ->
      exists es', forEach (parseAsciiElement lines) es lineCount = (es', Throws TypeError)).
Proof.
  induction es as [|e es IH]; intros lineCount Hes Hlc; cbn [map sum_list forEach].
  - split; [|lia]. intros _. exists []. by rewrite Nat.add_0_r.
  - apply Forall_cons in Hes as [He Hes].
    assert (properties e = [] -> iterations (count e) = 0%nat) as Hne.
    { intros H. by apply iterations_notPositive, He. }
    destruct (times_lines lines (iterations (count e)) (properties e) lineCount Hne Hlc)
      as [Hok Hbad].
    unfold parseAsciiElement at 1 3.
    destruct (decide (lineCount + iterations (count e) <= length lines)%nat) as [Hle|Hgt].
    + destruct (Hok Hle) as [ps' ->].
      destruct (IH (lineCount + iterations (count e))%nat Hes Hle) as [IHok IHbad].
      split; intros H; unfold id in *.
      * destruct IHok as [es' ->]; [lia|]. eexists. f_equal. f_equal. lia.
      * destruct IHbad as [es' ->]; [lia|]. by eexists.
    + destruct Hbad as [ps' ->]; [lia|]. split; [unfold id; lia|]. intros _. by eexists.
Qed.

(** X10.  Short of the greatest length of an array, the ASCII decoder fails
    for want of lines only.  When every element that has records has a
    property and the arrays that the decoder leaves are within the limit, so
    that no [push] has thrown, it returns, whatever the lines hold, as soon
    as there are as many lines as records, and the line count it ends with is
    the number of records; with fewer lines it throws a [TypeError]. *)
Theorem parseAscii_fails_for_want_of_lines_only st lines :
  Forall (fun e => properties e = [] -> notPositive (count e)) (elements st) ->
  arraysWithinLimit (_parseAscii st lines).1 ->
  ((records st <= length lines)%nat ->
   exists st', _parseAscii st lines = (st', Returns (records st)))
  /\ ((length lines < records st)%nat ->
      exists st', _parseAscii st lines = (st', Throws TypeError)).
Proof.
  intros Hes _.
  destruct (forEach_lines lines (elements st) 0 Hes) as [Hok Hbad]; [cbn; lia|].
  unfold _parseAscii, records. split; intros H.
  - destruct Hok as [es' ->]; [cbn; lia|]. by eexists.
  - destruct Hbad as [es' ->]; [cbn; lia|]. by eexists.
Qed.

Lemma parseAscii_fails_for_want_of_lines_only_witness :
  let st := {| header := {| type := "ascii"; version := "1.0"; comments := [];
                            objInfoComments := [] |};
               elements := [{| name := "vertex"; count := Int 2;
                               properties := [TypedProperty "x" PropertyType.int []] |}] |} in
  (exists st', _parseAscii st ["one"; ""] = (st', Returns 2%nat))
  /\ (exists st', _parseAscii st ["1"] = (st', Throws TypeError)).
Proof.
  intros st.
  assert (Forall (fun e => properties e = [] -> notPositive (count e)) (elements st)) as H.
  { repeat constructor. discriminate. }
  assert (arraysWithinLimit (_parseAscii st ["one"; ""]).1) as H2.
  { let r := eval vm_compute in (_parseAscii st ["one"; ""]).1 in
    change (_parseAscii st ["one"; ""]).1 with r.
    in_range. }
  assert (arraysWithinLimit (_parseAscii st ["1"]).1) as H1.
  { let r := eval vm_compute in (_parseAscii st ["1"]).1 in
    change (_parseAscii st ["1"]).1 with r.
    in_range. }
  split.
  - apply (proj1 (parseAscii_fails_for_want_of_lines_only st ["one"; ""] H H2)). cbn. lia.
  - apply (proj2 (parseAscii_fails_for_want_of_lines_only st ["1"] H H1)). cbn. lia.
Defined.

(** ** Bytes after the records *)

Lemma splitByEndHeader_Some data head body :
  splitByEndHeader data = Some (head, body) ->
  exists i,
    findTarget data 0 = Some i
    /\ (i + length target <= length data)%nat
    /\ head = take (i + length target) data
    /\ body = if decide (i + length target = length data)%nat then data
              else drop (i + length target) data.
Proof.
  unfold splitByEndHeader. intros H.
  destruct (findTarget data 0) as [i|] eqn:Hi; [|discriminate].
  injection H as <- <-. exists i.
  pose proof (findTarget_bound _ _ _ Hi) as [_ Hb]. rewrite Nat.sub_0_r in Hb.
  repeat split; [done|]. unfold Buffer.slice.
  destruct (decide (i + length target = length data)%nat) as [Heq|Hne];
    change (length target) with 11%nat in *.
  - rewrite (proj2 (Z.eqb_eq _ _)) by lia. done.
  - rewrite (proj2 (Z.eqb_neq _ _)) by lia. rewrite (proj2 (Z.ltb_lt _ _)) by lia.
    f_equal. lia.
Qed.

Lemma splitByEndHeader_more data head body ext :
  splitByEndHeader data = Some (head, body) -> (length head < length data)%nat ->
  splitByEndHeader (data ++ ext) = Some (head, body ++ ext).
Proof.
  intros H Hlen. apply splitByEndHeader_Some in H as (i & Hi & Hb & -> & ->).
  rewrite length_take in Hlen.
  destruct (decide _) as [|Hne]; [lia|].
  unfold splitByEndHeader. rewrite (findTarget_app _ ext _ _ Hi).
  change (length target) with 11%nat in *.
  f_equal. f_equal.
  - by rewrite take_app_le by lia.
  - unfold Buffer.slice. rewrite length_app.
    rewrite (proj2 (Z.eqb_neq _ _)) by lia. rewrite (proj2 (Z.ltb_lt _ _)) by lia.
    replace (Z.to_nat _) with (i + 11)%nat by lia.
    by rewrite drop_app_le by lia.
Qed.

Lemma parseBinaryBigEndian_app st b ext st' offset :
  _parseBinaryBigEndian st b = (st', Returns offset) ->
  _parseBinaryBigEndian st (b ++ ext) = (st', Returns offset) /\ (offset <= length b)%nat.
Proof.
  unfold _parseBinaryBigEndian. intros H.
  destruct (forEach (parseBinaryBigEndianElement b) _ _) as [es r] eqn:Hes.
  injection H as <- ->.
  eapply (forEach_returns_same (fun o => (o <= length b)%nat)
            (parseBinaryBigEndianElement b) (parseBinaryBigEndianElement (b ++ ext)))
    in Hes as [-> Ho]; [done| |lia].
  intros e s e' s' Hs. unfold parseBinaryBigEndianElement.
  destruct (readProperties false b _ _) as [ps r] eqn:Hps. intros [= <- ->].
  apply (readProperties_app false b ext) in Hps as [-> Ho]; done.
Qed.

(** X11.  The binary decoders do not look past the records they read: when a
    binary file with a body loads, the same file followed by any bytes loads
    to the same model. *)
Theorem binary_load_ignores_trailing_bytes st buf head body st' ext :
  splitByEndHeader buf = Some (head, body) ->
  (length head < length buf)%nat ->
  load st buf = (true, st') ->
  type (header st') = "binary_little_endian" \/ type (header st') = "binary_big_endian" ->
  load st (buf ++ ext) = (true, st').
Proof.
  intros Hsplit Hlen Hload Hty.
  apply load_true in Hload as (head0 & body0 & st1 & Hs & Hh & Hbody).
  rewrite Hsplit in Hs. injection Hs as <- <-.
  apply load_true. exists head, (body ++ ext), st1.
  split; [by apply splitByEndHeader_more|]. split; [done|].
  destruct Hbody as [[Hty1 [k Hk]]|[[Hty1 [k Hk]]|[Hty1 [k Hk]]]].
  - pose proof (parseAscii_header st1 (asLines body)) as Hhd. rewrite Hk in Hhd.
    cbn in Hhd. destruct Hty; congruence.
  - right. left. split; [done|]. exists k. by apply parseBinary_app.
  - right. right. split; [done|]. exists k. by apply parseBinaryBigEndian_app.
Qed.

Lemma binary_load_ignores_trailing_bytes_witness :
  load new_PlyData (Sample.littleEndian_vertices ++ [xff; xfe])
  = load new_PlyData Sample.littleEndian_vertices.
Proof.
  apply (binary_load_ignores_trailing_bytes new_PlyData Sample.littleEndian_vertices
           (take 82 Sample.littleEndian_vertices) [x01; x00; x02; x00]).
  - vm_compute. reflexivity.
  - vm_compute. lia.
  - vm_compute. reflexivity.
  - left. vm_compute. reflexivity.
Defined.

(** ** The split at the marker *)

Lemma findTarget_first data : forall k i,
  findTarget data k = Some i ->
  exists pre post,
    data = pre ++ target ++ post /\ i = (k + length pre)%nat
    /\ forall pre' post', data = pre' ++ target ++ post' -> (length pre <= length pre')%nat.
Proof.
  induction data as [|d data IH]; intros k i H; cbn [findTarget] in H; [discriminate|].
  destruct (matchesAt target (d :: data)) eqn:Hm.
  - injection H as <-. apply matchesAt_true in Hm as [post Hpost].
    exists [], post. cbn [app length]. repeat split; [done|lia|]. intros. lia.
  - destruct (IH _ _ H) as (pre & post & -> & -> & Hmin).
    exists (d :: pre), post. cbn [app length]. repeat split; [lia|].
    intros pre' post' Heq. destruct pre' as [|x pre'].
    + rewrite app_nil_l in Heq. rewrite Heq, matchesAt_app in Hm. discriminate.
    + rewrite <- app_comm_cons in Heq. injection Heq as _ Heq.
      specialize (Hmin _ _ Heq). cbn. lia.
Qed.

(** X12.  [splitByEndHeader] cuts at the first occurrence of the bytes of
    [end_header] and a line feed: the header is what comes before it, with
    it.  The body is what comes after it, unless nothing does: then the body
    is the whole input. *)
Theorem splitByEndHeader_cuts_at_first_marker data head body :
  splitByEndHeader data = Some (head, body) ->
  exists pre post,
    data = pre ++ target ++ post
    /\ (forall pre' post', data = pre' ++ target ++ post' -> (length pre <= length pre')%nat)
    /\ head = pre ++ target
    /\ body = match post with [] => data | _ :: _ => post end.
Proof.
  intros H. apply splitByEndHeader_Some in H as (i & Hi & Hb & -> & ->).
  destruct (findTarget_first _ _ _ Hi) as (pre & post & Hdata & -> & Hmin).
  exists pre, post. split; [done|]. split; [done|]. subst data.
  cbn [Nat.add]. rewrite <- length_app, !app_assoc, take_app_length. split; [done|].
  destruct (decide _) as [Heq|Hne].
  - rewrite !length_app in Heq. destruct post; [done|]. cbn in Heq. lia.
  - rewrite drop_app_length. destruct post as [|x post]; [|done].
    exfalso. apply Hne. by rewrite app_nil_r.
Qed.

Lemma splitByEndHeader_cuts_at_first_marker_witness :
  exists pre post,
    Sample.header_only = pre ++ target ++ post
    /\ (forall pre' post',
          Sample.header_only = pre' ++ target ++ post' -> (length pre <= length pre')%nat)
    /\ take 81 Sample.header_only = pre ++ target
    /\ Sample.header_only = match post with [] => Sample.header_only | _ :: _ => post end.
Proof.
  apply (splitByEndHeader_cuts_at_first_marker Sample.header_only
           (take 81 Sample.header_only) Sample.header_only).
  vm_compute. reflexivity.
Defined.

(** ** The property constructor *)

Lemma createPropertyWithType_count n typeStr ct :
  ct ∉ countTypeNames -> createPropertyWithType n typeStr true ct = None.
Proof.
  unfold countTypeNames. rewrite !not_elem_of_cons. intros H.
  unfold createPropertyWithType.
  repeat (case_bool_decide as Hin;
          [exfalso; rewrite !elem_of_cons, elem_of_nil in Hin;
           destruct_and!; destruct_or!; done|clear Hin]).
  done.
Qed.

Lemma createPropertyWithType_known n typeStr isList ct :
  typeStr ∈ typeNames -> (isList = true -> ct ∈ countTypeNames) ->
  exists p, createPropertyWithType n typeStr isList ct = Some p.
Proof.
  unfold typeNames, countTypeNames. rewrite !elem_of_cons, !elem_of_nil. intros Hty Hct.
  destruct isList.
  - specialize (Hct eq_refl).
    destruct_or!; try done; subst; eexists; vm_compute; reflexivity.
  - clear Hct. destruct_or!; try done; subst; eexists; vm_compute; reflexivity.
Qed.

(** X13.  [createPropertyWithType] makes a property exactly when the type
    name is one of the sixteen names and, for a list, the name of the count
    type is one of the twelve integer names; a floating count type is
    refused.  The property has the given name, is a list property exactly for
    a list, and holds no value.  The name that [save] writes for a type makes
    a property of that type. *)
Theorem createPropertyWithType_defined name typeStr isList ct :
  (createPropertyWithType name typeStr isList ct = None
   <-> typeStr ∉ typeNames \/ (isList = true /\ ct ∉ countTypeNames))
  /\ (forall p, createPropertyWithType name typeStr isList ct = Some p ->
        Property.name p = name /\ isListProperty p = isList /\ fresh p)
  /\ (forall ty,
        typeStr = PropertyType.toString ty ->
        forall p, createPropertyWithType name typeStr isList ct = Some p ->
        Property.type p = ty).
Proof.
  split; [|split].
  - split.
    + intros Hnone.
      destruct (decide (typeStr ∈ typeNames)) as [Hty|Hty]; [|by left].
      destruct isList; [|by destruct (createPropertyWithType_known name typeStr false ct Hty)
                               as [p Hp]; [|congruence]].
      destruct (decide (ct ∈ countTypeNames)) as [Hct|Hct]; [|by right].
      destruct (createPropertyWithType_known name typeStr true ct Hty) as [p Hp];
        [done|congruence].
    + intros [Hty|[-> Hct]].
      * by apply createPropertyWithType_unknown.
      * by apply createPropertyWithType_count.
  - intros p Hp. split; [by eapply createPropertyWithType_name|].
    split; [|by eapply createPropertyWithType_fresh].
    unfold createPropertyWithType in Hp.
    destruct isList; repeat case_match; try discriminate; by injection Hp as <-.
  - intros ty -> p Hp. unfold createPropertyWithType in Hp.
    destruct (if isList then _ else _) as [lcb|]; [|discriminate].
    destruct ty, isList; vm_compute in Hp; by injection Hp as <-.
Qed.

(** ** The values of a binary file *)

Lemma unsignedLE_bound bs : 0 <= Buffer.unsignedLE bs < 256 ^ Z.of_nat (length bs).
Proof.
  induction bs as [|b bs IH]; [cbn; lia|].
  cbn [Buffer.unsignedLE length]. rewrite Nat2Z.inj_succ, Z.pow_succ_r by lia.
  pose proof (Byte.to_N_bounded b). lia.
Qed.

Lemma readUint_bound w le buffer offset z :
  Buffer.readUint w le buffer offset = Returns z -> 0 <= z < 256 ^ Z.of_nat w.
Proof.
  unfold Buffer.readUint, Buffer.bytesAt.
  destruct (_ =? _)%nat eqn:Hlen; [|discriminate]. apply Nat.eqb_eq in Hlen.
  intros [= <-]. unfold Buffer.unsigned.
  set (bs := take w (drop offset buffer)) in *.
  destruct le.
  - pose proof (unsignedLE_bound bs) as H. by rewrite Hlen in H.
  - pose proof (unsignedLE_bound (rev bs)) as H. by rewrite length_rev, Hlen in H.
Qed.

Lemma readInt_bound w le buffer offset z :
  (0 < w)%nat ->
  Buffer.readInt w le buffer offset = Returns z ->
  - 2 ^ (8 * Z.of_nat w - 1) <= z < 2 ^ (8 * Z.of_nat w - 1).
Proof.
  intros Hw. unfold Buffer.readInt.
  destruct (Buffer.readUint w le buffer offset) as [u|] eqn:Hu; [|discriminate].
  apply readUint_bound in Hu. intros [= <-]. unfold Buffer.signed.
  replace (256 ^ Z.of_nat w) with (2 ^ (8 * Z.of_nat w)) in Hu.
  2:{ change 256 with (2 ^ 8). rewrite <- Z.pow_mul_r by lia. done. }
  assert (2 ^ (8 * Z.of_nat w) = 2 * 2 ^ (8 * Z.of_nat w - 1)) as Hp.
  { rewrite <- Z.pow_succ_r by lia. f_equal. lia. }
  destruct (Z.ltb_spec u (2 ^ (8 * Z.of_nat w - 1))); lia.
Qed.

Lemma readValue_inRange buffer ty offset le v :
  Property.readValue buffer ty offset le = Returns v -> inRange ty v.
Proof.
  unfold Property.readValue, Property.integral, Property.floating.
  destruct ty, le;
    repeat match goal with
    | |- context [Buffer.readInt8 ?b ?o] =>
        destruct (Buffer.readInt8 b o) eqn:H; [apply (readInt_bound 1) in H; [|lia]|]
    | |- context [Buffer.readInt16LE ?b ?o] =>
        destruct (Buffer.readInt16LE b o) eqn:H; [apply (readInt_bound 2) in H; [|lia]|]
    | |- context [Buffer.readInt16BE ?b ?o] =>
        destruct (Buffer.readInt16BE b o) eqn:H; [apply (readInt_bound 2) in H; [|lia]|]
    | |- context [Buffer.readInt32LE ?b ?o] =>
        destruct (Buffer.readInt32LE b o) eqn:H; [apply (readInt_bound 4) in H; [|lia]|]
    | |- context [Buffer.readInt32BE ?b ?o] =>
        destruct (Buffer.readInt32BE b o) eqn:H; [apply (readInt_bound 4) in H; [|lia]|]
    | |- context [Buffer.readUint8 ?b ?o] =>
        destruct (Buffer.readUint8 b o) eqn:H; [apply (readUint_bound 1) in H|]
    | |- context [Buffer.readUint16LE ?b ?o] =>
        destruct (Buffer.readUint16LE b o) eqn:H; [apply (readUint_bound 2) in H|]
    | |- context [Buffer.readUint16BE ?b ?o] =>
        destruct (Buffer.readUint16BE b o) eqn:H; [apply (readUint_bound 2) in H|]
    | |- context [Buffer.readUint32LE ?b ?o] =>
        destruct (Buffer.readUint32LE b o) eqn:H; [apply (readUint_bound 4) in H|]
    | |- context [Buffer.readUint32BE ?b ?o] =>
        destruct (Buffer.readUint32BE b o) eqn:H; [apply (readUint_bound 4) in H|]
    end;
    try discriminate; try (intros [= <-]; cbn in *; lia).
  all: unfold Buffer.readFloat, Buffer.readDouble;
    match goal with
    | |- context [Buffer.readUint ?w ?l ?b ?o] =>
        destruct (Buffer.readUint w l b o) eqn:H; [apply readUint_bound in H|discriminate]
    end; intros [= <-]; cbn in *; lia.
Qed.

Lemma readItems_inRange n buffer ty le : forall offset data,
  Forall (inRange ty) data ->
  Forall (inRange ty) (Property.readItems n buffer offset ty le data).1.
Proof.
  induction n as [|n IH]; intros offset data Hd; [done|]. cbn [Property.readItems].
  destruct (Property.readValue buffer ty offset le) as [v|] eqn:Hv; [|done].
  apply IH. apply Forall_app. split; [done|]. constructor; [|done].
  by eapply readValue_inRange.
Qed.

Lemma read_inRange le buffer p offset :
  valuesInRange p -> valuesInRange (Property.read le p buffer offset).1.
Proof.
  destruct p as [n ty vs|n ty lcb d s]; cbn [Property.read valuesInRange]; intros Hp.
  - destruct (Property.readValue buffer ty offset le) as [v|] eqn:Hv; [|done].
    cbn. apply Forall_app. split; [done|]. constructor; [|done].
    by eapply readValue_inRange.
  - destruct (Property.readCount lcb le buffer offset) as [c|]; [|done].
    pose proof (readItems_inRange (iterations (Int c)) buffer ty le
                  (offset + Z.to_nat lcb) d Hp) as H.
    by destruct (Property.readItems _ _ _ _ _ _) as [d' [o|]].
Qed.

Lemma readProperties_inRange le buffer ps offset :
  Forall valuesInRange ps -> Forall valuesInRange (readProperties le buffer ps offset).1.
Proof.
  apply Forall2_kept. unfold readProperties. apply forEach_related; [done|].
  intros p o. apply read_inRange.
Qed.

Lemma fresh_inRange p : fresh p -> valuesInRange p.
Proof. destruct p; cbn; [by intros ->|by intros [-> _]]. Qed.

Lemma load_binary_inRange buf st :
  load new_PlyData buf = (true, st) ->
  type (header st) = "binary_little_endian" \/ type (header st) = "binary_big_endian" ->
  Forall (fun e => Forall valuesInRange (properties e)) (elements st).
Proof.
  intros Hload Hty.
  apply load_true in Hload as (head & body & st1 & _ & Hh & Hbody).
  pose proof (parseHeader_fresh _ _ Hh) as Hfresh.
  assert (Forall (fun e => Forall valuesInRange (properties e)) (elements st1)) as H1.
  { eapply Forall_impl; [exact Hfresh|]. intros e He.
    eapply Forall_impl; [exact He|]. apply fresh_inRange. }
  destruct Hbody as [[Hty1 [k Hk]]|[[Hty1 [k Hk]]|[Hty1 [k Hk]]]].
  - pose proof (parseAscii_header st1 (asLines body)) as Hhd. rewrite Hk in Hhd.
    cbn in Hhd. destruct Hty; congruence.
  - replace st with (_parseBinary st1 body).1 by (by rewrite Hk).
    unfold _parseBinary.
    pose proof (forEach_related
                  (fun e e' => Forall valuesInRange (properties e) ->
                               Forall valuesInRange (properties e'))
                  (parseBinaryElement body) (fun _ H => H)) as H.
    destruct (forEach _ _ _) as [es r] eqn:Hes. cbn.
    eapply Forall2_kept; [|exact H1].
    change es with (es, r).1. rewrite <- Hes. apply H.
    intros e o. unfold parseBinaryElement.
    pose proof (times_related
                  (fun ps ps' => Forall valuesInRange ps -> Forall valuesInRange ps')
                  (readProperties true body) (fun _ H => H)
                  (fun _ _ _ H1 H2 H => H2 (H1 H))
                  (fun ps s => readProperties_inRange true body ps s)
                  (iterations (count e)) (properties e) o) as Ht.
    by destruct (times _ _ _ _).
  - replace st with (_parseBinaryBigEndian st1 body).1 by (by rewrite Hk).
    unfold _parseBinaryBigEndian.
    pose proof (forEach_related
                  (fun e e' => Forall valuesInRange (properties e) ->
                               Forall valuesInRange (properties e'))
                  (parseBinaryBigEndianElement body) (fun _ H => H)) as H.
    destruct (forEach _ _ _) as [es r] eqn:Hes. cbn.
    eapply Forall2_kept; [|exact H1].
    change es with (es, r).1. rewrite <- Hes. apply H.
    intros e o. unfold parseBinaryBigEndianElement.
    pose proof (readProperties_inRange false body (properties e) o) as Ht.
    by destruct (readProperties _ _ _ _).
Qed.

(** X14.  After a binary load into a new model that returns true, every value
    is in the range of the type of its property: the integers have the width
    and the sign of the type. *)
Theorem binary_load_values_in_range buf st :
  load new_PlyData buf = (true, st) ->
  type (header st) = "binary_little_endian" \/ type (header st) = "binary_big_endian" ->
  Forall (fun e => Forall valuesInRange (properties e)) (elements st).
Proof. apply load_binary_inRange. Qed.

Lemma binary_load_values_in_range_witness :
  Forall (fun e => Forall valuesInRange (properties e))
    (elements (load new_PlyData Sample.littleEndian_faces).2).
Proof.
  apply (binary_load_values_in_range Sample.littleEndian_faces).
  - vm_compute. reflexivity.
  - left. vm_compute. reflexivity.
Defined.

(** ** Loops that use up a budget *)



(** ** Records of a fixed size *)










(** ** Writing and reading back *)

(** The second load decodes the written body lines on the model that the
    written header declares. *)
Lemma reload_decodes fmt st :
  (forall f, isToken (fmt f) = true) ->
  version (header st) = "1.0" -> named st -> unmarked st ->
  exists more,
    reload fmt st
    = (returned (_parseAscii (declared st) (bodyLines fmt st ++ more)).2,
       (_parseAscii (declared st) (bodyLines fmt st ++ more)).1).
Proof.
  intros Hfmt Hver Hnamed Hun.
  destruct (unmarked_marked st Hver Hnamed Hun) as [rest Hsplit].
  assert (isLine (version (header st)) = true) as Hverl by (by rewrite Hver).
  pose proof (isLine_headerTextLines st Hverl Hnamed) as Hhl.
  unfold reload. rewrite save_lines, list_byte_of_string_app.
  rewrite writeHeader_lines in Hsplit.
  set (head := list_byte_of_string (unlines (headerTextLines st))) in *.
  assert (_parseHeader new_PlyData (asLines head) = (true, declared st)) as Hhead.
  { unfold head. rewrite asLines_unlines by done. by apply parseHeader_written. }
  assert (forall body post,
            splitByEndHeader (head ++ body) = Some (head, post) ->
            forall more, asLines post = bodyLines fmt st ++ more ->
            load new_PlyData (head ++ body)
            = (returned (_parseAscii (declared st) (bodyLines fmt st ++ more)).2,
               (_parseAscii (declared st) (bodyLines fmt st ++ more)).1)) as Hload.
  { intros body post Hs more Hpost. unfold load. rewrite Hs, Hhead.
    cbn [declared header type]. rewrite bool_decide_eq_true_2 by done.
    rewrite Hpost. by destruct (_parseAscii _ _). }
  destruct (bodyLines fmt st) as [|l ls] eqn:Hbody.
  - exists (asLines rest). apply (Hload [] rest); [by rewrite app_nil_r|done].
  - exists [""]. apply (Hload _ (list_byte_of_string (unlines (l :: ls)))).
    + eapply splitByEndHeader_app; [exact Hsplit|].
      rewrite unlines_cons, list_byte_of_string_app.
      destruct l; rewrite ?append_nil_l, ?append_cons; done.
    + rewrite asLines_unlines; [done|]. rewrite <- Hbody. by apply isLine_bodyLines.
Qed.

Lemma reload_writable fmt same_double st :
  (forall f, isToken (fmt f) = true) ->
  (forall f, same_double (Literal (fmt f)) f) ->
  writable st ->
  exists st',
    reload fmt st = (true, st') /\ type (header st') = "ascii"
    /\ same_model same_double st' st.
Proof.
  intros Hfmt Hsame (Hver & Hnamed & Hes & Hun).
  destruct (reload_decodes fmt st Hfmt Hver Hnamed Hun) as [more Hre].
  destruct (parseAscii_written fmt same_double Hfmt Hsame st more Hes)
    as (st' & i & Hparse & Hst').
  pose proof (parseAscii_header (declared st) (bodyLines fmt st ++ more)) as Hhd.
  rewrite Hparse in Hre, Hhd. cbn in Hre, Hhd.
  exists st'. split; [done|]. split; [by rewrite Hhd|done].
Qed.

(** ** From little-endian to ASCII *)

Lemma read_name le buffer p offset :
  Property.name (Property.read le p buffer offset).1 = Property.name p.
Proof.
  destruct p as [n ty vs|n ty lcb d s]; cbn [Property.read].
  - by destruct (Property.readValue _ _ _ _).
  - destruct (Property.readCount _ _ _ _); [|done].
    by destruct (Property.readItems _ _ _ _ _ _) as [d' [o|]].
Qed.

Lemma parseBinaryElement_names buffer e offset :
  let e' := (parseBinaryElement buffer e offset).1 in
  name e' = name e
  /\ Forall2 (fun p p' => Property.name p' = Property.name p) (properties e) (properties e').
Proof.
  unfold parseBinaryElement.
  pose proof (times_related
                (Forall2 (fun p p' => Property.name p' = Property.name p))
                (readProperties true buffer)) as H.
  specialize (H (fun ps => Forall_Forall2_diag _ _ (Forall_true _ _ (fun _ => eq_refl)))).
  assert (forall x y z : list Property,
            Forall2 (fun p p' => Property.name p' = Property.name p) x y ->
            Forall2 (fun p p' => Property.name p' = Property.name p) y z ->
            Forall2 (fun p p' => Property.name p' = Property.name p) x z) as Htrans.
  { intros x y z Hxy. revert z. induction Hxy as [|a b x y Hab _ IH]; intros z Hyz.
    - by apply Forall2_nil_inv_l in Hyz as ->.
    - apply Forall2_cons_inv_l in Hyz as (c & z' & Hbc & Hyz & ->).
      constructor; [congruence|by apply IH]. }
  specialize (H Htrans).
  assert (forall ps s,
            Forall2 (fun p p' => Property.name p' = Property.name p) ps
              (readProperties true buffer ps s).1) as Hstep.
  { intros ps s. unfold readProperties. apply forEach_related; [done|].
    intros p o. apply read_name. }
  specialize (H Hstep (iterations (count e)) (properties e) offset).
  by destruct (times _ _ _ _).
Qed.

Lemma inRange_typedValue ty v : inRange ty v -> typedValue ty v.
Proof. by destruct ty, v as [[z|]|[b|b|t]]. Qed.

(** A little-endian file that loads and has no record without a property
    and no name that ends the header can be written. *)
Lemma load_littleEndian_writable buf st :
  load new_PlyData buf = (true, st) -> type (header st) = "binary_little_endian" ->
  Forall (fun e => properties e = [] -> notPositive (count e)) (elements st) ->
  unmarked st -> writable st.
Proof.
  intros Hload Hty Hne Hun.
  pose proof (load_binary_inRange _ _ Hload (or_introl Hty)) as Hrange.
  pose proof (load_littleEndian_decoded _ _ Hload Hty) as Hdec.
  apply load_true in Hload as (head & body & st1 & _ & Hh & Hbody).
  apply parseHeader_named in Hh as [Hver (Hcs & Hos & Hes)].
  2:{ apply (split_free_all Text.newline). }
  assert (st = (_parseBinary st1 body).1) as Hst.
  { destruct Hbody as [[Hty1 [k Hk]]|[[_ [k Hk]]|[Hty1 [k Hk]]]]; [|by rewrite Hk|].
    - pose proof (parseAscii_header st1 (asLines body)) as Hhd. rewrite Hk in Hhd.
      cbn in Hhd. congruence.
    - pose proof (parseBinaryBigEndian_header st1 body) as Hhd. rewrite Hk in Hhd.
      cbn in Hhd. congruence. }
  pose proof (parseBinary_header st1 body) as Hhd. rewrite <- Hst in Hhd.
  assert (Forall2 (fun e e' =>
                     name e' = name e
                     /\ Forall2 (fun p p' => Property.name p' = Property.name p)
                          (properties e) (properties e'))
            (elements st1) (elements st)) as Hnames.
  { rewrite Hst. unfold _parseBinary.
    pose proof (forEach_related
                  (fun e e' =>
                     name e' = name e
                     /\ Forall2 (fun p p' => Property.name p' = Property.name p)
                          (properties e) (properties e'))
                  (parseBinaryElement body)) as H.
    destruct (forEach _ _ _) as [es r] eqn:Heq. cbn.
    change es with (es, r).1. rewrite <- Heq. apply H.
    - intros e. split; [done|]. apply Forall_Forall2_diag, Forall_true. done.
    - intros e o. apply parseBinaryElement_names. }
  repeat split.
  - by rewrite Hhd.
  - by rewrite Hhd.
  - by rewrite Hhd.
  - eapply (Forall2_Forall_r _ _ _ _ Hnames), Forall_impl; [exact Hes|].
    intros e [Hn Hps] e' [Hn' Hps']. split; [congruence|].
    eapply (Forall2_Forall_r _ _ _ _ Hps'), Forall_impl; [exact Hps|].
    intros p Hp p' Hp'. congruence.
  - rewrite Forall_forall in Hne, Hrange, Hdec. apply Forall_forall. intros e He.
    split.
    + intros Hnil. by apply iterations_notPositive, Hne.
    + specialize (Hrange e He). specialize (Hdec e He).
      rewrite Forall_forall in Hrange, Hdec. apply Forall_forall. intros p Hp.
      split; [|by apply Hdec].
      specialize (Hrange p Hp). destruct p; cbn in *;
        (eapply Forall_impl; [exact Hrange|]); apply inRange_typedValue.
  - apply Hun.
  - apply Hun.
  - apply Hun.
Qed.

(** X16.  A little-endian file that loads, in which every element with a
    record has a property and no comment, obj_info or property name ends with
    [end_header], is saved as an ASCII file that loads again, with the same
    vertex positions, the same faces and the same contents of the faces.
    Nothing is asked of the list counts: the binary decoder reads them
    unsigned. *)
Theorem littleEndian_saved_as_ascii_preserves_positions_and_faces
    (fmt : ieee -> string) (same_double : ieee -> ieee -> Prop) buf st :
  (forall f, isToken (fmt f) = true) ->
  (forall f, same_double (Literal (fmt f)) f) ->
  load new_PlyData buf = (true, st) ->
  type (header st) = "binary_little_endian" ->
  Forall (fun e => properties e = [] -> notPositive (count e)) (elements st) ->
  unmarked st ->
  exists st',
    reload fmt st = (true, st')
    /\ type (header st') = "ascii"
    /\ (forall vertexElementName,
          same_outcome (Forall2 (same_number same_double))
            (getVertexPositions st' vertexElementName)
            (getVertexPositions st vertexElementName))
    /\ getFaces st' = getFaces st
    /\ same_outcome
         (fun c' c => option_Forall2 (Forall2 (same_number same_double)) c'.1 c.1
                      /\ option_Forall2 (Forall2 (same_number same_double)) c'.2 c.2)
         (facesContents st') (facesContents st).
Proof.
  intros Hfmt Hsame Hload Hty Hes Hunmarked.
  pose proof (load_littleEndian_writable buf st Hload Hty Hes Hunmarked) as Hw.
  destruct (reload_writable fmt same_double st Hfmt Hsame Hw) as (st' & Hre & Hty' & Hst').
  exists st'. split; [done|]. split; [done|]. split; [|split].
  - intros n. by apply getVertexValues_same.
  - by eapply getFaces_same.
  - by apply facesContents_same.
Qed.

(** The two triangles of [Sample.littleEndian_faces]. *)
Lemma littleEndian_saved_as_ascii_preserves_positions_and_faces_witness :
  let st := (load new_PlyData Sample.littleEndian_faces).2 in
  exists st',
    reload Sample.render st = (true, st')
    /\ type (header st') = "ascii"
    /\ (forall vertexElementName,
          same_outcome (Forall2 (same_number Sample.same_rendering))
            (getVertexPositions st' vertexElementName)
            (getVertexPositions st vertexElementName))
    /\ getFaces st' = getFaces st
    /\ same_outcome
         (fun c' c => option_Forall2 (Forall2 (same_number Sample.same_rendering)) c'.1 c.1
                      /\ option_Forall2 (Forall2 (same_number Sample.same_rendering)) c'.2 c.2)
         (facesContents st') (facesContents st).
Proof.
  assert (forall f, isToken (Sample.render f) = true) as Htoken.
  { intros [b|b|t]; [done..|]. cbn. by destruct (isToken t) eqn:Ht. }
  apply (littleEndian_saved_as_ascii_preserves_positions_and_faces
           Sample.render Sample.same_rendering Sample.littleEndian_faces).
  - exact Htoken.
  - intros f. unfold Sample.same_rendering. cbn [Sample.render]. by rewrite Htoken.
  - vm_compute. reflexivity.
  - vm_compute. reflexivity.
  - let es := eval vm_compute in (elements (load new_PlyData Sample.littleEndian_faces).2) in
    change (elements (load new_PlyData Sample.littleEndian_faces).2) with es.
    repeat constructor; discriminate.
  - let st := eval vm_compute in (load new_PlyData Sample.littleEndian_faces).2 in
    change (load new_PlyData Sample.littleEndian_faces).2 with st.
    unfold unmarked; cbn [header elements comments objInfoComments properties].
    repeat constructor.
Defined.

(** ** Saving twice *)

Section SaveTwice.

Variable fmt : ieee -> string.

Lemma ofNumber_same vs' vs i :
  Forall2 (same_number (same_text fmt)) vs' vs ->
  ofNumber fmt (vs' !! i) = ofNumber fmt (vs !! i).
Proof.
  intros H. revert i. induction H as [|a b vs' vs Hab _ IH]; intros [|i]; cbn; try done.
  by destruct a as [x|f], b as [y|g]; cbn in *; try done; subst.
Qed.

Lemma writeHeaderOfProperty_same q p :
  same_property (same_text fmt) q p -> writeHeaderOfProperty q = writeHeaderOfProperty p.
Proof.
  destruct q, p; cbn; try done.
  - by intros (-> & -> & _).
  - by intros (-> & -> & _).
Qed.

Lemma writeProperty_same q p i :
  same_property (same_text fmt) q p -> writeProperty fmt q i = writeProperty fmt p i.
Proof.
  destruct q as [n' ty' vs'|n' ty' lcb' d' s'], p as [n ty vs|n ty lcb d s]; cbn; try done.
  - intros (_ & _ & H). by rewrite (ofNumber_same _ _ _ H).
  - intros (_ & _ & H & ->). do 2 f_equal. f_equal. apply map_ext. intros j. f_equal.
    unfold at_. destruct (j <? 0); [done|]. by apply ofNumber_same.
Qed.

Lemma map_same {A B : Type} (R : A -> A -> Prop) (f g : A -> B) l' l :
  (forall a' a, R a' a -> f a' = g a) -> Forall2 R l' l -> map f l' = map g l.
Proof. intros Hf H. induction H; cbn; [done|]. f_equal; [by apply Hf|done]. Qed.

Lemma writeHeaderOfElement_same e' e :
  same_element (same_text fmt) e' e -> writeHeaderOfElement e' = writeHeaderOfElement e.
Proof.
  intros (Hn & Hc & Hps). unfold writeHeaderOfElement. rewrite Hn, Hc.
  by rewrite (map_same _ _ _ _ _ writeHeaderOfProperty_same Hps).
Qed.

Lemma writeElement_same e' e :
  same_element (same_text fmt) e' e -> writeElement fmt e' = writeElement fmt e.
Proof.
  intros (Hn & Hc & Hps). unfold writeElement. rewrite Hc. f_equal. apply map_ext.
  intros i. unfold writeInstance.
  by rewrite (map_same _ _ _ _ _ (fun q p => writeProperty_same q p i) Hps).
Qed.

(** Two models that agree but for the width of the list counts and the
    source of floating values of the same text are written alike. *)
Lemma save_same st' st :
  same_model (same_text fmt) st' st -> save fmt st' = save fmt st.
Proof.
  intros (Hv & Hc & Ho & Hes). unfold save, _writeHeader. rewrite Hv, Hc, Ho.
  rewrite (map_same _ _ _ _ _ writeHeaderOfElement_same Hes).
  by rewrite (map_same _ _ _ _ _ writeElement_same Hes).
Qed.

End SaveTwice.

Lemma load_ascii_writable buf st :
  load new_PlyData buf = (true, st) -> type (header st) = "ascii" ->
  Forall (fun e => (properties e = [] -> notPositive (count e))
                   /\ Forall sliced (properties e)) (elements st) ->
  unmarked st -> writable st.
Proof.
  intros Hload Hty Hes Hunmarked.
  destruct (load_ascii buf st Hload Hty) as (Hver & Hnamed & Htyped).
  split; [done|]. split; [done|]. split; [|done].
  rewrite Forall_forall in Hes, Htyped. apply Forall_forall. intros e He.
  destruct (Hes e He) as [Hne Hsl]. specialize (Htyped e He). split.
  - intros Hnil. by apply iterations_notPositive, Hne.
  - rewrite Forall_forall in Hsl, Htyped. apply Forall_forall. intros p Hp.
    destruct (Htyped p Hp) as [Ht Hi]. repeat split; [done..|]. apply (Hsl p Hp).
Qed.

(** X17.  Saving, loading and saving again writes the text of the first
    save, and the model that was loaded back is the one that its own save
    loads: for an ASCII or little-endian file that loads into a model of
    safe integers and of arrays within the limit, under the conditions of the
    round trip, when [fmt] writes the double of a text that it wrote as that
    text. *)
Theorem save_load_save_writes_the_same_text (fmt : ieee -> string) buf st :
  (forall f, isToken (fmt f) = true) ->
  (forall f, fmt (Literal (fmt f)) = fmt f) ->
  load new_PlyData buf = (true, st) ->
  type (header st) = "ascii" \/ type (header st) = "binary_little_endian" ->
  Forall (fun e => (properties e = [] -> notPositive (count e))
                   /\ Forall sliced (properties e)) (elements st) ->
  unmarked st ->
  representable st ->
  exists st',
    reload fmt st = (true, st')
    /\ save fmt st' = save fmt st
    /\ reload fmt st' = (true, st').
Proof.
  intros Hfmt Hsame Hload Hty Hes Hunmarked _.
  assert (writable st) as Hw.
  { destruct Hty as [Hty|Hty].
    - by eapply load_ascii_writable.
    - eapply load_littleEndian_writable; [done..| |done].
      eapply Forall_impl; [exact Hes|]. by intros e [? _]. }
  destruct (reload_writable fmt (same_text fmt) st Hfmt Hsame Hw) as (st' & Hre & _ & Hst').
  exists st'. split; [done|].
  pose proof (save_same fmt st' st Hst') as Hsave. split; [done|].
  unfold reload in *. by rewrite Hsave.
Qed.

(** The square of [Sample.square]. *)
Lemma save_load_save_writes_the_same_text_witness :
  let st := (load new_PlyData Sample.square).2 in
  exists st',
    reload Sample.render st = (true, st')
    /\ save Sample.render st' = save Sample.render st
    /\ reload Sample.render st' = (true, st').
Proof.
  assert (forall f, isToken (Sample.render f) = true) as Htoken.
  { intros [b|b|t]; [done..|]. cbn. by destruct (isToken t) eqn:Ht. }
  apply (save_load_save_writes_the_same_text Sample.render Sample.square).
  - exact Htoken.
  - intros f. cbn [Sample.render]. by rewrite Htoken.
  - vm_compute. reflexivity.
  - left. vm_compute. reflexivity.
  - let es := eval vm_compute in (elements (load new_PlyData Sample.square).2) in
    change (elements (load new_PlyData Sample.square).2) with es.
    repeat constructor; try discriminate.
    intros i a b Ha Hb.
    do 2 (destruct i as [|i]; [cbn in Ha, Hb; simplify_eq; cbn; lia|]).
    destruct i; discriminate.
  - let st := eval vm_compute in (load new_PlyData Sample.square).2 in
    change (load new_PlyData Sample.square).2 with st.
    unfold unmarked; cbn [header elements comments objInfoComments properties].
    repeat constructor.
  - unfold representable, arraysWithinLimit.
    let es := eval vm_compute in (elements (load new_PlyData Sample.square).2) in
    change (elements (load new_PlyData Sample.square).2) with es.
    in_range.
Defined.

(** X18.  The header that [_writeHeader] writes for a model of version 1.0
    whose comments hold no line feed, whose names are single tokens and whose
    counts are safe integers is parsed by [_parseHeader] into the
    declarations of that model: the same version, comments, obj_info lines,
    elements, counts, property names and types, in the same order, with the
    format [ascii], one-byte list counts and no value.  Nothing is asked of
    the values of the model. *)
Theorem written_header_parses_to_its_declarations st :
  version (header st) = "1.0" -> named st ->
  Forall (fun e => safeInteger (count e)) (elements st) ->
  _parseHeader new_PlyData (asLines (list_byte_of_string (_writeHeader st)))
  = (true, declared st).
Proof.
  intros Hver Hnamed _.
  assert (isLine (version (header st)) = true) as Hverl by (by rewrite Hver).
  rewrite writeHeader_lines, asLines_unlines by (by apply isLine_headerTextLines).
  by apply parseHeader_written.
Qed.

(** The model of [Sample.square]. *)
Lemma written_header_parses_to_its_declarations_witness :
  let st := (load new_PlyData Sample.square).2 in
  _parseHeader new_PlyData (asLines (list_byte_of_string (_writeHeader st)))
  = (true, declared st).
Proof.
  apply (written_header_parses_to_its_declarations (load new_PlyData Sample.square).2).
  - vm_compute. reflexivity.
  - let st := eval vm_compute in (load new_PlyData Sample.square).2 in
    change (load new_PlyData Sample.square).2 with st.
    unfold named; cbn [header elements comments objInfoComments properties name].
    repeat constructor.
  - let es := eval vm_compute in (elements (load new_PlyData Sample.square).2) in
    change (elements (load new_PlyData Sample.square).2) with es.
    in_range.
Defined.

(** ** The exceptions of the binary decoders *)

Lemma forEach_throws {A T : Type} (P : A -> Prop) (Q : exn -> Prop)
    (f : A -> T -> A * outcome T) :
  (forall x s e, P x -> (f x s).2 = Throws e -> Q e) ->
  forall xs s e, Forall P xs -> (forEach f xs s).2 = Throws e -> Q e.
Proof.
  intros Hf. induction xs as [|x xs IH]; intros s e HP Hthrow; cbn in Hthrow; [done|].
  apply Forall_cons in HP as [Hx HP].
  pose proof (Hf x s) as Hfx. destruct (f x s) as [x' [s'|e']]; cbn in *.
  - specialize (IH s' e HP). destruct (forEach f xs s') as [xs'' r]. by apply IH.
  - injection Hthrow as <-. by apply Hfx.
Qed.

Lemma times_throws {A T : Type} (P : A -> Prop) (Q : exn -> Prop)
    (f : A -> T -> A * outcome T) :
  (forall x s, P x -> P (f x s).1) ->
  (forall x s e, P x -> (f x s).2 = Throws e -> Q e) ->
  forall n x s e, P x -> (times n f x s).2 = Throws e -> Q e.
Proof.
  intros Hkeep Hf. induction n as [|n IH]; intros x s e HP Hthrow; cbn in Hthrow; [done|].
  pose proof (Hf x s) as Hfx. pose proof (Hkeep x s HP) as Hx'.
  destruct (f x s) as [x' [s'|e']]; cbn in *.
  - by eapply IH.
  - injection Hthrow as <-. by apply Hfx.
Qed.

Lemma forEach_keeps {A T : Type} (P : A -> Prop) (f : A -> T -> A * outcome T) :
  (forall x s, P x -> P (f x s).1) ->
  forall xs s, Forall P xs -> Forall P (forEach f xs s).1.
Proof.
  intros Hf. induction xs as [|x xs IH]; intros s HP; cbn; [done|].
  apply Forall_cons in HP as [Hx HP].
  pose proof (Hf x s Hx) as Hx'. destruct (f x s) as [x' [s'|e']]; cbn in *.
  - specialize (IH s' HP). destruct (forEach f xs s') as [xs'' r]. by constructor.
  - by constructor.
Qed.

Lemma readUint_range w le buffer offset e :
  Buffer.readUint w le buffer offset = Throws e -> e = RangeError.
Proof. unfold Buffer.readUint. destruct (Buffer.bytesAt _ _ _); congruence. Qed.

Lemma readValue_range buffer ty offset le e :
  Property.readValue buffer ty offset le = Throws e -> e = RangeError.
Proof.
  destruct ty, le; cbn;
    unfold Buffer.readInt8, Buffer.readUint8, Buffer.readInt16LE, Buffer.readInt16BE,
      Buffer.readUint16LE, Buffer.readUint16BE, Buffer.readInt32LE, Buffer.readInt32BE,
      Buffer.readUint32LE, Buffer.readUint32BE, Buffer.readFloat, Buffer.readDouble,
      Buffer.readInt;
    match goal with
    | |- context [Buffer.readUint ?w ?l ?b ?o] =>
        pose proof (readUint_range w l b o) as H;
        destruct (Buffer.readUint w l b o); cbn; [discriminate|]
    end;
    intros [= <-]; by apply H.
Qed.

Lemma readItems_range n buffer ty le e : forall offset data,
  (Property.readItems n buffer offset ty le data).2 = Throws e -> e = RangeError.
Proof.
  induction n as [|n IH]; intros offset data; cbn; [done|].
  destruct (Property.readValue _ _ _ _) eqn:Hv; cbn.
  - apply IH.
  - intros [= <-]. by eapply readValue_range.
Qed.

Lemma read_countWidth le buffer p offset :
  countWidth p -> countWidth (Property.read le p buffer offset).1.
Proof.
  destruct p as [n ty vs|n ty lcb d s]; cbn [Property.read].
  - by destruct (Property.readValue _ _ _ _).
  - destruct (Property.readCount _ _ _ _); [|done].
    by destruct (Property.readItems _ _ _ _ _ _) as [d' [o|]].
Qed.

Lemma read_range le buffer p offset e :
  countWidth p -> (Property.read le p buffer offset).2 = Throws e -> e = RangeError.
Proof.
  destruct p as [n ty vs|n ty lcb d s]; cbn [Property.read countWidth].
  - destruct (Property.readValue _ _ _ _) eqn:Hv; cbn; [done|].
    intros _ [= <-]. by eapply readValue_range.
  - intros Hw. destruct (Property.readCount _ _ _ _) as [c|e'] eqn:Hc; cbn.
    + pose proof (readItems_range (iterations (Int c)) buffer ty le e
                    (offset + Z.to_nat lcb)%nat d) as Hit.
      destruct (Property.readItems _ _ _ _ _ _) as [d' [o|e']]; cbn in *; [done|].
      exact Hit.
    + intros [= <-]. unfold Property.readCount in Hc.
      destruct Hw as [->|[->| ->]]; cbn in Hc; destruct le;
        by eapply readUint_range.
Qed.

Lemma readProperties_countWidth le buffer ps offset :
  Forall countWidth ps -> Forall countWidth (readProperties le buffer ps offset).1.
Proof. apply forEach_keeps. intros p s. apply read_countWidth. Qed.

Lemma readProperties_range le buffer ps offset e :
  Forall countWidth ps -> (readProperties le buffer ps offset).2 = Throws e -> e = RangeError.
Proof.
  apply (forEach_throws countWidth (fun e => e = RangeError)).
  intros p s e'. apply read_range.
Qed.

Lemma createPropertyWithType_countWidth n t isList ct p :
  createPropertyWithType n t isList ct = Some p -> countWidth p.
Proof.
  unfold createPropertyWithType.
  repeat case_match; try discriminate; intros [= <-]; simplify_eq; cbn; auto.
Qed.

Lemma pushPropertyToLast_countWidth st p :
  Forall (fun e => Forall countWidth (properties e)) (elements st) -> countWidth p ->
  Forall (fun e => Forall countWidth (properties e)) (elements (pushPropertyToLast st p)).
Proof.
  intros Hst Hp. unfold pushPropertyToLast; simpl.
  apply Forall_alter; [done|]. intros e _ He. simpl.
  apply Forall_app. split; [done|]. by constructor.
Qed.

Lemma headerLine_countWidth st line st' :
  headerLine st line = Next st' ->
  Forall (fun e => Forall countWidth (properties e)) (elements st) ->
  Forall (fun e => Forall countWidth (properties e)) (elements st').
Proof.
  unfold headerLine. intros H Hst.
  repeat case_match; try discriminate; injection H as <-; try done.
  - simpl. apply Forall_app. split; [done|].
    constructor; [|done]. simpl. constructor.
  - apply pushPropertyToLast_countWidth; [done|]. by eapply createPropertyWithType_countWidth.
  - apply pushPropertyToLast_countWidth; [done|]. by eapply createPropertyWithType_countWidth.
Qed.

Lemma headerLines_countWidth ls : forall st st',
  headerLines st ls = (true, st') ->
  Forall (fun e => Forall countWidth (properties e)) (elements st) ->
  Forall (fun e => Forall countWidth (properties e)) (elements st').
Proof.
  induction ls as [|l ls IH]; intros st st' H Hst; simpl in H.
  - by injection H as <-.
  - destruct (headerLine st l) eqn:Hl.
    + eapply IH; [done|]. by eapply headerLine_countWidth.
    + by injection H as <-.
    + discriminate.
Qed.

Lemma parseHeader_countWidth ls st :
  _parseHeader new_PlyData ls = (true, st) ->
  Forall (fun e => Forall countWidth (properties e)) (elements st).
Proof.
  unfold _parseHeader. intros H.
  repeat case_match; try discriminate.
  eapply headerLines_countWidth; [done|]. constructor.
Qed.

(** X19.  On the model that the header parser leaves, the two binary decoders
    raise nothing but the RangeError of a read past the end of the buffer:
    the error [invalid listCountBytes] of the list readers does not occur,
    since the header parser gives every list a count of one, two or four
    bytes. *)
Theorem binary_decoders_raise_RangeError_only lines st buffer e :
  _parseHeader new_PlyData lines = (true, st) ->
  (_parseBinary st buffer).2 = Throws e \/ (_parseBinaryBigEndian st buffer).2 = Throws e ->
  e = RangeError.
Proof.
  intros Hh Hthrow. apply parseHeader_countWidth in Hh.
  destruct Hthrow as [Hthrow|Hthrow].
  - unfold _parseBinary in Hthrow.
    destruct (forEach _ _ _) as [es r] eqn:Heq. cbn in Hthrow. subst r.
    eapply (forEach_throws (fun el => Forall countWidth (properties el))
              (fun e => e = RangeError) (parseBinaryElement buffer));
      [|exact Hh|by rewrite Heq].
    intros el s e' Hel. unfold parseBinaryElement.
    destruct (times _ _ _ _) as [ps r] eqn:Ht. cbn. intros ->.
    eapply (times_throws (Forall countWidth) (fun e => e = RangeError)
              (readProperties true buffer)); [| |exact Hel|by rewrite Ht].
    + intros ps0 s0. apply readProperties_countWidth.
    + intros ps0 s0 e0. apply readProperties_range.
  - unfold _parseBinaryBigEndian in Hthrow.
    destruct (forEach _ _ _) as [es r] eqn:Heq. cbn in Hthrow. subst r.
    eapply (forEach_throws (fun el => Forall countWidth (properties el))
              (fun e => e = RangeError) (parseBinaryBigEndianElement buffer));
      [|exact Hh|by rewrite Heq].
    intros el s e' Hel. unfold parseBinaryBigEndianElement.
    destruct (readProperties _ _ _ _) as [ps r] eqn:Ht. cbn. intros ->.
    eapply readProperties_range; [exact Hel|by rewrite Ht].
Qed.

(** The header of [Sample.header_only], which declares a vertex, on an empty
    body. *)
Lemma binary_decoders_raise_RangeError_only_witness :
  _parseHeader new_PlyData (asLines (take 81 Sample.header_only))
  = (true, (_parseHeader new_PlyData (asLines (take 81 Sample.header_only))).2)
  /\ (_parseBinary (_parseHeader new_PlyData (asLines (take 81 Sample.header_only))).2 []).2
     = Throws RangeError.
Proof.
  assert (_parseHeader new_PlyData (asLines (take 81 Sample.header_only))
          = (true, (_parseHeader new_PlyData (asLines (take 81 Sample.header_only))).2)) as Hh
    by (vm_compute; reflexivity).
  split; [exact Hh|].
  assert (exists e, (_parseBinary (_parseHeader new_PlyData
                                     (asLines (take 81 Sample.header_only))).2 []).2
                    = Throws e) as [e He] by (eexists; vm_compute; reflexivity).
  rewrite He. f_equal.
  exact (binary_decoders_raise_RangeError_only _ _ [] e Hh (or_introl He)).
Defined.

(** ** What is saved loads *)










